(** * Worktree management of libgit2 (src/libgit2/worktree.c)

    A shallow embedding of the worktree code: paths are strings, the file
    system is an explicit state that every operation reads or threads
    through, C error codes are integers, and the helpers that worktree.c
    calls but that live in other translation units are modelled next to
    it. *)

From Stdlib Require Import ZArith Lia Ascii String List DecimalString.
From stdpp Require Import base decidable option list strings gmap.

Local Open Scope Z_scope.

#[local] Set Warnings "-clear-no-such-hyp".

(* ===================================================================== *)
(** ** Error codes *)
(* ===================================================================== *)

(** Modelled from the spec: the error constants of git2/errors.h, which
    worktree.c only includes. GIT_ERROR is the generic failure,
    GIT_ENOTFOUND a missing object or path, GIT_EEXISTS an exclusive-create
    collision and GIT_ELOCKED the "already locked" status. *)
Definition GIT_ERROR : Z := -1.
Definition GIT_ENOTFOUND : Z := -3.
Definition GIT_EEXISTS : Z := -4.
Definition GIT_ELOCKED : Z := -14.

(* ===================================================================== *)
(** ** Strings and paths *)
(* ===================================================================== *)

Definition is_slash (c : ascii) : bool := bool_decide (c = "/"%char).

(** Modelled from the spec: git__isspace of the utility layer (defined
    outside worktree.c), the C-locale white space test. *)
Definition git__isspace (c : ascii) : bool := Ascii.is_space c.

Definition is_empty (s : string) : bool :=
  match s with EmptyString => true | String _ _ => false end.

(** Drops the longest suffix of [s] whose characters all satisfy [P]. *)
Fixpoint rstrip (P : ascii -> bool) (s : string) : string :=
  match s with
  | EmptyString => EmptyString
  | String c s' =>
      let t := rstrip P s' in
      if is_empty t && P c then EmptyString else String c t
  end.

(** Drops the longest prefix of slashes. *)
Fixpoint skip_slashes (s : string) : string :=
  match s with
  | String c s' => if is_slash c then skip_slashes s' else s
  | EmptyString => EmptyString
  end.

Fixpoint ends_with_slash (s : string) : bool :=
  match s with
  | EmptyString => false
  | String c EmptyString => is_slash c
  | String _ s' => ends_with_slash s'
  end.

Fixpoint has_slash (s : string) : bool :=
  match s with
  | EmptyString => false
  | String c s' => is_slash c || has_slash s'
  end.

(** The text after the last slash of [s] (all of [s] without a slash). *)
Fixpoint last_segment (s : string) : string :=
  match s with
  | EmptyString => EmptyString
  | String c s' => if has_slash s then last_segment s' else s
  end.

(** The text up to and including the last slash of [s] (empty without one). *)
Fixpoint upto_last_slash (s : string) : string :=
  match s with
  | EmptyString => EmptyString
  | String c s' => if has_slash s then String c (upto_last_slash s') else EmptyString
  end.

Fixpoint strip_prefix (p s : string) : option string :=
  match p, s with
  | EmptyString, _ => Some s
  | String a p', String b s' => if bool_decide (a = b) then strip_prefix p' s' else None
  | String _ _, EmptyString => None
  end.

(** Modelled from the spec: git_str_rtrim of str.c (defined outside
    worktree.c) removes trailing white space from a buffer. *)
Definition git_str_rtrim (s : string) : string := rstrip git__isspace s.

(** Modelled from the spec: git_str_joinpath of str.c (defined outside
    worktree.c), the "join" path utility: [b] is appended to [a] with
    exactly one separator between them; leading separators of [b] are
    dropped when [a] is not empty, and an empty [a] yields [b] unchanged. *)
Definition git_str_joinpath (a b : string) : string :=
  if is_empty a then b
  else a +:+ (if ends_with_slash a then "" else "/") +:+ skip_slashes b.

(** Modelled from the spec: git_str_join3 of str.c (defined outside
    worktree.c), the three-way join with separator '/'. *)
Definition git_str_join3 (a b c : string) : string :=
  let b' := if is_empty a then b else skip_slashes b in
  let c' := if is_empty a && is_empty b' then c else skip_slashes c in
  a +:+ (if is_empty a || ends_with_slash a then "" else "/")
    +:+ b' +:+ (if is_empty b' || ends_with_slash b' then "" else "/")
    +:+ c'.

(** Modelled from the spec: git_fs_path_is_relative of fs_path.h (defined
    outside worktree.c); on POSIX a path is relative unless it starts with a
    slash. *)
Definition git_fs_path_is_relative (p : string) : bool :=
  match p with
  | String c _ => negb (is_slash c)
  | EmptyString => true
  end.

(** Modelled from the spec: git_fs_path_basename of fs_path.c (defined
    outside worktree.c), the "basename" path utility: trailing slashes are
    ignored, the empty path gives ".", a path of slashes only gives "/". *)
Definition git_fs_path_basename (p : string) : string :=
  if is_empty p then "."
  else
    let t := rstrip is_slash p in
    if is_empty t then "/" else last_segment t.

(** Modelled from the spec: git_fs_path_dirname of fs_path.c (defined
    outside worktree.c), the "dirname" path utility. *)
Definition git_fs_path_dirname (p : string) : string :=
  if is_empty p then "."
  else
    let t := rstrip is_slash p in
    if is_empty t then "/"
    else
      let u := upto_last_slash t in
      if is_empty u then "."
      else
        let v := rstrip is_slash u in
        if is_empty v then "/" else v.

(** Splits a path into its non-empty segments; the flag tells whether the
    segment was followed by a slash. *)
Fixpoint segments_from (cur : string) (s : string) : list (string * bool) :=
  match s with
  | EmptyString => if is_empty cur then [] else [(cur, false)]
  | String c s' =>
      if is_slash c
      then (if is_empty cur then segments_from "" s'
            else (cur, true) :: segments_from "" s')
      else segments_from (cur +:+ String c "") s'
  end.

Definition segments (s : string) : list (string * bool) := segments_from "" s.

Definition piece (sg : string * bool) : string :=
  if sg.2 then sg.1 +:+ "/" else sg.1.

Fixpoint concat_strings (l : list string) : string :=
  match l with
  | [] => ""
  | x :: l' => x +:+ concat_strings l'
  end.

(** The segment walk of git_fs_path_resolve_relative.  [hard] says that the
    path has a root that cannot be backed over; [locked] holds the leading
    "../" pieces of a relative path and [out] the pieces emitted after them,
    both most recent first. *)
Fixpoint resolve_segments (hard : bool) (sgs : list (string * bool))
    (locked out : list string) : option (list string) :=
  match sgs with
  | [] => Some (rev locked ++ rev out)
  | sg :: sgs' =>
      if bool_decide (sg.1 = ".") then resolve_segments hard sgs' locked out
      else if bool_decide (sg.1 = "..") then
        match out with
        | _ :: out' => resolve_segments hard sgs' locked out'
        | [] => if hard then None
                else resolve_segments hard sgs' (piece sg :: locked) []
        end
      else resolve_segments hard sgs' locked (piece sg :: out)
  end.

(** Modelled from the spec: git_fs_path_resolve_relative of fs_path.c
    (defined outside worktree.c): "." segments and repeated slashes
    disappear, ".." removes the segment before it, and backing over the root
    of an absolute path is an error. *)
Definition git_fs_path_resolve_relative (p : string) : option string :=
  match p with
  | String c rest =>
      if is_slash c
      then option_map (fun l => String c (concat_strings l))
                      (resolve_segments true (segments rest) [] [])
      else option_map concat_strings (resolve_segments false (segments p) [] [])
  | EmptyString => Some ""
  end.

(** Modelled from the spec: git_fs_path_apply_relative of fs_path.c (defined
    outside worktree.c), the "make-relative-to-absolute" path utility: join,
    then resolve. [None] stands for the negative return value that the
    callers in worktree.c test for. *)
Definition git_fs_path_apply_relative (target relpath : string) : option string :=
  git_fs_path_resolve_relative (git_str_joinpath target relpath).

(** sprintf(buf, "%d", n) of the C library: the decimal text of [n]. *)
Definition sprintf_d (n : Z) : string := NilZero.string_of_int (Z.to_int n).

(* ===================================================================== *)
(** ** The file system *)
(* ===================================================================== *)

(** Every path that exists is listed once with what it is.  The order of
    the list is the order in which a directory scan reports entries. *)
Inductive node : Type :=
  | File (content : string)
  | Dir.

Definition filesystem : Type := list (string * node).

Inductive result (A : Type) : Type :=
  | Ok (a : A)
  | Err (code : Z).
Arguments Ok {A} a.
Arguments Err {A} code.

(** A path names the same object with or without trailing slashes. *)
Definition fs_key (p : string) : string :=
  let t := rstrip is_slash p in
  if is_empty t then (if is_empty p then "" else "/") else t.

Fixpoint fs_find (k : string) (fs : filesystem) : option node :=
  match fs with
  | [] => None
  | (k', n) :: fs' => if bool_decide (k' = k) then Some n else fs_find k fs'
  end.

Definition fs_stat (fs : filesystem) (p : string) : option node :=
  fs_find (fs_key p) fs.

(** Replaces the object at [k], or adds it as the last entry. *)
Fixpoint fs_insert (k : string) (n : node) (fs : filesystem) : filesystem :=
  match fs with
  | [] => [(k, n)]
  | (k', n') :: fs' =>
      if bool_decide (k' = k) then (k, n) :: fs' else (k', n') :: fs_insert k n fs'
  end.

Definition fs_remove (k : string) (fs : filesystem) : filesystem :=
  List.filter (fun e => negb (bool_decide (e.1 = k))) fs.

Definition dir_prefix (d : string) : string :=
  if ends_with_slash d then d else d +:+ "/".

(** [q] lies strictly below the directory [d]. *)
Definition under (d q : string) : bool :=
  match strip_prefix (dir_prefix d) q with
  | Some r => negb (is_empty r)
  | None => false
  end.

Definition fs_remove_tree (k : string) (fs : filesystem) : filesystem :=
  List.filter (fun e => negb (bool_decide (e.1 = k) || under k e.1)) fs.

(** The name under which [k] is a direct entry of directory [d]. *)
Definition child_name (d k : string) : option string :=
  match strip_prefix (dir_prefix d) k with
  | Some n => if is_empty n || has_slash n then None else Some n
  | None => None
  end.

Definition fs_children (fs : filesystem) (d : string) : list string :=
  omap (fun e => child_name d e.1) fs.

(** Modelled from the spec: git_fs_path_exists of fs_path.c (defined outside
    worktree.c), the "existence check" path utility. *)
Definition git_fs_path_exists (fs : filesystem) (p : string) : bool :=
  match fs_stat fs p with Some _ => true | None => false end.

(** Modelled from the spec: git_fs_path_isfile of fs_path.c (defined outside
    worktree.c): the path exists and is a regular file. *)
Definition git_fs_path_isfile (fs : filesystem) (p : string) : bool :=
  match fs_stat fs p with Some (File _) => true | _ => false end.

(** Modelled from the spec: git_fs_path_contains_file of fs_path.c (defined
    outside worktree.c): [file] joined to [dir] is a regular file. *)
Definition git_fs_path_contains_file (fs : filesystem) (dir file : string) : bool :=
  git_fs_path_isfile fs (git_str_joinpath dir file).

(** Modelled from the spec: git_fs_path_is_empty_dir of fs_path.c (defined
    outside worktree.c), the "empty-directory check" path utility. *)
Definition git_fs_path_is_empty_dir (fs : filesystem) (p : string) : bool :=
  match fs_stat fs p with
  | Some Dir => match fs_children fs (fs_key p) with [] => true | _ => false end
  | _ => false
  end.

(** Modelled from the spec: git_fs_path_dirload of fs_path.c (defined
    outside worktree.c), the "directory listing" path utility. worktree.c
    passes the length of the directory path as prefix length, so the vector
    receives the bare entry names, in enumeration order. *)
Definition git_fs_path_dirload (fs : filesystem) (p : string) : result (list string) :=
  match fs_stat fs p with
  | Some Dir => Ok (fs_children fs (fs_key p))
  | _ => Err GIT_ERROR
  end.

(** Modelled from the spec: git_fs_path_prettify_dir of fs_path.c (defined
    outside worktree.c): the real path of an existing directory, with a
    trailing slash. Symbolic links and the working directory of the process
    are outside the model, so the real path of a path is its key. *)
Definition git_fs_path_prettify_dir (fs : filesystem) (p : string) : result string :=
  match fs_stat fs p with
  | Some _ => Ok (dir_prefix (fs_key p))
  | None => Err GIT_ENOTFOUND
  end.

(** Modelled from the spec: git_futils_readbuffer of futils.c (defined
    outside worktree.c): "read whole file into a buffer". *)
Definition git_futils_readbuffer (fs : filesystem) (p : string) : result string :=
  match fs_stat fs p with
  | Some (File c) => Ok c
  | _ => Err GIT_ENOTFOUND
  end.

Definition parent_is_dir (fs : filesystem) (k : string) : bool :=
  match fs_find (git_fs_path_dirname k) fs with Some Dir => true | _ => false end.

(** Modelled from the spec: git_futils_writebuffer of futils.c (defined
    outside worktree.c): "write buffer to file with configurable
    create-flags". [excl] stands for O_CREAT|O_EXCL|O_WRONLY, the only flags
    worktree.c passes. *)
Definition git_futils_writebuffer (fs : filesystem) (content p : string)
    (excl : bool) : Z * filesystem :=
  let k := fs_key p in
  match fs_find k fs with
  | Some Dir => (GIT_ERROR, fs)
  | Some (File _) => if excl then (GIT_ERROR, fs) else (0, fs_insert k (File content) fs)
  | None => if parent_is_dir fs k then (0, fs_insert k (File content) fs)
            else (GIT_ERROR, fs)
  end.

(** Modelled from the spec: p_creat of the POSIX layer (defined outside
    worktree.c): creates or truncates a file and returns a descriptor, which
    is not negative (its value does not matter to the caller; 3 here). *)
Definition p_creat (fs : filesystem) (p : string) : Z * filesystem :=
  let k := fs_key p in
  match fs_find k fs with
  | Some Dir => (-1, fs)
  | Some (File _) => (3, fs_insert k (File "") fs)
  | None => if parent_is_dir fs k then (3, fs_insert k (File "") fs) else (-1, fs)
  end.

(** Modelled from the spec: p_unlink of the POSIX layer (defined outside
    worktree.c): removes a file. *)
Definition p_unlink (fs : filesystem) (p : string) : Z * filesystem :=
  let k := fs_key p in
  match fs_find k fs with
  | Some (File _) => (0, fs_remove k fs)
  | _ => (-1, fs)
  end.

(** The proper ancestors of [k] that a recursive mkdir may have to create,
    outermost first. *)
Fixpoint ancestors_from (fuel : nat) (k : string) (acc : list string) : list string :=
  match fuel with
  | O => acc
  | S fuel' =>
      let d := git_fs_path_dirname k in
      if bool_decide (d = "/") || bool_decide (d = ".") || bool_decide (d = k)
      then acc else ancestors_from fuel' d (d :: acc)
  end.

Definition ancestors (k : string) : list string :=
  ancestors_from (String.length k) k [].

Fixpoint mkdir_each (fs : filesystem) (ks : list string) : Z * filesystem :=
  match ks with
  | [] => (0, fs)
  | k :: ks' =>
      match fs_find k fs with
      | Some Dir => mkdir_each fs ks'
      | Some (File _) => (GIT_ERROR, fs)
      | None => mkdir_each (fs ++ [(k, Dir)]) ks'
      end
  end.

(** Modelled from the spec: git_futils_mkdir of futils.c (defined outside
    worktree.c), "recursive directory creation". [excl] is GIT_MKDIR_EXCL
    (fail when the directory exists), [recursive] is GIT_MKDIR_PATH (create
    missing parents). *)
Definition git_futils_mkdir (fs : filesystem) (p : string)
    (excl recursive : bool) : Z * filesystem :=
  let k := fs_key p in
  match fs_find k fs with
  | Some Dir => if excl then (GIT_EEXISTS, fs) else (0, fs)
  | Some (File _) => if excl then (GIT_EEXISTS, fs) else (GIT_ERROR, fs)
  | None =>
      if recursive then mkdir_each fs (ancestors k ++ [k])
      else if parent_is_dir fs k then (0, fs ++ [(k, Dir)])
      else (GIT_ERROR, fs)
  end.

(** Modelled from the spec: git_futils_rmdir_r of futils.c with
    GIT_RMDIR_REMOVE_FILES (defined outside worktree.c), "recursive
    directory removal": the path and everything below it disappear. *)
Definition git_futils_rmdir_r (fs : filesystem) (p : string) : Z * filesystem :=
  (0, fs_remove_tree (fs_key p) fs).

(* ===================================================================== *)
(** ** Data of worktree.c *)
(* ===================================================================== *)

(** Modelled from the spec: struct git_repository is declared in
    repository.h, which worktree.c only includes; these are the fields
    that worktree.c reads. *)
Record git_repository : Type := {
  commondir : string;
  workdir : string;
  is_bare : bool
}.

(** Modelled from the spec: git_repository_workdir of repository.c (defined
    outside worktree.c): NULL for a bare repository. *)
Definition git_repository_workdir (repo : git_repository) : option string :=
  if is_bare repo then None else Some (workdir repo).

(** Modelled from the spec: struct git_worktree is declared in worktree.h,
    which worktree.c only includes; the fields are those that worktree.c
    fills in and frees, and [parent_path] may be NULL. *)
Record git_worktree : Type := {
  name : string;
  worktree_path : string;
  gitlink_path : string;
  gitdir_path : string;
  commondir_path : string;
  parent_path : option string;
  locked : bool
}.

Definition set_locked (wt : git_worktree) (b : bool) : git_worktree :=
  {| name := name wt; worktree_path := worktree_path wt;
     gitlink_path := gitlink_path wt; gitdir_path := gitdir_path wt;
     commondir_path := commondir_path wt; parent_path := parent_path wt;
     locked := b |}.

(** Modelled from the spec: git_str_sets of str.c (defined outside
    worktree.c) copies a string into a buffer; a NULL string empties the
    buffer.  Allocation does not fail in the model, so the call returns 0. *)
Definition git_str_sets (s : option string) : Z * string :=
  (0, default "" s).

(* ===================================================================== *)
(** ** Validating and resolving administrative directories *)
(* ===================================================================== *)

(** worktree.c, is_worktree_private_directory. *)
Definition is_worktree_private_directory (fs : filesystem) (path : string) : bool :=
  git_fs_path_contains_file fs path "commondir"
  && git_fs_path_contains_file fs path "gitdir"
  && git_fs_path_contains_file fs path "HEAD".

(** worktree.c, git_worktree__read_link; [None] is the NULL result. *)
Definition git_worktree__read_link (fs : filesystem) (base file : string)
    : option string :=
  let path := git_str_joinpath base file in
  match git_futils_readbuffer fs path with
  | Err _ => None
  | Ok content =>
      let buf := git_str_rtrim content in
      if negb (git_fs_path_is_relative buf) then Some buf
      else
        let path := base in
        match git_fs_path_apply_relative path buf with
        | None => None
        | Some path => Some path
        end
  end.

(** worktree.c, get_worktree_gitdir_from_private_directory.  [out] is the
    caller's buffer; the result is the return value and the buffer after
    the call.  The first assignment stores the outcome of the comparison
    [git_str_sets(...) < 0], as the parentheses of the source have it. *)
Definition get_worktree_gitdir_from_private_directory (fs : filesystem)
    (out directory : string) : Z * string :=
  if negb (is_worktree_private_directory fs directory) then (-1, out)
  else
    let '(r, buf) := git_str_sets (git_worktree__read_link fs directory "gitdir") in
    let error := Z.b2z (r <? 0) in
    if negb (error =? 0) then (error, out)
    else
      match git_fs_path_apply_relative buf ".." with
      | None => (GIT_ERROR, out)
      | Some buf =>
          let '(error, out') := git_str_sets (Some buf) in
          if error <? 0 then (error, out) else (error, out')
      end.

(* ===================================================================== *)
(** ** Listing *)
(* ===================================================================== *)

(** Modelled from the spec: git_vector_remove of vector.c (defined outside
    worktree.c) removes the element at [idx] in place; the elements after it
    move down by one. *)
Definition git_vector_remove (v : list string) (idx : nat) : list string :=
  delete idx v.

(** Modelled from the spec: git_vector_set of vector.c (defined outside
    worktree.c) stores [value] at [position]; the scan below only calls it
    with a position inside the vector. *)
Definition git_vector_set (v : list string) (position : nat) (value : string)
    : Z * list string :=
  (0, <[position := value]> v).

(** The git_vector_foreach loop of git_worktree_list: [i] is the running
    index over the vector [worktrees], which the body shrinks in place.
    [Err e] is the jump to the exit label with [error = e]; [Ok] carries the
    value of [error] and the vector when the loop ends.  The loop runs at
    most once per element, so [fuel] is the length of the vector. *)
Fixpoint list_foreach (fuel : nat) (fs : filesystem) (dir worktree_dir : string)
    (worktrees : list string) (i : nat) (error : Z) : result (Z * list string) :=
  match fuel with
  | O => Ok (error, worktrees)
  | S fuel' =>
      match worktrees !! i with
      | None => Ok (error, worktrees)
      | Some worktree =>
          let path := dir +:+ worktree in
          if negb (is_worktree_private_directory fs path) then
            list_foreach fuel' fs dir worktree_dir
              (git_vector_remove worktrees i) (S i) error
          else
            let '(error, worktree_dir) :=
              get_worktree_gitdir_from_private_directory fs worktree_dir path in
            if error <? 0 then Err error
            else
              let '(error, worktrees) := git_vector_set worktrees i worktree in
              if error <? 0 then Err error
              else list_foreach fuel' fs dir worktree_dir worktrees (S i) error
      end
  end.

(** worktree.c, git_worktree_list: the return value and the strings handed
    to the caller. *)
Definition git_worktree_list (fs : filesystem) (repo : git_repository)
    : Z * list string :=
  let path := git_str_joinpath (commondir repo) "worktrees/" in
  let error := 0 in
  if negb (git_fs_path_exists fs path) || git_fs_path_is_empty_dir fs path
  then (error, [])
  else
    match git_fs_path_dirload fs path with
    | Err error => (error, [])
    | Ok worktrees =>
        match list_foreach (length worktrees) fs path "" worktrees 0 0 with
        | Err error => (error, [])
        | Ok (error, worktrees) => (error, worktrees)
        end
    end.

(* ===================================================================== *)
(** ** Locks *)
(* ===================================================================== *)

(** worktree.c, git_worktree__is_locked.  [reason] is [None] for a NULL
    buffer; the result is the return value and the buffer after the call. *)
Definition git_worktree__is_locked (fs : filesystem) (reason : option string)
    (wt : git_worktree) : Z * option string :=
  let reason := option_map (fun _ => "") reason in
  let path := git_str_joinpath (gitdir_path wt) "locked" in
  let locked := git_fs_path_exists fs path in
  match reason with
  | Some _ =>
      if locked then
        match git_futils_readbuffer fs path with
        | Err error => (error, reason)
        | Ok content => (Z.b2z locked, Some content)
        end
      else (Z.b2z locked, reason)
  | None => (Z.b2z locked, reason)
  end.

(** worktree.c, git_worktree_is_locked: the public entry point, which
    converts the caller's buffer and back. *)
Definition git_worktree_is_locked (fs : filesystem) (reason : option string)
    (wt : git_worktree) : Z * option string :=
  git_worktree__is_locked fs reason wt.

(** worktree.c, git_worktree_lock.  [reason] is [None] for NULL. *)
Definition git_worktree_lock (fs : filesystem) (wt : git_worktree)
    (reason : option string) : Z * git_worktree * filesystem :=
  let error := (git_worktree_is_locked fs None wt).1 in
  if error <? 0 then (error, wt, fs)
  else if negb (error =? 0) then (GIT_ELOCKED, wt, fs)
  else
    let path := git_str_joinpath (gitdir_path wt) "locked" in
    let buf := default "" reason in
    let '(error, fs') := git_futils_writebuffer fs buf path true in
    if error <? 0 then (error, wt, fs')
    else (error, set_locked wt true, fs').

(** worktree.c, git_worktree_unlock. *)
Definition git_worktree_unlock (fs : filesystem) (wt : git_worktree)
    : Z * git_worktree * filesystem :=
  let error := (git_worktree_is_locked fs None wt).1 in
  if error <? 0 then (error, wt, fs)
  else if error =? 0 then (1, wt, fs)
  else
    let path := git_str_joinpath (gitdir_path wt) "locked" in
    let '(r, fs') := p_unlink fs path in
    if negb (r =? 0) then (-1, wt, fs')
    else (0, set_locked wt false, fs').

(* ===================================================================== *)
(** ** Opening and looking up *)
(* ===================================================================== *)

(** Modelled from the spec: git_path_validate_length of path.c (defined
    outside worktree.c), "path validation against length limits"; no limit
    applies on POSIX systems. *)
Definition git_path_validate_length (p : string) : Z := 0.

(** worktree.c, open_worktree_dir: the return value and [*out]. *)
Definition open_worktree_dir (fs : filesystem) (parent : option string)
    (dir name : string) : Z * option git_worktree :=
  if negb (is_worktree_private_directory fs dir) then (-1, None)
  else if git_path_validate_length dir <? 0 then (git_path_validate_length dir, None)
  else
    match git_worktree__read_link fs dir "commondir" with
    | None => (-1, None)
    | Some commondir_path =>
        match git_worktree__read_link fs dir "gitdir" with
        | None => (-1, None)
        | Some gitlink_path =>
            let worktree_path := git_fs_path_dirname gitlink_path in
            match git_fs_path_prettify_dir fs dir with
            | Err error => (error, None)
            | Ok gitdir =>
                let wt := {| name := name; worktree_path := worktree_path;
                             gitlink_path := gitlink_path; gitdir_path := gitdir;
                             commondir_path := commondir_path;
                             parent_path := parent; locked := false |} in
                let error := (git_worktree_is_locked fs None wt).1 in
                if error <? 0 then (error, None)
                else (0, Some (set_locked wt (negb (error =? 0))))
            end
        end
    end.

(** The git_vector_foreach loop of git_worktree_lookup, which leaves the
    vector alone: the result is [error], [found] and [*out] at the label
    [out]. *)
Fixpoint lookup_foreach (fs : filesystem) (repo : git_repository) (name dir : string)
    (worktree_dir : string) (worktrees : list string) (error : Z)
    : Z * Z * option git_worktree :=
  match worktrees with
  | [] => (error, 0, None)
  | worktree :: rest =>
      let path := dir +:+ worktree in
      if is_worktree_private_directory fs path then
        let '(error, worktree_dir) :=
          get_worktree_gitdir_from_private_directory fs worktree_dir path in
        if error <? 0 then (error, 0, None)
        else
          let basename1 := git_fs_path_basename worktree_dir in
          let basename2 := git_fs_path_basename name in
          if bool_decide (basename1 = basename2) then
            let '(error, out) :=
              open_worktree_dir fs (git_repository_workdir repo) path name in
            if error <? 0 then (error, 0, None) else (error, 1, out)
          else lookup_foreach fs repo name dir worktree_dir rest error
      else lookup_foreach fs repo name dir worktree_dir rest error
  end.

(** worktree.c, git_worktree_lookup: the return value and [*out].  The
    local [found] is assigned only after the directory has been loaded;
    [found_uninit] is the indeterminate value it holds before that, which
    the jump to [out] for a missing or empty registry reads. *)
Definition git_worktree_lookup (found_uninit : Z) (fs : filesystem)
    (repo : git_repository) (name : string) : Z * option git_worktree :=
  let path := git_str_joinpath (commondir repo) "worktrees/" in
  let '(error, found, out) :=
    if negb (git_fs_path_exists fs path) || git_fs_path_is_empty_dir fs path
    then (0, found_uninit, None)
    else
      match git_fs_path_dirload fs path with
      | Err error => (error, found_uninit, None)
      | Ok worktrees => lookup_foreach fs repo name path "" worktrees 0
      end in
  if error <? 0 then (error, out)
  else (if found =? 0 then -1 else 0, out).

(* ===================================================================== *)
(** ** Validation and pruning *)
(* ===================================================================== *)

(** worktree.c, git_worktree_validate: the return value and the message
    handed to git_error_set, if any. *)
Definition git_worktree_validate (fs : filesystem) (wt : git_worktree)
    : Z * option string :=
  let ret := 0 in
  if negb (is_worktree_private_directory fs (gitdir_path wt)) then
    (GIT_ERROR,
     Some ("worktree gitdir ('" +:+ gitlink_path wt +:+ "') is not valid"))
  else if match parent_path wt with
          | Some parent => negb (git_fs_path_exists fs parent)
          | None => false
          end
  then
    (GIT_ERROR,
     Some ("worktree parent directory ('" +:+ default "" (parent_path wt)
           +:+ "') does not exist "))
  else if negb (git_fs_path_exists fs (commondir_path wt)) then
    (GIT_ERROR,
     Some ("worktree common directory ('" +:+ commondir_path wt
           +:+ "') does not exist "))
  else if negb (git_fs_path_exists fs (worktree_path wt)) then
    (GIT_ERROR,
     Some ("worktree directory '" +:+ worktree_path wt +:+ "' does not exist"))
  else (ret, None).

(** Modelled from the spec: git_worktree_prune_options and the flags of
    git_worktree_prune_t are declared in git2/worktree.h, which worktree.c
    only includes; the flags are the options allow_valid, allow_locked and
    remove_working_tree. *)
Record git_worktree_prune_options : Type := {
  prune_version : Z;
  prune_flags : Z
}.

Definition GIT_WORKTREE_PRUNE_VALID : Z := 1.
Definition GIT_WORKTREE_PRUNE_LOCKED : Z := 2.
Definition GIT_WORKTREE_PRUNE_WORKING_TREE : Z := 4.
Definition GIT_WORKTREE_PRUNE_OPTIONS_VERSION : Z := 1.

Definition GIT_WORKTREE_PRUNE_OPTIONS_INIT : git_worktree_prune_options :=
  {| prune_version := GIT_WORKTREE_PRUNE_OPTIONS_VERSION; prune_flags := 0 |}.

(** Modelled from the spec: the test behind GIT_ERROR_CHECK_VERSION (the
    macro is defined outside worktree.c): a structure that is present must
    carry a version between 1 and the expected one. *)
Definition git_error__check_version (actual : option Z) (expected_max : Z) : Z :=
  match actual with
  | None => 0
  | Some v => if (0 <? v) && (v <=? expected_max) then 0 else -1
  end.

(** git_worktree_is_prunable, the block guarded by the LOCKED flag: [Some]
    is the return from inside the block (value and message), [None] means
    that control falls through to the second test. *)
Definition prunable_lock_guard (fs : filesystem) (wt : git_worktree)
    (popts : git_worktree_prune_options) : option (Z * option string) :=
  if Z.land (prune_flags popts) GIT_WORKTREE_PRUNE_LOCKED =? 0 then
    let '(error, reason) := git_worktree__is_locked fs (Some "") wt in
    if error <? 0 then Some (error, None)
    else if negb (error =? 0) then
      let reason := default "" reason in
      let reason := if is_empty reason then "no reason given" else reason in
      Some (0, Some ("not pruning locked working tree: '" +:+ reason +:+ "'"))
    else None
  else None.

(** worktree.c, git_worktree_is_prunable: the return value and the last
    message handed to git_error_set, if any. *)
Definition git_worktree_is_prunable (fs : filesystem) (wt : git_worktree)
    (opts : option git_worktree_prune_options) : Z * option string :=
  if git_error__check_version (option_map prune_version opts)
       GIT_WORKTREE_PRUNE_OPTIONS_VERSION <? 0
  then (-1, Some "invalid version on git_worktree_prune_options")
  else
    let popts := default GIT_WORKTREE_PRUNE_OPTIONS_INIT opts in
    match prunable_lock_guard fs wt popts with
    | Some r => r
    | None =>
        if Z.land (prune_flags popts) GIT_WORKTREE_PRUNE_VALID =? 0 then
          let '(ret, msg) := git_worktree_validate fs wt in
          if ret =? 0 then (0, Some "not pruning valid working tree")
          else (1, msg)
        else (1, None)
    end.

(** worktree.c, git_worktree_prune: the return value and the file system
    after the call (the messages handed to git_error_set are not recorded
    for this function). *)
Definition git_worktree_prune (fs : filesystem) (wt : git_worktree)
    (opts : option git_worktree_prune_options) : Z * filesystem :=
  if git_error__check_version (option_map prune_version opts)
       GIT_WORKTREE_PRUNE_OPTIONS_VERSION <? 0
  then (-1, fs)
  else
    let popts := default GIT_WORKTREE_PRUNE_OPTIONS_INIT opts in
    if (git_worktree_is_prunable fs wt (Some popts)).1 =? 0 then (-1, fs)
    else
      let path := git_str_join3 (commondir_path wt) "worktrees" (name wt) in
      if negb (git_fs_path_exists fs path) then (-1, fs)
      else
        let '(err, fs) := git_futils_rmdir_r fs path in
        if err <? 0 then (err, fs)
        else if (Z.land (prune_flags popts) GIT_WORKTREE_PRUNE_WORKING_TREE =? 0)
                || negb (git_fs_path_exists fs (gitlink_path wt))
        then (err, fs)
        else
          let wtpath := git_fs_path_dirname (gitlink_path wt) in
          let path := wtpath in
          if negb (git_fs_path_exists fs path) then (-1, fs)
          else git_futils_rmdir_r fs path.

(* ===================================================================== *)
(** ** Adding a worktree *)
(* ===================================================================== *)

(** Modelled from the spec: the reference subsystem lies outside
    worktree.c; what worktree.c asks of a reference is its name, whether it
    "is a branch" and whether it "is checked out elsewhere". *)
Record git_reference : Type := {
  ref_name : string;
  ref_is_branch : bool;
  ref_checked_out : bool
}.

Definition git_reference_is_branch (r : git_reference) : bool := ref_is_branch r.
Definition git_branch_is_checked_out (r : git_reference) : bool := ref_checked_out r.

(** Modelled from the spec: the "checkout configuration" that the caller
    supplies and git_worktree_add hands on to the checkout unread
    (git_checkout_options of git2/checkout.h). *)
Record git_checkout_options : Type := { checkout_strategy : Z }.

Definition GIT_CHECKOUT_OPTIONS_INIT : git_checkout_options :=
  {| checkout_strategy := 0 |}.

(** Modelled from the spec: git_worktree_add_options of git2/worktree.h,
    which worktree.c only includes: the options
    [{branch_reference?, lock: bool, checkout_config}] behind a version
    field. *)
Record git_worktree_add_options : Type := {
  add_version : Z;
  lock : bool;
  ref : option git_reference;
  checkout_options : git_checkout_options
}.

Definition GIT_WORKTREE_ADD_OPTIONS_VERSION : Z := 1.

Definition GIT_WORKTREE_ADD_OPTIONS_INIT : git_worktree_add_options :=
  {| add_version := GIT_WORKTREE_ADD_OPTIONS_VERSION; lock := false; ref := None;
     checkout_options := GIT_CHECKOUT_OPTIONS_INIT |}.

(** The subsystems that git_worktree_add delegates to; they are outside
    worktree.c and are taken as given.  [new_branch repo name] stands for
    git_repository_head, git_commit_lookup and git_branch_create in a row;
    [checkout wddir coopts] for git_repository_open and git_checkout_head. *)
Record collaborators : Type := {
  new_branch : git_repository -> string -> filesystem -> result git_reference * filesystem;
  git_repository_create_head : string -> string -> filesystem -> Z * filesystem;
  checkout : string -> git_checkout_options -> filesystem -> Z * filesystem
}.

(** Threading the file system through a sequence of fallible steps: a
    failing step is the jump to the label [out], which keeps whatever the
    earlier steps did. *)
Definition M (A : Type) : Type := filesystem -> result A * filesystem.

Definition mret {A : Type} (a : A) : M A := fun fs => (Ok a, fs).

Definition mfail {A : Type} (code : Z) : M A := fun fs => (Err code, fs).

Definition mbind {A B : Type} (m : M A) (k : A -> M B) : M B :=
  fun fs =>
    match m fs with
    | (Ok a, fs') => k a fs'
    | (Err code, fs') => (Err code, fs')
    end.

Notation "'let!' x ':=' m 'in' k" := (mbind m (fun x => k))
  (at level 10, x name, m at level 100, k at level 200, only parsing).

(** A call whose negative return value is an error. *)
Definition status (f : filesystem -> Z * filesystem) : M Z :=
  fun fs => let '(r, fs') := f fs in if r <? 0 then (Err r, fs') else (Ok r, fs').

Definition query {A : Type} (f : filesystem -> A) : M A :=
  fun fs => (Ok (f fs), fs).

Definition attempt {A : Type} (f : filesystem -> result A) : M A :=
  fun fs => (f fs, fs).

(** int8_t arithmetic: the value of [z] after conversion to int8_t, which
    wraps around on two's complement machines. *)
Definition int8_wrap (z : Z) : Z := (z + 128) mod 256 - 128.

(** How the search for a free directory name ends: with a name (and the
    joined path that does not exist), or with sprintf writing past the four
    bytes of [suffixstrbuf]. *)
Inductive subdir_search : Type :=
  | Found (private_subdir_name private_subdir_tmp : string)
  | Overrun.

(** The [while (true)] loop of git_worktree_add.  [None] means that [fuel]
    iterations were not enough. *)
Fixpoint private_subdir_loop (fuel : nat) (fs : filesystem) (gitdir : string)
    (private_subdir_name : string) (suffix : Z) : option subdir_search :=
  match fuel with
  | O => None
  | S fuel' =>
      let private_subdir_tmp := git_str_joinpath gitdir private_subdir_name in
      if git_fs_path_exists fs private_subdir_tmp then
        let suffixstr := sprintf_d suffix in
        if (4 <? Z.of_nat (String.length suffixstr) + 1) then Some Overrun
        else
          private_subdir_loop fuel' fs gitdir
            (private_subdir_name +:+ suffixstr) (int8_wrap (suffix + 1))
      else Some (Found private_subdir_name private_subdir_tmp)
  end.

(** git_worktree_add, the checks on [wtopts.ref]. *)
Definition add_check_ref (wtopts : git_worktree_add_options) : M unit :=
  match ref wtopts with
  | Some r =>
      if negb (git_reference_is_branch r) then mfail (-1)
      else if git_branch_is_checked_out r then mfail (-1)
      else mret tt
  | None => mret tt
  end.

(** git_worktree_add, making sure that [commondir/worktrees] exists. *)
Definition add_worktrees_dir (repo : git_repository) : M string :=
  let gitdir := git_str_joinpath (commondir repo) "worktrees" in
  let! exists_ := query (fun fs => git_fs_path_exists fs gitdir) in
  if negb exists_ then
    (let! _ := status (fun fs => git_futils_mkdir fs gitdir true false) in
     mret gitdir)
  else mret gitdir.

(** git_worktree_add, creating the administrative directory and the working
    directory; the result is [gitdir] and [wddir]. *)
Definition add_create_dirs (private_subdir_tmp worktree : string)
    : M (string * string) :=
  let gitdir := private_subdir_tmp in
  let! _ := status (fun fs => git_futils_mkdir fs gitdir true false) in
  let! gitdir := attempt (fun fs => git_fs_path_prettify_dir fs gitdir) in
  let! _ := status (fun fs => git_futils_mkdir fs worktree true true) in
  let! wddir := attempt (fun fs => git_fs_path_prettify_dir fs worktree) in
  mret (gitdir, wddir).

(** git_worktree_add, the block guarded by [wtopts.lock]. *)
Definition add_lock (gitdir : string) (wtopts : git_worktree_add_options) : M unit :=
  if lock wtopts then
    let buf := git_str_joinpath gitdir "locked" in
    (let! _ := status (fun fs => p_creat fs buf) in
     mret tt)
  else mret tt.

(** worktree.c, write_wtfile. *)
Definition write_wtfile (fs : filesystem) (base file buf : string) : Z * filesystem :=
  let path := git_str_joinpath base file in
  git_futils_writebuffer fs buf path true.

(** git_worktree_add, writing the [.git] file of the working directory and
    the [commondir] and [gitdir] files of the administrative directory.
    The first condition of the second statement stores the outcome of a
    comparison, so a failing git_fs_path_prettify_dir leaves 1 in [err]. *)
Definition add_link_files (repo : git_repository) (gitdir wddir : string) : M unit :=
  let buf := "gitdir: " +:+ gitdir +:+ "
" in
  let! _ := status (fun fs => write_wtfile fs wddir ".git" buf) in
  let! pretty := query (fun fs => git_fs_path_prettify_dir fs (commondir repo)) in
  match pretty with
  | Err _ => mfail 1
  | Ok buf =>
      let buf := buf +:+ "
" in
      let! _ := status (fun fs => write_wtfile fs gitdir "commondir" buf) in
      let buf := git_str_joinpath wddir ".git" +:+ "
" in
      let! _ := status (fun fs => write_wtfile fs gitdir "gitdir" buf) in
      mret tt
  end.

(** git_worktree_add, setting up the reference to check out. *)
Definition add_reference (col : collaborators) (repo : git_repository)
    (name : string) (wtopts : git_worktree_add_options) : M git_reference :=
  match ref wtopts with
  | Some r => mret r
  | None => new_branch col repo name
  end.

(** git_worktree_add, HEAD of the worktree and the checkout. *)
Definition add_checkout (col : collaborators) (gitdir wddir : string)
    (r : git_reference) (coopts : git_checkout_options) : M unit :=
  let! _ := status (git_repository_create_head col gitdir (ref_name r)) in
  let! _ := status (checkout col wddir coopts) in
  mret tt.

(** How a call of git_worktree_add ends: it returns [err] and [*out], its
    behaviour is undefined because sprintf overran [suffixstrbuf], or the
    loop was cut short by the fuel of the model. *)
Inductive add_outcome : Type :=
  | Returned (err : Z) (out : option git_worktree)
  | Undefined
  | OutOfFuel.

(** git_worktree_add from the [.git] file of the working directory to the
    final lookup: the part that populates the new worktree. *)
Definition add_populate (col : collaborators) (found_uninit : Z)
    (repo : git_repository) (name worktree : string)
    (wtopts : git_worktree_add_options) (gitdir wddir : string)
    : M (option git_worktree) :=
  let! _ := add_link_files repo gitdir wddir in
  let! r := add_reference col repo name wtopts in
  let! _ := add_checkout col gitdir wddir r (checkout_options wtopts) in
  let! res := query (fun fs => git_worktree_lookup found_uninit fs repo worktree) in
  if res.1 <? 0 then mfail res.1 else mret res.2.

(** Everything after the name search. *)
Definition add_after_search (col : collaborators) (found_uninit : Z)
    (repo : git_repository) (name worktree : string)
    (wtopts : git_worktree_add_options) (private_subdir_tmp : string)
    : M (option git_worktree) :=
  let! dirs := add_create_dirs private_subdir_tmp worktree in
  let '(gitdir, wddir) := dirs in
  let! _ := add_lock gitdir wtopts in
  add_populate col found_uninit repo name worktree wtopts gitdir wddir.

Definition returned (r : result (option git_worktree)) : add_outcome :=
  match r with
  | Ok out => Returned 0 out
  | Err code => Returned code None
  end.

(** worktree.c, git_worktree_add. *)
Definition git_worktree_add (col : collaborators) (fuel : nat) (found_uninit : Z)
    (fs : filesystem) (repo : git_repository) (name worktree : string)
    (opts : option git_worktree_add_options) : add_outcome * filesystem :=
  if git_error__check_version (option_map add_version opts)
       GIT_WORKTREE_ADD_OPTIONS_VERSION <? 0
  then (Returned (-1) None, fs)
  else
    let wtopts := default GIT_WORKTREE_ADD_OPTIONS_INIT opts in
    match (let! _ := add_check_ref wtopts in add_worktrees_dir repo) fs with
    | (Err code, fs) => (Returned code None, fs)
    | (Ok gitdir, fs) =>
        let private_subdir_name := git_fs_path_basename worktree in
        match private_subdir_loop fuel fs gitdir private_subdir_name 1 with
        | None => (OutOfFuel, fs)
        | Some Overrun => (Undefined, fs)
        | Some (Found _ private_subdir_tmp) =>
            let '(r, fs) :=
              add_after_search col found_uninit repo name worktree wtopts
                private_subdir_tmp fs in
            (returned r, fs)
        end
    end.

(* ===================================================================== *)
(** ** Releasing a worktree *)
(* ===================================================================== *)

(** Heap blocks are named by their address; 0 is NULL.  [live] holds the
    blocks that are allocated, [freed] the non-NULL arguments of the calls
    of git__free in order, and [fault] tells whether some call released a
    block that was not allocated. *)
Record memory : Type := {
  live : gset Z;
  freed : list Z;
  fault : bool
}.

(** Modelled from the spec: git__free of the allocator (defined outside
    worktree.c) releases a block and ignores NULL. *)
Definition git__free (p : Z) (m : memory) : memory :=
  if p =? 0 then m
  else {| live := live m ∖ {[p]};
          freed := freed m ++ [p];
          fault := fault m || negb (bool_decide (p ∈ live m)) |}.

(** A git_worktree in memory: its own address and the pointers it holds. *)
Record git_worktree_block : Type := {
  self : Z;
  name_ptr : Z;
  worktree_path_ptr : Z;
  gitlink_path_ptr : Z;
  gitdir_path_ptr : Z;
  commondir_path_ptr : Z;
  parent_path_ptr : Z
}.

(** worktree.c, git_worktree_free; [None] is the NULL argument. *)
Definition git_worktree_free (wt : option git_worktree_block) (m : memory) : memory :=
  match wt with
  | None => m
  | Some b =>
      let m := git__free (commondir_path_ptr b) m in
      let m := git__free (worktree_path_ptr b) m in
      let m := git__free (gitlink_path_ptr b) m in
      let m := git__free (gitdir_path_ptr b) m in
      let m := git__free (parent_path_ptr b) m in
      let m := git__free (name_ptr b) m in
      git__free (self b) m
  end.

(** The pointers of a block in the order in which git_worktree_free hands
    them to git__free. *)
Definition owned_pointers (b : git_worktree_block) : list Z :=
  [commondir_path_ptr b; worktree_path_ptr b; gitlink_path_ptr b;
   gitdir_path_ptr b; parent_path_ptr b; name_ptr b; self b].

Definition non_null (l : list Z) : list Z :=
  List.filter (fun p => negb (p =? 0)) l.

(* ===================================================================== *)
(** ** Accessors and option initialisers *)
(* ===================================================================== *)

(** worktree.c, git_worktree_name and git_worktree_path; [None] is NULL,
    as an argument and as the value that the argument check returns. *)
Definition git_worktree_name (wt : option git_worktree) : option string :=
  match wt with
  | None => None
  | Some wt => Some (name wt)
  end.

Definition git_worktree_path (wt : option git_worktree) : option string :=
  match wt with
  | None => None
  | Some wt => Some (worktree_path wt)
  end.

(** Modelled from the spec: GIT_INIT_STRUCTURE_FROM_TEMPLATE of common.h
    (defined outside worktree.c): the version that the caller passes is
    checked against the version of the template; a bad version makes the
    enclosing function return -1 ([None] here), otherwise the template is
    copied over the caller's structure. *)
Definition GIT_INIT_STRUCTURE_FROM_TEMPLATE {T : Type} (version_of : T -> Z)
    (version : Z) (tpl : T) : option T :=
  let _tmpl := tpl in
  if git_error__check_version (Some version) (version_of _tmpl) <? 0 then None
  else Some _tmpl.

(** worktree.c, git_worktree_add_options_init: the return value and the
    caller's structure after the call. *)
Definition git_worktree_add_options_init (opts : git_worktree_add_options)
    (version : Z) : Z * git_worktree_add_options :=
  match GIT_INIT_STRUCTURE_FROM_TEMPLATE add_version version
          GIT_WORKTREE_ADD_OPTIONS_INIT with
  | None => (-1, opts)
  | Some opts => (0, opts)
  end.

(** worktree.c, git_worktree_add_init_options, the deprecated name. *)
Definition git_worktree_add_init_options (opts : git_worktree_add_options)
    (version : Z) : Z * git_worktree_add_options :=
  git_worktree_add_options_init opts version.

(** worktree.c, git_worktree_prune_options_init. *)
Definition git_worktree_prune_options_init (opts : git_worktree_prune_options)
    (version : Z) : Z * git_worktree_prune_options :=
  match GIT_INIT_STRUCTURE_FROM_TEMPLATE prune_version version
          GIT_WORKTREE_PRUNE_OPTIONS_INIT with
  | None => (-1, opts)
  | Some opts => (0, opts)
  end.

(** worktree.c, git_worktree_prune_init_options, the deprecated name. *)
Definition git_worktree_prune_init_options (opts : git_worktree_prune_options)
    (version : Z) : Z * git_worktree_prune_options :=
  git_worktree_prune_options_init opts version.

(* ===================================================================== *)
(** ** The worktree of a repository *)
(* ===================================================================== *)

Section OpenFromRepository.

(** What git_worktree_open_from_repository asks of the repository layer,
    which is outside worktree.c and taken as given: whether the repository
    is a worktree, the path of its gitdir, and the real path of the parent
    of its common directory ([git_fs_path_prettify_dir] of ".." against the
    common directory). *)
Variable git_repository_is_worktree : git_repository -> bool.
Variable git_repository_path : git_repository -> string.
Variable prettify_parent : filesystem -> string -> result string.

(** worktree.c, git_worktree_open_from_repository: the return value and
    [*out]. *)
Definition git_worktree_open_from_repository (fs : filesystem)
    (repo : git_repository) : Z * option git_worktree :=
  if negb (git_repository_is_worktree repo) then (-1, None)
  else
    let gitdir := git_repository_path repo in
    let commondir := commondir repo in
    match prettify_parent fs commondir with
    | Err error => (error, None)
    | Ok parent =>
        let name := git_fs_path_basename gitdir in
        let '(error, out) := open_worktree_dir fs (Some parent) gitdir name in
        (error, out)
    end.

End OpenFromRepository.

(* ===================================================================== *)
(** ** The fixture of the worktree tests (tests/libgit2/worktree/worktree_helpers.c) *)
(* ===================================================================== *)

(** Modelled from the spec: worktree_fixture of worktree_helpers.h, which
    worktree_helpers.c only includes: two repository handles (0 is NULL)
    and the names they are opened from. *)
Record worktree_fixture : Type := {
  fixture_repo : Z;
  fixture_worktree : Z;
  reponame : option string;
  worktreename : option string
}.

(** Modelled from the spec: git_repository_free of repository.c (defined
    outside the helpers) releases a repository handle and ignores NULL. *)
Definition git_repository_free (p : Z) (m : memory) : memory := git__free p m.

(** worktree_helpers.c, cleanup_fixture_worktree: the fixture and the heap
    after the call; [None] is the NULL argument. *)
Definition cleanup_fixture_worktree (fixture : option worktree_fixture) (m : memory)
    : option worktree_fixture * memory :=
  match fixture with
  | None => (None, m)
  | Some f =>
      let '(f, m) :=
        if negb (fixture_repo f =? 0) then
          ({| fixture_repo := 0; fixture_worktree := fixture_worktree f;
              reponame := reponame f; worktreename := worktreename f |},
           git_repository_free (fixture_repo f) m)
        else (f, m) in
      let '(f, m) :=
        if negb (fixture_worktree f =? 0) then
          ({| fixture_repo := fixture_repo f; fixture_worktree := 0;
              reponame := reponame f; worktreename := worktreename f |},
           git_repository_free (fixture_worktree f) m)
        else (f, m) in
      (Some f, m)
  end.

(* ===================================================================== *)
(** ** Notions used by the statements *)
(* ===================================================================== *)

(** The [k]-th name that the search of git_worktree_add tries: the base
    name followed by the decimal texts of 1, 2, ..., [k]. *)
Fixpoint candidate (base : string) (k : nat) : string :=
  match k with
  | O => base
  | S k' => candidate base k' +:+ sprintf_d (Z.of_nat k)
  end.

(** What the scan of git_worktree_lookup does with one entry. *)
Inductive entry_verdict : Type :=
  | Skipped            (* not an administrative directory, or another name *)
  | Failed (error : Z) (* the target gitdir could not be resolved *)
  | Matched.           (* same final path segment as the requested name *)

Definition entry_verdict_of (fs : filesystem) (name path : string) : entry_verdict :=
  if is_worktree_private_directory fs path then
    let '(error, worktree_dir) :=
      get_worktree_gitdir_from_private_directory fs "" path in
    if error <? 0 then Failed error
    else if bool_decide (git_fs_path_basename worktree_dir = git_fs_path_basename name)
         then Matched else Skipped
  else Skipped.

(** The entries that the in-place filter of git_worktree_list keeps: an
    entry that is removed makes the loop step over its successor, which is
    kept without having been looked at. *)
Fixpoint list_kept (fs : filesystem) (dir : string) (worktrees : list string)
    : list string :=
  match worktrees with
  | [] => []
  | w :: rest =>
      if is_worktree_private_directory fs (dir +:+ w) then w :: list_kept fs dir rest
      else match rest with
           | [] => []
           | w' :: rest' => w' :: list_kept fs dir rest'
           end
  end.

(** The three options of pruning as predicates on the flags. *)
Definition allow_locked (o : git_worktree_prune_options) : bool :=
  negb (Z.land (prune_flags o) GIT_WORKTREE_PRUNE_LOCKED =? 0).
Definition allow_valid (o : git_worktree_prune_options) : bool :=
  negb (Z.land (prune_flags o) GIT_WORKTREE_PRUNE_VALID =? 0).
Definition remove_working_tree (o : git_worktree_prune_options) : bool :=
  negb (Z.land (prune_flags o) GIT_WORKTREE_PRUNE_WORKING_TREE =? 0).

(** The separator part of a join: [git_str_joinpath a b] is this prefix
    followed by [b] without its leading slashes. *)
Definition join_prefix (a : string) : string :=
  if is_empty a then "" else a +:+ (if ends_with_slash a then "" else "/").

(** A name without a slash that is not empty. *)
Definition plain_name (f : string) : Prop :=
  has_slash f = false /\ is_empty f = false.

(** Membership in the tree rooted at [d]. *)
Definition in_tree (d q : string) : bool := bool_decide (q = d) || under d q.

(** The directory [D] directly contains a regular file named [f]. *)
Definition directly_contains_file (fs : filesystem) (D f : string) : Prop :=
  exists content, fs_stat fs (git_str_joinpath D f) = Some (File content).

(** The calls of git__free that git_worktree_free makes, as a fold. *)
Definition free_all (l : list Z) (m : memory) : memory :=
  fold_left (fun m p => git__free p m) l m.

Fixpoint all_chars (P : ascii -> bool) (s : string) : bool :=
  match s with
  | EmptyString => true
  | String c s' => P c && all_chars P s'
  end.

Fixpoint last_char_is (P : ascii -> bool) (s : string) : bool :=
  match s with
  | EmptyString => false
  | String c EmptyString => P c
  | String _ s' => last_char_is P s'
  end.

(** How the name search of git_worktree_add relates to the registry
    [gitdir]: it ends, and either with the first candidate that does not
    exist, fewer than 128 candidates being taken, or with the overrun of
    the suffix buffer once 128 candidates are taken. *)
Definition search_outcome (fs : filesystem) (gitdir base : string)
    (r : option subdir_search) : Prop :=
  match r with
  | Some (Found nm tmp) =>
      exists k, (k < 128)%nat /\ nm = candidate base k
        /\ tmp = git_str_joinpath gitdir nm
        /\ git_fs_path_exists fs tmp = false
        /\ forall j, (j < k)%nat ->
             git_fs_path_exists fs (git_str_joinpath gitdir (candidate base j)) = true
  | Some Overrun =>
      forall j, (j < 128)%nat ->
        git_fs_path_exists fs (git_str_joinpath gitdir (candidate base j)) = true
  | None => False
  end.

(** The scan of lookup as the specification words it: entries are taken
    in enumeration order; one that is not an administrative directory or
    that resolves to another final path segment is passed over; a failure
    to resolve ends the scan with that error; the first entry with the
    requested final path segment is opened and returned; when the entries
    are exhausted the answer is the failure -1. *)
Fixpoint scan_first_match (fs : filesystem) (repo : git_repository)
    (name dir : string) (worktrees : list string) : Z * option git_worktree :=
  match worktrees with
  | [] => (-1, None)
  | w :: rest =>
      match entry_verdict_of fs name (dir +:+ w) with
      | Skipped => scan_first_match fs repo name dir rest
      | Failed error => (error, None)
      | Matched =>
          let '(error, out) :=
            open_worktree_dir fs (git_repository_workdir repo) (dir +:+ w) name in
          if error <? 0 then (error, None) else (0, out)
      end
  end.

(** A step of a collaborator leaves every file named [locked] as it is. *)
Definition keeps_markers (f : filesystem -> filesystem) : Prop :=
  forall fs k, last_segment k = "locked" -> fs_find k (f fs) = fs_find k fs.

Definition respects_markers (col : collaborators) : Prop :=
  (forall repo name, keeps_markers (fun fs => (new_branch col repo name fs).2))
  /\ (forall gitdir refname,
        keeps_markers (fun fs => (git_repository_create_head col gitdir refname fs).2))
  /\ (forall wddir coopts, keeps_markers (fun fs => (checkout col wddir coopts fs).2)).

(** A computation leaves whatever is stored under the key [k] alone,
    however it ends. *)
Definition preserves {A : Type} (k : string) (m : M A) : Prop :=
  forall fs r fs', m fs = (r, fs') -> fs_find k fs' = fs_find k fs.

(** The normal form of an absolute path: a slash followed by its own
    segments joined again (so no slash is repeated), none of which is "."
    or "..". *)
Definition normalized_absolute (r : string) : Prop :=
  exists sgs, r = "/" +:+ concat_strings (map piece sgs)
              /\ segments r = sgs
              /\ Forall (fun sg => sg.1 <> "." /\ sg.1 <> "..") sgs.

(** Segments as the splitting of a path produces them: names without a
    slash that are not empty, each but the last followed by a slash. *)
Fixpoint segs_wf (l : list (string * bool)) : Prop :=
  match l with
  | [] => True
  | sg :: l' =>
      has_slash sg.1 = false /\ is_empty sg.1 = false
      /\ (l' <> [] -> sg.2 = true) /\ segs_wf l'
  end.

(** A segment that the resolution keeps. *)
Definition kept_segment (sg : string * bool) : Prop :=
  has_slash sg.1 = false /\ is_empty sg.1 = false /\ sg.1 <> "." /\ sg.1 <> "..".

(** The kept segments, most recent first: all but the most recent one are
    followed by a slash. *)
Definition kept_wf (out : list (string * bool)) : Prop :=
  Forall kept_segment out
  /\ match out with
     | [] => True
     | _ :: older => Forall (fun sg => sg.2 = true) older
     end.

(** A step that removes no path: what exists before it exists after it. *)
Definition keeps_paths (f : filesystem -> filesystem) : Prop :=
  forall fs p, git_fs_path_exists fs p = true -> git_fs_path_exists (f fs) p = true.

Definition never_remove (col : collaborators) : Prop :=
  (forall repo name, keeps_paths (fun fs => (new_branch col repo name fs).2))
  /\ (forall gitdir refname,
        keeps_paths (fun fs => (git_repository_create_head col gitdir refname fs).2))
  /\ (forall wddir coopts, keeps_paths (fun fs => (checkout col wddir coopts fs).2)).

(** A computation removes no path, however it ends. *)
Definition grows {A : Type} (m : M A) : Prop :=
  keeps_paths (fun fs => (m fs).2).

(** The handle [wt] under another name. *)
Definition set_name (n : string) (wt : git_worktree) : git_worktree :=
  {| name := n; worktree_path := worktree_path wt;
     gitlink_path := gitlink_path wt; gitdir_path := gitdir_path wt;
     commondir_path := commondir_path wt; parent_path := parent_path wt;
     locked := locked wt |}.

(* ===================================================================== *)
(** ** Concrete scenarios *)
(* ===================================================================== *)

Definition repo_r : git_repository :=
  {| commondir := "/r/.git/"; workdir := "/r/"; is_bare := false |}.

(** A repository without a [worktrees] directory. *)
Definition fs_plain : filesystem :=
  [ ("/", Dir); ("/r", Dir); ("/r/.git", Dir) ].

Definition admin_dir (name target : string) : filesystem :=
  [ ("/r/.git/worktrees/" +:+ name, Dir);
    ("/r/.git/worktrees/" +:+ name +:+ "/commondir", File "../..
");
    ("/r/.git/worktrees/" +:+ name +:+ "/gitdir", File (target +:+ "/.git
"));
    ("/r/.git/worktrees/" +:+ name +:+ "/HEAD", File "ref: refs/heads/main
") ].

(** One worktree "a" with working directory /w/a. *)
Definition fs_one : filesystem :=
  fs_plain ++ [ ("/r/.git/worktrees", Dir) ] ++ admin_dir "a" "/w/a"
  ++ [ ("/w", Dir); ("/w/a", Dir); ("/w/a/.git", File "gitdir: /r/.git/worktrees/a/
") ].

(** Two entries that are not administrative directories, enumerated before
    a good one. *)
Definition fs_stale : filesystem :=
  fs_plain ++ [ ("/r/.git/worktrees", Dir);
                ("/r/.git/worktrees/x", Dir); ("/r/.git/worktrees/y", Dir) ]
  ++ admin_dir "a" "/w/a".

(** The names wt, wt1, wt2, ..., wt255 all taken. *)
Definition fs_crowded : filesystem :=
  fs_plain ++ [ ("/r/.git/worktrees", Dir); ("/r/.git/worktrees/wt", Dir) ]
  ++ map (fun k => ("/r/.git/worktrees/wt" +:+ sprintf_d (Z.of_nat k), Dir))
         (seq 1 255).

(** Collaborators that succeed: the new branch is named after [name], HEAD
    is written into the administrative directory, the checkout leaves the
    file system alone. *)
Definition quiet_collaborators : collaborators :=
  {| new_branch := fun repo name fs =>
       (Ok {| ref_name := "refs/heads/" +:+ name; ref_is_branch := true;
              ref_checked_out := false |}, fs);
     git_repository_create_head := fun gitdir refname fs =>
       git_futils_writebuffer fs ("ref: " +:+ refname +:+ "
") (git_str_joinpath gitdir "HEAD") false;
     checkout := fun _ _ fs => (0, fs) |}.

Definition lock_options : git_worktree_add_options :=
  {| add_version := 1; lock := true; ref := None;
     checkout_options := GIT_CHECKOUT_OPTIONS_INIT |}.

Definition wt_a : git_worktree :=
  {| name := "a"; worktree_path := "/w/a"; gitlink_path := "/w/a/.git";
     gitdir_path := "/r/.git/worktrees/a/"; commondir_path := "/r/.git/";
     parent_path := Some "/r/"; locked := false |}.

(** A worktree "a" that carries a lock without a reason. *)
Definition fs_locked : filesystem :=
  fs_one ++ [ ("/r/.git/worktrees/a/locked", File "") ].

Definition block_1_7 : git_worktree_block :=
  {| self := 7; name_ptr := 6; worktree_path_ptr := 2; gitlink_path_ptr := 3;
     gitdir_path_ptr := 4; commondir_path_ptr := 1; parent_path_ptr := 0 |}.

Definition memory_1_7 : memory :=
  {| live := list_to_set [1; 2; 3; 4; 6; 7; 9]; freed := []; fault := false |}.

(** Adding a locked worktree for /w/b to the plain repository, and for
    /v/a to the repository that already has the worktree /w/a. *)
Definition added_b : add_outcome * filesystem :=
  git_worktree_add quiet_collaborators 128 0 fs_plain repo_r "feature" "/w/b"
    (Some lock_options).

Definition added_a : add_outcome * filesystem :=
  git_worktree_add quiet_collaborators 128 0 fs_one repo_r "feature" "/v/a"
    (Some lock_options).

(** The worktree "a" with a directory where its lock marker would be. *)
Definition fs_marker_dir : filesystem :=
  fs_one ++ [ ("/r/.git/worktrees/a/locked", Dir) ].

(** The directories of a worktree "b" for /w/b, before any file is
    written. *)
Definition fs_dirs_b : filesystem :=
  fs_plain ++ [ ("/r/.git/worktrees", Dir); ("/r/.git/worktrees/b", Dir);
                ("/w", Dir); ("/w/b", Dir) ].

(** Prune options that let a valid worktree go, and options with all three
    flags set. *)
Definition options_allow_valid : git_worktree_prune_options :=
  {| prune_version := 1; prune_flags := GIT_WORKTREE_PRUNE_VALID |}.

Definition options_allow_all : git_worktree_prune_options :=
  {| prune_version := 1; prune_flags := 7 |}.

(* ===================================================================== *)
(** * Properties *)
(* ===================================================================== *)

(** ** The helper models on small inputs *)

Example joinpath_adds_one_separator :
  git_str_joinpath "/r/.git" "worktrees/" = "/r/.git/worktrees/"
  /\ git_str_joinpath "/r/.git/" "/worktrees" = "/r/.git/worktrees"
  /\ git_str_joinpath "" "/x" = "/x".
Proof. repeat split. Qed.

Example join3_drops_leading_slashes :
  git_str_join3 "/r/.git/" "worktrees" "/tmp/wt" = "/r/.git/worktrees/tmp/wt".
Proof. reflexivity. Qed.

Example basename_ignores_trailing_slashes :
  git_fs_path_basename "/w/a/" = "a" /\ git_fs_path_basename "/w/a/.git" = ".git"
  /\ git_fs_path_basename "" = "." /\ git_fs_path_basename "//" = "/".
Proof. repeat split. Qed.

Example dirname_of_gitlink :
  git_fs_path_dirname "/w/a/.git" = "/w/a" /\ git_fs_path_dirname "/w" = "/"
  /\ git_fs_path_dirname "w" = ".".
Proof. repeat split. Qed.

Example apply_relative_resolves :
  git_fs_path_apply_relative "/w/a/.git" ".." = Some "/w/a/"
  /\ git_fs_path_apply_relative "/r/.git/worktrees/a" "../.." = Some "/r/.git/"
  /\ git_fs_path_apply_relative "/" ".." = None
  /\ git_fs_path_apply_relative "r" "../../x/./y//z" = Some "../x/y/z".
Proof. repeat split. Qed.

Example sprintf_and_int8 :
  sprintf_d 12 = "12" /\ sprintf_d (-128) = "-128"
  /\ int8_wrap 127 = 127 /\ int8_wrap 128 = -128.
Proof. repeat split. Qed.

Example candidates_accumulate :
  candidate "wt" 0 = "wt" /\ candidate "wt" 1 = "wt1" /\ candidate "wt" 3 = "wt123".
Proof. repeat split. Qed.

Example registry_of_fs_one :
  git_fs_path_dirload fs_one "/r/.git/worktrees/" = Ok ["a"]
  /\ git_worktree_list fs_one repo_r = (0, ["a"])
  /\ git_worktree_lookup 0 fs_one repo_r "a" = (0, Some wt_a)
  /\ git_worktree_lookup 0 fs_one repo_r "b" = (-1, None)
  /\ git_worktree_validate fs_one wt_a = (0, None).
Proof. repeat split. Qed.

(** ** Strings *)

Lemma append_cons (c : ascii) (s t : string) : String c s +:+ t = String c (s +:+ t).
Proof. reflexivity. Qed.

Lemma append_nil (t : string) : "" +:+ t = t.
Proof. reflexivity. Qed.

Lemma is_empty_true (s : string) : is_empty s = true <-> s = "".
Proof. destruct s; simpl; split; congruence. Qed.

Lemma is_empty_append (s t : string) : is_empty t = false -> is_empty (s +:+ t) = false.
Proof. destruct s; [rewrite append_nil | rewrite append_cons]; auto. Qed.

(** A suffix that survives the stripping protects everything before it. *)
Lemma rstrip_append (P : ascii -> bool) (x f : string) :
  rstrip P f = f -> is_empty f = false -> rstrip P (x +:+ f) = x +:+ f.
Proof.
  intros Hf Hne. induction x as [|c x IH].
  - now rewrite append_nil.
  - rewrite append_cons. simpl. rewrite IH.
    now rewrite (is_empty_append x f Hne).
Qed.

Lemma last_segment_no_slash (f : string) : has_slash f = false -> last_segment f = f.
Proof. destruct f; simpl; [reflexivity|]. now intros ->. Qed.

Lemma has_slash_append (x f : string) :
  has_slash (x +:+ f) = has_slash x || has_slash f.
Proof.
  induction x as [|c x IH]; [reflexivity|].
  rewrite append_cons. simpl. rewrite IH. now rewrite orb_assoc.
Qed.

Lemma ends_with_slash_has_slash (x : string) :
  ends_with_slash x = true -> has_slash x = true.
Proof.
  induction x as [|c x IH]; simpl; [discriminate|].
  destruct x as [|d x].
  - intros ->. reflexivity.
  - intros H. rewrite (IH H). apply orb_true_r.
Qed.

(** After a prefix that is empty or ends in a slash, the last segment of a
    slash-free name is the name. *)
Lemma last_segment_append (x f : string) :
  has_slash f = false -> (x = "" \/ ends_with_slash x = true) ->
  last_segment (x +:+ f) = f.
Proof.
  intros Hf. induction x as [|c x IH]; intros Hx.
  - rewrite append_nil. now apply last_segment_no_slash.
  - destruct Hx as [Hx|Hx]; [discriminate|].
    rewrite append_cons.
    change (last_segment (String c (x +:+ f)))
      with (if has_slash (String c (x +:+ f)) then last_segment (x +:+ f)
            else String c (x +:+ f)).
    assert (Hs : has_slash (String c (x +:+ f)) = true).
    { rewrite <- append_cons, has_slash_append.
      now rewrite (ends_with_slash_has_slash _ Hx). }
    rewrite Hs. apply IH.
    destruct x as [|d x]; [now left|right]. exact Hx.
Qed.

Lemma ends_with_slash_append (x : string) : ends_with_slash (x +:+ "/") = true.
Proof.
  induction x as [|c x IH]; [reflexivity|].
  rewrite append_cons.
  change (ends_with_slash (String c (x +:+ "/")))
    with (match x +:+ "/" with
          | EmptyString => is_slash c
          | String _ _ => ends_with_slash (x +:+ "/")
          end).
  rewrite IH. now destruct x.
Qed.

Lemma join_prefix_shape (a : string) :
  join_prefix a = "" \/ ends_with_slash (join_prefix a) = true.
Proof.
  unfold join_prefix. destruct (is_empty a) eqn:Ha; [now left|right].
  destruct (ends_with_slash a) eqn:He.
  - assert (Hid : forall s, s +:+ "" = s).
    { intros s. induction s as [|c s IH]; [reflexivity|].
      rewrite append_cons. now rewrite IH. }
    now rewrite Hid.
  - apply ends_with_slash_append.
Qed.

Lemma append_assoc (s t u : string) : (s +:+ t) +:+ u = s +:+ (t +:+ u).
Proof.
  induction s as [|c s IH]; [reflexivity|].
  rewrite !append_cons. now rewrite IH.
Qed.

Lemma skip_slashes_plain (f : string) : has_slash f = false -> skip_slashes f = f.
Proof. destruct f; simpl; [reflexivity|]. intros H. apply orb_false_elim in H as [-> _]. reflexivity. Qed.

Lemma joinpath_shape (a f : string) :
  plain_name f -> git_str_joinpath a f = join_prefix a +:+ f.
Proof.
  intros [Hs _]. unfold git_str_joinpath, join_prefix.
  destruct (is_empty a); [reflexivity|].
  rewrite (skip_slashes_plain f Hs). now rewrite append_assoc.
Qed.

Lemma rstrip_plain (f : string) : has_slash f = false -> rstrip is_slash f = f.
Proof.
  induction f as [|c f IH]; [reflexivity|].
  simpl. intros H. apply orb_false_elim in H as [Hc Hf].
  rewrite (IH Hf), Hc. now rewrite andb_false_r.
Qed.

(** Joining a plain name gives a path that is its own key and whose last
    segment is the name. *)
Lemma fs_key_joinpath (a f : string) :
  plain_name f -> fs_key (git_str_joinpath a f) = git_str_joinpath a f.
Proof.
  intros Hf. rewrite (joinpath_shape a f Hf). destruct Hf as [Hs Hne].
  unfold fs_key. rewrite (rstrip_append is_slash _ f (rstrip_plain f Hs) Hne).
  now rewrite (is_empty_append _ f Hne).
Qed.

Lemma last_segment_joinpath (a f : string) :
  plain_name f -> last_segment (git_str_joinpath a f) = f.
Proof.
  intros Hf. rewrite (joinpath_shape a f Hf).
  apply last_segment_append; [apply Hf | apply join_prefix_shape].
Qed.

Lemma joinpath_key_ne (a b f g : string) :
  plain_name f -> plain_name g -> f <> g ->
  fs_key (git_str_joinpath a f) <> fs_key (git_str_joinpath b g).
Proof.
  intros Hf Hg Hne Heq. rewrite !fs_key_joinpath in Heq by assumption.
  apply Hne. rewrite <- (last_segment_joinpath a f Hf), <- (last_segment_joinpath b g Hg).
  now rewrite Heq.
Qed.

(** ** The file system *)

Lemma fs_find_remove_eq (k : string) (fs : filesystem) : fs_find k (fs_remove k fs) = None.
Proof.
  induction fs as [|[k' n] fs IH]; [reflexivity|].
  unfold fs_remove in *. simpl. destruct (bool_decide (k' = k)) eqn:E; simpl; [exact IH|].
  now rewrite E.
Qed.

Lemma fs_find_insert_eq (k : string) (n : node) (fs : filesystem) :
  fs_find k (fs_insert k n fs) = Some n.
Proof.
  induction fs as [|[k' n'] fs IH]; simpl.
  - now rewrite bool_decide_eq_true_2.
  - destruct (bool_decide (k' = k)) eqn:E; simpl.
    + now rewrite bool_decide_eq_true_2.
    + now rewrite E.
Qed.

Lemma fs_find_insert_ne (k k' : string) (n : node) (fs : filesystem) :
  k <> k' -> fs_find k (fs_insert k' n fs) = fs_find k fs.
Proof.
  intros Hne. induction fs as [|[k0 n0] fs IH]; simpl.
  - rewrite bool_decide_eq_false_2; [reflexivity|congruence].
  - destruct (bool_decide (k0 = k')) eqn:E; simpl.
    + apply bool_decide_eq_true_1 in E. subst k0.
      rewrite !bool_decide_eq_false_2 by congruence. reflexivity.
    + now rewrite IH.
Qed.

Lemma fs_find_remove_tree (d q : string) (fs : filesystem) :
  fs_find q (fs_remove_tree d fs) = if in_tree d q then None else fs_find q fs.
Proof.
  induction fs as [|[k n] fs IH]; simpl.
  - now destruct (in_tree d q).
  - unfold fs_remove_tree in *. simpl.
    destruct (bool_decide (k = q)) eqn:E.
    + apply bool_decide_eq_true_1 in E. subst k.
      fold (in_tree d q). destruct (in_tree d q) eqn:T; simpl.
      * rewrite IH. reflexivity.
      * now rewrite bool_decide_eq_true_2.
    + destruct (negb (bool_decide (k = d) || under d k)); simpl.
      * rewrite E. exact IH.
      * exact IH.
Qed.

(** ** The validator *)

Lemma contains_file_iff (fs : filesystem) (D f : string) :
  git_fs_path_contains_file fs D f = true <-> directly_contains_file fs D f.
Proof.
  unfold git_fs_path_contains_file, git_fs_path_isfile, directly_contains_file.
  destruct (fs_stat fs (git_str_joinpath D f)) as [[c|]|]; split;
    try discriminate; try (intros [c' H]; discriminate).
  - intros _. now exists c.
  - reflexivity.
Qed.

Lemma contains_file_unlink (fs : filesystem) (D f : string) :
  git_fs_path_contains_file (p_unlink fs (git_str_joinpath D f)).2 D f = false.
Proof.
  unfold git_fs_path_contains_file, git_fs_path_isfile, p_unlink, fs_stat.
  destruct (fs_find (fs_key (git_str_joinpath D f)) fs) as [[c|]|] eqn:E; simpl.
  - now rewrite fs_find_remove_eq.
  - now rewrite E.
  - now rewrite E.
Qed.

(** C1.  A directory passes the private-directory validator exactly when
    it directly contains the three regular files commondir, gitdir and
    HEAD; after unlinking any one of the three it does not pass. *)
Theorem validator_iff_three_files (fs : filesystem) (D : string) :
  (is_worktree_private_directory fs D = true <->
     directly_contains_file fs D "commondir"
     /\ directly_contains_file fs D "gitdir"
     /\ directly_contains_file fs D "HEAD")
  /\ is_worktree_private_directory (p_unlink fs (git_str_joinpath D "commondir")).2 D = false
  /\ is_worktree_private_directory (p_unlink fs (git_str_joinpath D "gitdir")).2 D = false
  /\ is_worktree_private_directory (p_unlink fs (git_str_joinpath D "HEAD")).2 D = false.
Proof.
  unfold is_worktree_private_directory.
  split; [split|split; [|split]].
  - intros H. apply andb_prop in H as [H0 H3]. apply andb_prop in H0 as [H1 H2].
    rewrite !contains_file_iff in *. auto.
  - intros (H1 & H2 & H3). apply contains_file_iff in H1, H2, H3.
    now rewrite H1, H2, H3.
  - now rewrite contains_file_unlink.
  - rewrite contains_file_unlink. now rewrite andb_false_r.
  - rewrite contains_file_unlink. now rewrite andb_false_r.
Qed.

(** ** Locks *)

Lemma is_locked_without_reason (fs : filesystem) (wt : git_worktree) :
  git_worktree_is_locked fs None wt
  = (Z.b2z (git_fs_path_exists fs (git_str_joinpath (gitdir_path wt) "locked")), None).
Proof. reflexivity. Qed.

(** C6.  Locking a worktree whose [locked] marker exists fails with
    GIT_ELOCKED and leaves the file system and the worktree value as they
    were; unlocking a worktree without the marker returns 1, which is
    neither success (0) nor an error (negative), and changes nothing. *)
Theorem lock_unlock_boundary (fs : filesystem) (wt : git_worktree)
    (reason : option string) :
  (git_fs_path_exists fs (git_str_joinpath (gitdir_path wt) "locked") = true ->
   git_worktree_lock fs wt reason = (GIT_ELOCKED, wt, fs) /\ GIT_ELOCKED < 0)
  /\
  (git_fs_path_exists fs (git_str_joinpath (gitdir_path wt) "locked") = false ->
   git_worktree_unlock fs wt = (1, wt, fs)).
Proof.
  split; intros H.
  - unfold git_worktree_lock. rewrite is_locked_without_reason, H. simpl.
    split; [reflexivity | unfold GIT_ELOCKED; lia].
  - unfold git_worktree_unlock. rewrite is_locked_without_reason, H. reflexivity.
Qed.

Lemma lock_unlock_boundary_witness :
  git_worktree_lock fs_locked wt_a (Some "busy") = (GIT_ELOCKED, wt_a, fs_locked)
  /\ git_worktree_unlock fs_one wt_a = (1, wt_a, fs_one).
Proof.
  split.
  - apply (proj1 (lock_unlock_boundary fs_locked wt_a (Some "busy"))). reflexivity.
  - apply (proj2 (lock_unlock_boundary fs_one wt_a None)). reflexivity.
Defined.

(** ** Releasing a worktree *)

Lemma git_worktree_free_fold (b : git_worktree_block) (m : memory) :
  git_worktree_free (Some b) m = free_all (owned_pointers b) m.
Proof. reflexivity. Qed.

Lemma free_all_freed (l : list Z) (m : memory) :
  freed (free_all l m) = freed m ++ non_null l.
Proof.
  revert m. induction l as [|p l IH]; intros m; simpl.
  - now rewrite app_nil_r.
  - unfold free_all in *. simpl. rewrite IH. unfold git__free.
    destruct (p =? 0); simpl; [reflexivity|]. now rewrite <- app_assoc.
Qed.

Lemma free_all_safe (l : list Z) (m : memory) :
  NoDup (non_null l) -> (forall p, In p (non_null l) -> p ∈ live m) ->
  fault m = false ->
  fault (free_all l m) = false
  /\ live (free_all l m) = live m ∖ list_to_set (non_null l).
Proof.
  revert m. induction l as [|p l IH]; intros m Hnd Hlive Hf; simpl.
  - split; [exact Hf|]. set_solver.
  - unfold free_all in *. simpl in *. unfold git__free at 2 4.
    destruct (p =? 0) eqn:Hp; simpl in *.
    + apply IH; assumption.
    + apply NoDup_cons_1_1 in Hnd as Hnotin. apply NoDup_cons_1_2 in Hnd as Hnd'.
      destruct (IH {| live := live m ∖ {[p]}; freed := freed m ++ [p];
                      fault := fault m || negb (bool_decide (p ∈ live m)) |})
        as [IH1 IH2]; simpl.
      * exact Hnd'.
      * intros q Hq. apply elem_of_difference. split; [apply Hlive; now right|].
        intros Hqp%elem_of_singleton. subst q. apply Hnotin.
        now apply list_elem_of_In.
      * rewrite Hf. simpl. rewrite bool_decide_eq_true_2; [reflexivity|].
        apply Hlive. now left.
      * split; [exact IH1|]. rewrite IH2. simpl. set_solver.
Qed.

(** C10.  git_worktree_free does nothing for a NULL argument; otherwise it
    hands each pointer of the structure, and the structure itself, to
    git__free exactly once, so that with distinct allocated blocks every
    one of them is released and none is released twice. *)
Theorem worktree_free_spec (m : memory) :
  git_worktree_free None m = m
  /\ forall b : git_worktree_block,
       freed (git_worktree_free (Some b) m) = freed m ++ non_null (owned_pointers b)
       /\ (NoDup (non_null (owned_pointers b)) ->
           (forall p, In p (non_null (owned_pointers b)) -> p ∈ live m) ->
           fault m = false ->
           fault (git_worktree_free (Some b) m) = false
           /\ live (git_worktree_free (Some b) m)
              = live m ∖ list_to_set (non_null (owned_pointers b))).
Proof.
  split; [reflexivity|]. intros b. rewrite git_worktree_free_fold. split.
  - apply free_all_freed.
  - apply free_all_safe.
Qed.

Lemma worktree_free_spec_witness :
  fault (git_worktree_free (Some block_1_7) memory_1_7) = false
  /\ live (git_worktree_free (Some block_1_7) memory_1_7)
     = live memory_1_7 ∖ list_to_set (non_null (owned_pointers block_1_7)).
Proof.
  apply (proj2 (proj2 (worktree_free_spec memory_1_7) block_1_7)).
  - apply (bool_decide_unpack _). vm_compute. exact I.
  - intros p Hp. apply (bool_decide_unpack _).
    simpl in Hp. repeat (destruct Hp as [<-|Hp]; [vm_compute; exact I|]).
    destruct Hp.
  - reflexivity.
Defined.

(** ** Prune policy *)

Lemma is_locked_with_reason_file (fs : filesystem) (wt : git_worktree) (r b : string) :
  fs_stat fs (git_str_joinpath (gitdir_path wt) "locked") = Some (File r) ->
  git_worktree__is_locked fs (Some b) wt = (1, Some r).
Proof.
  intros H. unfold git_worktree__is_locked, git_fs_path_exists, git_futils_readbuffer.
  simpl. now rewrite H.
Qed.

Lemma is_locked_with_reason_absent (fs : filesystem) (wt : git_worktree) (b : string) :
  fs_stat fs (git_str_joinpath (gitdir_path wt) "locked") = None ->
  git_worktree__is_locked fs (Some b) wt = (0, Some "").
Proof.
  intros H. unfold git_worktree__is_locked, git_fs_path_exists. simpl. now rewrite H.
Qed.

Lemma is_locked_with_reason_dir (fs : filesystem) (wt : git_worktree) (b : string) :
  fs_stat fs (git_str_joinpath (gitdir_path wt) "locked") = Some Dir ->
  git_worktree__is_locked fs (Some b) wt = (GIT_ENOTFOUND, Some "").
Proof.
  intros H. unfold git_worktree__is_locked, git_fs_path_exists, git_futils_readbuffer.
  simpl. now rewrite H.
Qed.

(** The first guard, by what is stored at the marker path. *)
Lemma prunable_lock_guard_cases (fs : filesystem) (wt : git_worktree)
    (o : git_worktree_prune_options) :
  prunable_lock_guard fs wt o =
    if allow_locked o then None
    else match fs_stat fs (git_str_joinpath (gitdir_path wt) "locked") with
         | Some (File r) =>
             Some (0, Some ("not pruning locked working tree: '"
                            +:+ (if is_empty r then "no reason given" else r)
                            +:+ "'"))
         | Some Dir => Some (GIT_ENOTFOUND, None)
         | None => None
         end.
Proof.
  unfold prunable_lock_guard, allow_locked.
  destruct (Z.land (prune_flags o) GIT_WORKTREE_PRUNE_LOCKED =? 0); [|reflexivity].
  cbv [negb].
  destruct (fs_stat fs (git_str_joinpath (gitdir_path wt) "locked")) as [[r|]|] eqn:E.
  - now rewrite (is_locked_with_reason_file fs wt r "" E).
  - now rewrite (is_locked_with_reason_dir fs wt "" E).
  - now rewrite (is_locked_with_reason_absent fs wt "" E).
Qed.



(** ** Link files *)

Lemma rstrip_spec (P : ascii -> bool) (s : string) :
  exists ws, s = rstrip P s +:+ ws /\ all_chars P ws = true
             /\ last_char_is P (rstrip P s) = false.
Proof.
  induction s as [|c s (ws & Heq & Hall & Hlast)].
  - exists "". repeat split.
  - simpl. destruct (is_empty (rstrip P s)) eqn:He; simpl.
    + apply is_empty_true in He. rewrite He in *. rewrite append_nil in Heq.
      destruct (P c) eqn:Hc.
      * exists (String c s). rewrite append_nil. repeat split.
        simpl. rewrite Hc. simpl. now rewrite Heq.
      * exists ws. rewrite append_cons, append_nil. repeat split; auto.
        now rewrite <- Heq.
    + exists ws. rewrite append_cons. repeat split; auto.
      * now rewrite <- Heq.
      * simpl. destruct (rstrip P s); [discriminate|exact Hlast].
Qed.

Lemma append_empty_r (s : string) : s +:+ "" = s.
Proof. induction s as [|c s IH]; [reflexivity|]. now rewrite append_cons, IH. Qed.

Lemma has_slash_snoc (cur : string) (c : ascii) :
  has_slash cur = false -> is_slash c = false ->
  has_slash (cur +:+ String c "") = false.
Proof.
  intros Hc Hs. rewrite has_slash_append, Hc. simpl. now rewrite Hs.
Qed.

Lemma segments_from_wf (s : string) :
  forall cur, has_slash cur = false -> segs_wf (segments_from cur s).
Proof.
  induction s as [|c s IH]; intros cur Hcur; simpl.
  - destruct (is_empty cur) eqn:E; simpl; [exact I|].
    split; [exact Hcur|]. split; [exact E|]. split; [|exact I].
    intros H. now destruct H.
  - destruct (is_slash c) eqn:Hc.
    + destruct (is_empty cur) eqn:E; simpl; [now apply IH|].
      split; [exact Hcur|]. split; [exact E|]. split; [reflexivity|now apply IH].
    + apply IH. now apply has_slash_snoc.
Qed.

(** Splitting what is left of a path after a name and a slash. *)
Lemma segments_from_name_slash (n : string) :
  forall cur s, has_slash n = false ->
    segments_from cur (n +:+ String "/" s)
    = if is_empty (cur +:+ n) then segments_from "" s
      else (cur +:+ n, true) :: segments_from "" s.
Proof.
  induction n as [|c n IH]; intros cur s Hn.
  - rewrite append_nil, append_empty_r. reflexivity.
  - simpl in Hn. apply orb_false_elim in Hn as [Hc Hn].
    rewrite append_cons. simpl. rewrite Hc. rewrite (IH _ _ Hn).
    rewrite append_assoc. reflexivity.
Qed.

Lemma segments_from_name (n : string) :
  forall cur, has_slash n = false ->
    segments_from cur n
    = if is_empty (cur +:+ n) then [] else [(cur +:+ n, false)].
Proof.
  induction n as [|c n IH]; intros cur Hn.
  - rewrite append_empty_r. reflexivity.
  - simpl in Hn. apply orb_false_elim in Hn as [Hc Hn].
    simpl. rewrite Hc. rewrite (IH _ Hn). rewrite append_assoc. reflexivity.
Qed.

(** Joining well-formed segments and splitting the result gives the
    segments back. *)
Lemma segments_concat_pieces (l : list (string * bool)) :
  segs_wf l -> segments (concat_strings (map piece l)) = l.
Proof.
  unfold segments. induction l as [|[n b] l IH]; [reflexivity|].
  intros (Hs & Hne & Hflag & Hwf). simpl in Hs, Hne, Hflag.
  cbn [map concat_strings]. unfold piece at 1. cbn [fst snd].
  destruct l as [|sg l].
  - cbn [map concat_strings]. rewrite append_empty_r. destruct b.
    + rewrite (segments_from_name_slash n "" "" Hs). rewrite append_nil, Hne.
      reflexivity.
    + rewrite (segments_from_name n "" Hs). rewrite append_nil, Hne. reflexivity.
  - rewrite (Hflag ltac:(discriminate)). rewrite append_assoc.
    change ("/" +:+ ?x) with (String "/" x).
    rewrite (segments_from_name_slash n "" _ Hs). rewrite append_nil, Hne.
    now rewrite (IH Hwf).
Qed.

Lemma segs_wf_snoc (l : list (string * bool)) (sg : string * bool) :
  Forall kept_segment l -> Forall (fun x => x.2 = true) l -> kept_segment sg ->
  segs_wf (l ++ [sg]).
Proof.
  intros Hk Hf (Hs & Hne & _). induction l as [|x l IH]; simpl.
  - split; [exact Hs|]. split; [exact Hne|]. split; [|exact I].
    intros H. now destruct H.
  - apply Forall_cons_1 in Hk as [(Hxs & Hxne & _) Hk].
    apply Forall_cons_1 in Hf as [Hxf Hf].
    split; [exact Hxs|]. split; [exact Hxne|]. split; [intros _; exact Hxf|].
    now apply IH.
Qed.

Lemma kept_wf_forward (out : list (string * bool)) :
  kept_wf out -> segs_wf (rev out) /\ Forall kept_segment (rev out).
Proof.
  intros [Hk Hf]. split; [|now apply Forall_rev].
  destruct out as [|sg older]; [exact I|]. simpl.
  apply Forall_cons_1 in Hk as [Hsg Hk].
  apply segs_wf_snoc; auto using Forall_rev.
Qed.

(** The resolution of an absolute path keeps well-formed segments. *)
Lemma resolve_segments_kept (sgs : list (string * bool)) :
  forall out l,
    segs_wf sgs -> Forall kept_segment out -> Forall (fun x => x.2 = true) out ->
    resolve_segments true sgs [] (map piece out) = Some l ->
    exists o, l = map piece (rev o) /\ kept_wf o.
Proof.
  induction sgs as [|[n b] sgs IH]; intros out l Hwf Hk Hf; simpl.
  - intros [= <-]. exists out. rewrite map_rev. split; [reflexivity|].
    split; [exact Hk|]. destruct out; [exact I|]. now apply Forall_cons_1 in Hf as [_ Hf].
  - destruct Hwf as (Hs & Hne & Hflag & Hwf). simpl in Hs, Hne, Hflag.
    destruct (bool_decide (n = ".")) eqn:Hdot; [now apply IH|].
    destruct (bool_decide (n = "..")) eqn:Hdd.
    + destruct out as [|x out]; simpl; [discriminate|].
      apply Forall_cons_1 in Hk as [_ Hk]. apply Forall_cons_1 in Hf as [_ Hf].
      now apply IH.
    + apply bool_decide_eq_false_1 in Hdot, Hdd.
      assert (Hkept : kept_segment (n, b)) by (repeat split; assumption).
      change (piece (n, b) :: map piece out) with (map piece ((n, b) :: out)).
      destruct sgs as [|sg sgs].
      * simpl. intros [= <-]. exists ((n, b) :: out). split.
        -- cbn [rev]. rewrite map_app, map_rev. reflexivity.
        -- split; [now constructor|exact Hf].
      * apply IH; [exact Hwf|now constructor|].
        constructor; [|exact Hf]. simpl. apply Hflag. discriminate.
Qed.

(** An absolute path resolves to a normal form. *)
Lemma resolve_relative_normalized (p r : string) :
  git_fs_path_is_relative p = false ->
  git_fs_path_resolve_relative p = Some r ->
  normalized_absolute r.
Proof.
  destruct p as [|c p]; simpl; [discriminate|].
  intros Hc. apply negb_false_iff in Hc. rewrite Hc.
  apply bool_decide_eq_true_1 in Hc as ->.
  destruct (resolve_segments true (segments p) [] []) as [l|] eqn:E; [|discriminate].
  simpl. intros [= <-].
  destruct (resolve_segments_kept (segments p) [] l) as (o & -> & Ho); auto.
  { apply segments_from_wf. reflexivity. }
  destruct (kept_wf_forward o Ho) as [Hwf Hk].
  exists (rev o). split; [reflexivity|]. split.
  - unfold segments. simpl. apply (segments_concat_pieces (rev o) Hwf).
  - eapply Forall_impl; [exact Hk|]. intros sg (_ & _ & H1 & H2). auto.
Qed.

Lemma resolve_relative_absolute (p r : string) :
  git_fs_path_is_relative p = false ->
  git_fs_path_resolve_relative p = Some r ->
  git_fs_path_is_relative r = false.
Proof.
  destruct p as [|c p]; simpl; [discriminate|].
  intros Hc. apply negb_false_iff in Hc. rewrite Hc.
  destruct (resolve_segments true (segments p) [] []); simpl; [|discriminate].
  intros [= <-]. simpl. now rewrite Hc.
Qed.

Lemma joinpath_absolute (a b : string) :
  git_fs_path_is_relative a = false ->
  git_fs_path_is_relative (git_str_joinpath a b) = false.
Proof.
  destruct a as [|c a]; simpl; [discriminate|].
  intros Hc. unfold git_str_joinpath. simpl. exact Hc.
Qed.



(** ** Pruning *)

Lemma is_prunable_default (fs : filesystem) (wt : git_worktree)
    (opts : option git_worktree_prune_options) :
  git_error__check_version (option_map prune_version opts)
    GIT_WORKTREE_PRUNE_OPTIONS_VERSION = 0 ->
  git_worktree_is_prunable fs wt (Some (default GIT_WORKTREE_PRUNE_OPTIONS_INIT opts))
  = git_worktree_is_prunable fs wt opts.
Proof. destruct opts as [o|]; [reflexivity|]. intros _. reflexivity. Qed.

Lemma exists_remove_tree (d : string) (fs : filesystem) (p : string) :
  git_fs_path_exists (fs_remove_tree d fs) p = true -> git_fs_path_exists fs p = true.
Proof.
  unfold git_fs_path_exists, fs_stat. rewrite fs_find_remove_tree.
  destruct (in_tree d (fs_key p)); [discriminate|auto].
Qed.

Lemma in_tree_self (d : string) : in_tree d d = true.
Proof. unfold in_tree. now rewrite bool_decide_eq_true_2. Qed.

(** What git_worktree_prune does once the options and the prune policy
    have let it pass. *)
Lemma prune_unfold (fs : filesystem) (wt : git_worktree)
    (opts : option git_worktree_prune_options) :
  git_error__check_version (option_map prune_version opts)
    GIT_WORKTREE_PRUNE_OPTIONS_VERSION = 0 ->
  (git_worktree_is_prunable fs wt opts).1 = 1 ->
  let o := default GIT_WORKTREE_PRUNE_OPTIONS_INIT opts in
  let admin := git_str_join3 (commondir_path wt) "worktrees" (name wt) in
  let wd := git_fs_path_dirname (gitlink_path wt) in
  let fs1 := fs_remove_tree (fs_key admin) fs in
  git_worktree_prune fs wt opts =
    if negb (git_fs_path_exists fs admin) then (-1, fs)
    else if negb (remove_working_tree o)
            || negb (git_fs_path_exists fs1 (gitlink_path wt)) then (0, fs1)
    else if negb (git_fs_path_exists fs1 wd) then (-1, fs1)
    else (0, fs_remove_tree (fs_key wd) fs1).
Proof.
  intros Hv Hp o admin wd fs1. unfold git_worktree_prune.
  rewrite Hv. change (0 <? 0) with false. cbv iota.
  rewrite (is_prunable_default fs wt opts Hv), Hp.
  change (1 =? 0) with false. cbv iota. fold o admin wd.
  unfold git_futils_rmdir_r. fold fs1. change (0 <? 0) with false. cbv iota.
  unfold remove_working_tree. now rewrite negb_involutive.
Qed.

Lemma remove_tree_gone (d : string) (fs : filesystem) (q : string) :
  in_tree d q = true -> fs_find q (fs_remove_tree d fs) = None.
Proof. intros H. now rewrite fs_find_remove_tree, H. Qed.

Lemma remove_tree_frame (d : string) (fs : filesystem) (q : string) :
  in_tree d q = false -> fs_find q (fs_remove_tree d fs) = fs_find q fs.
Proof. intros H. now rewrite fs_find_remove_tree, H. Qed.

(** C9.  For a prunable worktree and valid options: when the directory
    [commondir_path/worktrees/name] does not exist, prune fails with -1 and
    leaves the file system as it was; when it exists, prune removes it with
    everything below it.  Outside that directory nothing changes unless the
    remove-working-tree flag is set and the working directory still exists,
    and then only the working directory and what is below it. *)
Theorem prune_spec (fs : filesystem) (wt : git_worktree)
    (opts : option git_worktree_prune_options) :
  git_error__check_version (option_map prune_version opts)
    GIT_WORKTREE_PRUNE_OPTIONS_VERSION = 0 ->
  (git_worktree_is_prunable fs wt opts).1 = 1 ->
  let o := default GIT_WORKTREE_PRUNE_OPTIONS_INIT opts in
  let admin := git_str_join3 (commondir_path wt) "worktrees" (name wt) in
  let wd := git_fs_path_dirname (gitlink_path wt) in
  let fs' := (git_worktree_prune fs wt opts).2 in
  (git_fs_path_exists fs admin = false -> git_worktree_prune fs wt opts = (-1, fs))
  /\ (git_fs_path_exists fs admin = true ->
      git_fs_path_exists fs' admin = false
      /\ (forall q, in_tree (fs_key admin) q = true -> fs_find q fs' = None)
      /\ (remove_working_tree o = false ->
          git_worktree_prune fs wt opts = (0, fs_remove_tree (fs_key admin) fs))
      /\ (forall q, in_tree (fs_key admin) q = false ->
                    fs_find q fs' <> fs_find q fs ->
                    remove_working_tree o = true
                    /\ git_fs_path_exists fs wd = true
                    /\ in_tree (fs_key wd) q = true)).
Proof.
  intros Hv Hp o admin wd fs'. subst fs'.
  rewrite (prune_unfold fs wt opts Hv Hp). fold o admin wd.
  set (fs1 := fs_remove_tree (fs_key admin) fs).
  split; [intros ->; reflexivity|]. intros ->. cbv [negb].
  assert (Hgone : forall fs2, (forall q, in_tree (fs_key admin) q = true -> fs_find q fs2 = None) ->
                  git_fs_path_exists fs2 admin = false).
  { intros fs2 H. unfold git_fs_path_exists, fs_stat.
    now rewrite (H _ (in_tree_self (fs_key admin))). }
  destruct (remove_working_tree o) eqn:EW; cbv [negb orb].
  2:{ repeat split; try reflexivity.
      - apply Hgone. intros q. apply remove_tree_gone.
      - intros q. apply remove_tree_gone.
      - exfalso. apply H0. now apply remove_tree_frame.
      - exfalso. apply H0. now apply remove_tree_frame.
      - exfalso. apply H0. now apply remove_tree_frame. }
  destruct (git_fs_path_exists fs1 (gitlink_path wt)) eqn:EG; cbv [negb].
  2:{ repeat split; try discriminate.
      - apply Hgone. intros q. apply remove_tree_gone.
      - intros q. apply remove_tree_gone.
      - exfalso. apply H0. now apply remove_tree_frame.
      - exfalso. apply H0. now apply remove_tree_frame. }
  destruct (git_fs_path_exists fs1 wd) eqn:ED; cbv [negb].
  2:{ repeat split; try discriminate.
      - apply Hgone. intros q. apply remove_tree_gone.
      - intros q. apply remove_tree_gone.
      - exfalso. apply H0. now apply remove_tree_frame.
      - exfalso. apply H0. now apply remove_tree_frame. }
  assert (Hq : forall q, in_tree (fs_key admin) q = true ->
               fs_find q (fs_remove_tree (fs_key wd) fs1) = None).
  { intros q Hq. rewrite fs_find_remove_tree.
    destruct (in_tree (fs_key wd) q); [reflexivity|]. now apply remove_tree_gone. }
  repeat split; try discriminate.
  - now apply Hgone.
  - exact Hq.
  - now apply exists_remove_tree in ED.
  - cbn [snd] in H0. rewrite fs_find_remove_tree in H0.
    destruct (in_tree (fs_key wd) q); [reflexivity|].
    exfalso. apply H0. now apply remove_tree_frame.
Qed.

Lemma prune_spec_witness :
  git_worktree_prune fs_one wt_a
    (Some {| prune_version := 1; prune_flags := GIT_WORKTREE_PRUNE_VALID |})
  = (0, fs_remove_tree "/r/.git/worktrees/a" fs_one).
Proof.
  destruct (proj2 (prune_spec fs_one wt_a
    (Some {| prune_version := 1; prune_flags := GIT_WORKTREE_PRUNE_VALID |})
    eq_refl eq_refl) eq_refl) as (_ & _ & H & _).
  exact (H eq_refl).
Defined.

(** ** The name search of git_worktree_add *)

Lemma sprintf_fits_all :
  forallb (fun k => negb (4 <? Z.of_nat (String.length (sprintf_d (Z.of_nat k))) + 1))
          (seq 1 127) = true.
Proof. vm_compute. reflexivity. Qed.

Lemma sprintf_fits (k : nat) :
  (1 <= k <= 127)%nat ->
  (4 <? Z.of_nat (String.length (sprintf_d (Z.of_nat k))) + 1) = false.
Proof.
  intros Hk. pose proof sprintf_fits_all as H.
  rewrite forallb_forall in H. apply negb_true_iff. apply H.
  apply in_seq. lia.
Qed.

Lemma int8_wrap_small (z : Z) : -128 <= z <= 127 -> int8_wrap z = z.
Proof. intros H. unfold int8_wrap. rewrite Z.mod_small; lia. Qed.

(** The state of the loop after [k] collisions: the name is the [k]-th
    candidate and the counter is [k + 1] as an int8_t. *)
Lemma private_subdir_loop_from (fs : filesystem) (gitdir base : string) :
  forall n k fuel,
    (k + n = 127)%nat -> (n < fuel)%nat ->
    (forall j, (j < k)%nat ->
       git_fs_path_exists fs (git_str_joinpath gitdir (candidate base j)) = true) ->
    search_outcome fs gitdir base
      (private_subdir_loop fuel fs gitdir (candidate base k)
         (int8_wrap (Z.of_nat (S k)))).
Proof.
  induction n as [|n IH]; intros k fuel Hk Hfuel Hprev;
    (destruct fuel as [|fuel]; [lia|]); simpl.
  - assert (k = 127)%nat as -> by lia.
    destruct (git_fs_path_exists fs (git_str_joinpath gitdir (candidate base 127))) eqn:E.
    + change (int8_wrap (Z.of_nat 128)) with (-128).
      change (4 <? Z.of_nat (String.length (sprintf_d (-128))) + 1) with true.
      cbv iota. simpl. intros j Hj.
      destruct (decide (j = 127%nat)) as [->|]; [exact E|apply Hprev; lia].
    + simpl. exists 127%nat. repeat split; auto.
  - destruct (git_fs_path_exists fs (git_str_joinpath gitdir (candidate base k))) eqn:E.
    + rewrite (int8_wrap_small (Z.of_nat (S k))) by lia.
      rewrite (sprintf_fits (S k)) by lia.
      replace (Z.of_nat (S k) + 1) with (Z.of_nat (S (S k))) by lia.
      change (candidate base k +:+ sprintf_d (Z.of_nat (S k))) with (candidate base (S k)).
      apply IH; [lia|lia|].
      intros j Hj. destruct (decide (j = k)) as [->|]; [exact E|apply Hprev; lia].
    + simpl. exists k. repeat split; auto. lia.
Qed.

(** The search ends within 128 rounds. *)
Lemma private_subdir_loop_total (fs : filesystem) (gitdir base : string) (fuel : nat) :
  (128 <= fuel)%nat ->
  search_outcome fs gitdir base (private_subdir_loop fuel fs gitdir base 1).
Proof.
  intros Hfuel.
  apply (private_subdir_loop_from fs gitdir base 127 0 fuel); [lia|lia|].
  intros j Hj. lia.
Qed.

Lemma add_worktrees_dir_name (repo : git_repository) (fs fs1 : filesystem)
    (gitdir : string) :
  add_worktrees_dir repo fs = (Ok gitdir, fs1) ->
  gitdir = git_str_joinpath (commondir repo) "worktrees".
Proof.
  unfold add_worktrees_dir, mbind, query, status, mret.
  destruct (negb _).
  - destruct (git_futils_mkdir _ _ _ _) as [r fs2]. destruct (r <? 0); congruence.
  - congruence.
Qed.




(** ** Listing *)

(** The in-place filter, entry by entry: [pre] is what the loop has put
    behind it, [rest] what is still ahead of the index. *)
Lemma list_foreach_kept (fs : filesystem) (dir : string) :
  forall fuel (pre rest : list string) wd err,
    (length rest <= fuel)%nat ->
    (forall w wd', w ∈ rest -> is_worktree_private_directory fs (dir +:+ w) = true ->
       ((get_worktree_gitdir_from_private_directory fs wd' (dir +:+ w)).1 <? 0) = false) ->
    exists err',
      list_foreach fuel fs dir wd (pre ++ rest) (length pre) err
      = Ok (err', pre ++ list_kept fs dir rest).
Proof.
  induction fuel as [|fuel IH]; intros pre rest wd err Hlen Hok.
  - destruct rest; [|simpl in Hlen; lia]. exists err. reflexivity.
  - destruct rest as [|w rest].
    + exists err. simpl. rewrite app_nil_r.
      now rewrite (lookup_ge_None_2 pre (length pre)) by lia.
    + simpl. rewrite list_lookup_middle by reflexivity.
      destruct (is_worktree_private_directory fs (dir +:+ w)) eqn:Hw; simpl.
      * specialize (Hok w wd (list_elem_of_here _ _) Hw) as Hget.
        destruct (get_worktree_gitdir_from_private_directory fs wd (dir +:+ w))
          as [e wd'] eqn:Eg.
        simpl in Hget. rewrite Hget.
        unfold git_vector_set.
        rewrite list_insert_id by (now apply list_lookup_middle).
        change (0 <? 0) with false. cbv iota.
        destruct (IH (pre ++ [w]) rest wd' 0) as [err' Herr'].
        { simpl in Hlen. lia. }
        { intros w0 wd0 Hin. apply Hok. now apply list_elem_of_further. }
        exists err'. rewrite length_app in Herr'. simpl in Herr'.
        replace (length pre + 1)%nat with (S (length pre)) in Herr' by lia.
        rewrite <- !app_assoc in Herr'. exact Herr'.
      * unfold git_vector_remove. rewrite delete_middle.
        destruct rest as [|w' rest].
        -- exists err. rewrite app_nil_r.
           destruct fuel; simpl; [reflexivity|].
           now rewrite (lookup_ge_None_2 pre (S (length pre))) by lia.
        -- destruct (IH (pre ++ [w']) rest wd err) as [err' Herr'].
           { simpl in Hlen. lia. }
           { intros w0 wd0 Hin. apply Hok. now do 2 apply list_elem_of_further. }
           exists err'. rewrite length_app in Herr'. simpl in Herr'.
           replace (length pre + 1)%nat with (S (length pre)) in Herr' by lia.
           rewrite <- !app_assoc in Herr'. exact Herr'.
Qed.

(** The fuel handed to the loop by git_worktree_list is enough: with at
    least as much fuel as there are elements from the index on, more fuel
    changes nothing. *)
Lemma list_foreach_fuel (fs : filesystem) (dir : string) :
  forall fuel1 fuel2 v i wd err,
    (length v - i <= fuel1)%nat -> (length v - i <= fuel2)%nat ->
    list_foreach fuel1 fs dir wd v i err = list_foreach fuel2 fs dir wd v i err.
Proof.
  induction fuel1 as [|fuel1 IH]; intros fuel2 v i wd err H1 H2.
  - assert (Hnone : v !! i = None) by (apply lookup_ge_None_2; lia).
    destruct fuel2; simpl; [reflexivity|]. now rewrite Hnone.
  - destruct fuel2 as [|fuel2].
    + assert (Hnone : v !! i = None) by (apply lookup_ge_None_2; lia).
      simpl. now rewrite Hnone.
    + simpl. destruct (v !! i) as [w|] eqn:E; [|reflexivity].
      apply lookup_lt_Some in E as Hlt.
      destruct (is_worktree_private_directory fs (dir +:+ w)); simpl.
      * destruct (get_worktree_gitdir_from_private_directory fs wd (dir +:+ w))
          as [e wd'].
        destruct (e <? 0); [reflexivity|].
        unfold git_vector_set. change (0 <? 0) with false. cbv iota.
        apply IH; rewrite length_insert; lia.
      * unfold git_vector_remove. assert (Hsome : is_Some (v !! i)) by eauto.
        apply IH; rewrite length_delete by exact Hsome; lia.
Qed.

(** git_worktree_list returns what the in-place filter keeps: an entry
    that directly follows a removed one is in the result whether or not it
    is an administrative directory. *)
Lemma git_worktree_list_kept (fs : filesystem) (repo : git_repository)
    (worktrees : list string) :
  let path := git_str_joinpath (commondir repo) "worktrees/" in
  git_fs_path_exists fs path = true ->
  git_fs_path_is_empty_dir fs path = false ->
  git_fs_path_dirload fs path = Ok worktrees ->
  (forall w wd', w ∈ worktrees -> is_worktree_private_directory fs (path +:+ w) = true ->
     ((get_worktree_gitdir_from_private_directory fs wd' (path +:+ w)).1 <? 0) = false) ->
  (git_worktree_list fs repo).2 = list_kept fs path worktrees.
Proof.
  intros path He Hne Hload Hok. unfold git_worktree_list. fold path.
  rewrite He, Hne, Hload. simpl.
  destruct (list_foreach_kept fs path (length worktrees) [] worktrees "" 0
              (le_n _) Hok) as [err' H].
  simpl in H. now rewrite H.
Qed.

(** C4 (the code at a registry with two stale entries ahead of a good
    one).  The directory [worktrees] lists x, y and a; neither x nor y is
    an administrative directory; the list that is returned holds y. *)
Theorem list_keeps_stale_entry :
  git_fs_path_dirload fs_stale "/r/.git/worktrees/" = Ok ["x"; "y"; "a"]
  /\ is_worktree_private_directory fs_stale "/r/.git/worktrees/x" = false
  /\ is_worktree_private_directory fs_stale "/r/.git/worktrees/y" = false
  /\ is_worktree_private_directory fs_stale "/r/.git/worktrees/a" = true
  /\ git_worktree_list fs_stale repo_r = (0, ["y"; "a"]).
Proof. repeat split; vm_compute; reflexivity. Qed.

(** ** Lookup *)

Lemma get_gitdir_buffer_irrelevant (fs : filesystem) (out1 out2 path : string) :
  (get_worktree_gitdir_from_private_directory fs out1 path).1
  = (get_worktree_gitdir_from_private_directory fs out2 path).1
  /\ (((get_worktree_gitdir_from_private_directory fs out1 path).1 <? 0) = false ->
      (get_worktree_gitdir_from_private_directory fs out1 path).2
      = (get_worktree_gitdir_from_private_directory fs out2 path).2).
Proof.
  unfold get_worktree_gitdir_from_private_directory.
  destruct (is_worktree_private_directory fs path); simpl; [|split; [reflexivity|discriminate]].
  destruct (git_fs_path_apply_relative _ ".."); simpl; split; auto; discriminate.
Qed.

Lemma open_worktree_dir_code (fs : filesystem) (parent : option string)
    (dir name : string) :
  ((open_worktree_dir fs parent dir name).1 <? 0) = false ->
  (open_worktree_dir fs parent dir name).1 = 0.
Proof.
  unfold open_worktree_dir.
  destruct (is_worktree_private_directory fs dir); simpl; [|discriminate].
  destruct (git_worktree__read_link fs dir "commondir"); simpl; [|discriminate].
  destruct (git_worktree__read_link fs dir "gitdir"); simpl; [|discriminate].
  unfold git_fs_path_prettify_dir.
  destruct (fs_stat fs dir); simpl; [|discriminate].
  now destruct (git_fs_path_exists fs _).
Qed.

(** The loop of git_worktree_lookup does what [scan_first_match] says,
    whatever the buffer holds and for every non-negative [error] it starts
    with. *)
Lemma lookup_foreach_scan (fs : filesystem) (repo : git_repository) (name dir : string) :
  forall worktrees wd err,
    (err <? 0) = false ->
    (let '(error, found, out) := lookup_foreach fs repo name dir wd worktrees err in
     if error <? 0 then (error, out) else (if found =? 0 then -1 else 0, out))
    = scan_first_match fs repo name dir worktrees.
Proof.
  induction worktrees as [|w rest IH]; intros wd err Herr; simpl.
  - now rewrite Herr.
  - unfold entry_verdict_of.
    destruct (is_worktree_private_directory fs (dir +:+ w)) eqn:Hw; [|now apply IH].
    destruct (get_gitdir_buffer_irrelevant fs wd "" (dir +:+ w)) as [H1 H2].
    destruct (get_worktree_gitdir_from_private_directory fs wd (dir +:+ w))
      as [e wd1] eqn:E1.
    destruct (get_worktree_gitdir_from_private_directory fs "" (dir +:+ w))
      as [e' wd2] eqn:E2.
    simpl in H1, H2. subst e'.
    destruct (e <? 0) eqn:He; [now rewrite He|].
    rewrite <- (H2 eq_refl).
    destruct (bool_decide (git_fs_path_basename wd1 = git_fs_path_basename name)).
    + pose proof (open_worktree_dir_code fs (git_repository_workdir repo)
                    (dir +:+ w) name) as Hc.
      destruct (open_worktree_dir fs (git_repository_workdir repo) (dir +:+ w) name)
        as [e2 out] eqn:Eo.
      simpl in Hc. destruct (e2 <? 0) eqn:He2; [now rewrite He2|].
      rewrite (Hc eq_refl). reflexivity.
    + now apply IH.
Qed.

(** Once the registry has been loaded, lookup is the first-match scan. *)
Lemma lookup_scans_registry (found_uninit : Z) (fs : filesystem)
    (repo : git_repository) (name : string) (worktrees : list string) :
  let path := git_str_joinpath (commondir repo) "worktrees/" in
  git_fs_path_exists fs path = true ->
  git_fs_path_is_empty_dir fs path = false ->
  git_fs_path_dirload fs path = Ok worktrees ->
  git_worktree_lookup found_uninit fs repo name
  = scan_first_match fs repo name path worktrees.
Proof.
  intros path He Hne Hload. unfold git_worktree_lookup. fold path.
  rewrite He, Hne, Hload. simpl.
  apply (lookup_foreach_scan fs repo name path worktrees "" 0 eq_refl).
Qed.

(** Without a registry, or with an empty one, the answer is decided by
    what the uninitialised [found] happens to hold. *)
Lemma lookup_without_registry (found_uninit : Z) (fs : filesystem)
    (repo : git_repository) (name : string) :
  let path := git_str_joinpath (commondir repo) "worktrees/" in
  git_fs_path_exists fs path = false \/ git_fs_path_is_empty_dir fs path = true ->
  git_worktree_lookup found_uninit fs repo name
  = (if found_uninit =? 0 then -1 else 0, None).
Proof.
  intros path H. unfold git_worktree_lookup. fold path.
  destruct H as [-> | ->]; simpl; [reflexivity|].
  rewrite orb_true_r. reflexivity.
Qed.

(** All of git_worktree_lookup in one equation. *)
Lemma lookup_characterised (found_uninit : Z) (fs : filesystem)
    (repo : git_repository) (name : string) :
  let path := git_str_joinpath (commondir repo) "worktrees/" in
  git_worktree_lookup found_uninit fs repo name =
    if negb (git_fs_path_exists fs path) || git_fs_path_is_empty_dir fs path
    then (if found_uninit =? 0 then -1 else 0, None)
    else match git_fs_path_dirload fs path with
         | Err error => (error, None)
         | Ok worktrees => scan_first_match fs repo name path worktrees
         end.
Proof.
  intros path.
  destruct (git_fs_path_exists fs path) eqn:He; cbv [negb orb].
  - destruct (git_fs_path_is_empty_dir fs path) eqn:Hd.
    + apply lookup_without_registry. now right.
    + destruct (git_fs_path_dirload fs path) as [ws|e] eqn:Hl.
      * now apply lookup_scans_registry.
      * unfold git_worktree_lookup. fold path. rewrite He, Hd, Hl. cbv [negb orb].
        unfold git_fs_path_dirload in Hl.
        destruct (fs_stat fs path) as [[c|]|]; try discriminate;
          injection Hl as <-; reflexivity.
  - apply lookup_without_registry. now left.
Qed.

(** C2 (the code at a repository without a [worktrees] directory).  No
    entry can match, yet lookup reports success, with no worktree, as soon
    as the uninitialised [found] is not zero. *)
Theorem lookup_reads_uninitialised_found :
  git_fs_path_exists fs_plain (git_str_joinpath (commondir repo_r) "worktrees/") = false
  /\ git_worktree_lookup 1 fs_plain repo_r "feature" = (0, None)
  /\ git_worktree_lookup 0 fs_plain repo_r "feature" = (-1, None).
Proof. repeat split; vm_compute; reflexivity. Qed.

(** ** Adding with the lock option *)

Lemma mbind_ok {A B : Type} (m : M A) (k : A -> M B) (fs fs' : filesystem) (b : B) :
  mbind m k fs = (Ok b, fs') ->
  exists a fs1, m fs = (Ok a, fs1) /\ k a fs1 = (Ok b, fs').
Proof.
  unfold mbind. destruct (m fs) as [[a|e] fs1]; [|discriminate].
  intros H. now exists a, fs1.
Qed.

Lemma status_ok (f : filesystem -> Z * filesystem) (fs fs' : filesystem) (r : Z) :
  status f fs = (Ok r, fs') -> f fs = (r, fs') /\ (r <? 0) = false.
Proof.
  unfold status. destruct (f fs) as [r0 fs0]. destruct (r0 <? 0) eqn:E; [discriminate|].
  intros [= <- <-]. auto.
Qed.

(** Splits a successful sequence [H] into its first step [E] and the
    rest, which stays in [H]. *)
Ltac bind_inv H a fs E :=
  let x := fresh a in let f := fresh fs in
  apply mbind_ok in H as (x & f & E & H).

Lemma query_ok {A : Type} (f : filesystem -> A) (fs fs' : filesystem) (a : A) :
  query f fs = (Ok a, fs') -> a = f fs /\ fs' = fs.
Proof. unfold query. intros [= <- <-]. auto. Qed.

Lemma private_subdir_loop_free (fs : filesystem) (gitdir : string) :
  forall fuel nm0 suffix nm tmp,
    private_subdir_loop fuel fs gitdir nm0 suffix = Some (Found nm tmp) ->
    git_fs_path_exists fs tmp = false.
Proof.
  induction fuel as [|fuel IH]; intros nm0 suffix nm tmp; simpl; [discriminate|].
  destruct (git_fs_path_exists fs (git_str_joinpath gitdir nm0)) eqn:E.
  - destruct (4 <? _); [discriminate|]. apply IH.
  - intros [= <- <-]. exact E.
Qed.

Lemma p_creat_ok (fs fs' : filesystem) (p : string) (r : Z) :
  p_creat fs p = (r, fs') -> (r <? 0) = false ->
  fs_find (fs_key p) fs' = Some (File "").
Proof.
  unfold p_creat. destruct (fs_find (fs_key p) fs) as [[c|]|].
  - intros [= <- <-] _. apply fs_find_insert_eq.
  - intros [= <- <-]. discriminate.
  - destruct (parent_is_dir fs (fs_key p)); intros [= <- <-]; [|discriminate].
    intros _. apply fs_find_insert_eq.
Qed.

(** An exclusive write that succeeds found nothing at the path and changes
    nothing elsewhere. *)
Lemma writebuffer_excl_ok (fs fs' : filesystem) (content p : string) (r : Z) :
  git_futils_writebuffer fs content p true = (r, fs') -> (r <? 0) = false ->
  fs_find (fs_key p) fs = None
  /\ forall k, k <> fs_key p -> fs_find k fs' = fs_find k fs.
Proof.
  unfold git_futils_writebuffer. destruct (fs_find (fs_key p) fs) as [[c|]|].
  - intros [= <- <-]. discriminate.
  - intros [= <- <-]. discriminate.
  - destruct (parent_is_dir fs (fs_key p)); intros [= <- <-]; [|discriminate].
    intros _. split; [reflexivity|]. intros k Hk. now apply fs_find_insert_ne.
Qed.

Lemma open_worktree_dir_locked (fs : filesystem) (parent : option string)
    (dir name : string) (e : Z) (wt : git_worktree) :
  open_worktree_dir fs parent dir name = (e, Some wt) ->
  locked wt = git_fs_path_exists fs (git_str_joinpath (gitdir_path wt) "locked").
Proof.
  unfold open_worktree_dir.
  destruct (is_worktree_private_directory fs dir); [|discriminate].
  change (git_path_validate_length dir <? 0) with false. cbv [negb].
  destruct (git_worktree__read_link fs dir "commondir"); [|discriminate].
  destruct (git_worktree__read_link fs dir "gitdir"); [|discriminate].
  destruct (git_fs_path_prettify_dir fs dir) as [g|]; [|discriminate].
  cbv zeta. rewrite is_locked_without_reason. simpl.
  destruct (git_fs_path_exists fs (git_str_joinpath g "locked")) eqn:E;
    simpl; intros [= <- <-]; simpl; now rewrite E.
Qed.

Lemma lookup_foreach_locked (fs : filesystem) (repo : git_repository) (name dir : string) :
  forall worktrees wd err e found wt,
    lookup_foreach fs repo name dir wd worktrees err = (e, found, Some wt) ->
    locked wt = git_fs_path_exists fs (git_str_joinpath (gitdir_path wt) "locked").
Proof.
  induction worktrees as [|w rest IH]; intros wd err e found wt; simpl; [discriminate|].
  destruct (is_worktree_private_directory fs (dir +:+ w)); [|apply IH].
  destruct (get_worktree_gitdir_from_private_directory fs wd (dir +:+ w)) as [e1 wd1].
  destruct (e1 <? 0); [discriminate|].
  destruct (bool_decide _); [|apply IH].
  destruct (open_worktree_dir fs (git_repository_workdir repo) (dir +:+ w) name)
    as [e2 out] eqn:Eo.
  destruct (e2 <? 0); [discriminate|].
  intros [= <- <- ->]. now apply open_worktree_dir_locked in Eo.
Qed.

(** The [locked] flag of a worktree that lookup returns mirrors the marker
    of its own administrative directory. *)
Lemma lookup_locked (found_uninit : Z) (fs : filesystem) (repo : git_repository)
    (name : string) (e : Z) (wt : git_worktree) :
  git_worktree_lookup found_uninit fs repo name = (e, Some wt) ->
  locked wt = git_fs_path_exists fs (git_str_joinpath (gitdir_path wt) "locked").
Proof.
  unfold git_worktree_lookup.
  destruct (negb _ || _).
  - simpl. destruct (found_uninit =? 0); discriminate.
  - destruct (git_fs_path_dirload fs _) as [ws|e0].
    + destruct (lookup_foreach fs repo name _ "" ws 0) as [[e1 found] out] eqn:El.
      intros H. assert (out = Some wt) as -> by (destruct (e1 <? 0); congruence).
      now apply lookup_foreach_locked in El.
    + destruct (e0 <? 0); discriminate.
Qed.

Lemma preserves_bind {A B : Type} (k : string) (m : M A) (f : A -> M B) :
  preserves k m -> (forall a, preserves k (f a)) -> preserves k (mbind m f).
Proof.
  intros Hm Hf fs r fs'. unfold mbind.
  destruct (m fs) as [[a|e] fs1] eqn:E.
  - intros H. rewrite (Hf a _ _ _ H). apply (Hm _ _ _ E).
  - intros [= <- <-]. apply (Hm _ _ _ E).
Qed.

Lemma preserves_ret {A : Type} (k : string) (a : A) : preserves k (mret a).
Proof. intros fs r fs' [= <- <-]. reflexivity. Qed.

Lemma preserves_fail {A : Type} (k : string) (e : Z) : preserves k (@mfail A e).
Proof. intros fs r fs' [= <- <-]. reflexivity. Qed.

Lemma preserves_query {A : Type} (k : string) (f : filesystem -> A) :
  preserves k (query f).
Proof. intros fs r fs' [= <- <-]. reflexivity. Qed.

Lemma preserves_status (k : string) (f : filesystem -> Z * filesystem) :
  (forall fs, fs_find k (f fs).2 = fs_find k fs) -> preserves k (status f).
Proof.
  intros Hf fs r fs'. unfold status. specialize (Hf fs).
  destruct (f fs) as [r0 fs0]. simpl in Hf.
  destruct (r0 <? 0); intros [= <- <-]; exact Hf.
Qed.

Lemma write_wtfile_other (fs : filesystem) (base file buf k : string) :
  k <> fs_key (git_str_joinpath base file) ->
  fs_find k (write_wtfile fs base file buf).2 = fs_find k fs.
Proof.
  intros Hk. unfold write_wtfile, git_futils_writebuffer.
  destruct (fs_find (fs_key (git_str_joinpath base file)) fs) as [[c|]|]; simpl; auto.
  destruct (parent_is_dir fs _); simpl; auto. now apply fs_find_insert_ne.
Qed.

Lemma plain_locked : plain_name "locked".
Proof. split; reflexivity. Qed.

Lemma marker_key_ne (gitdir base file : string) :
  plain_name file -> file <> "locked" ->
  git_str_joinpath gitdir "locked" <> fs_key (git_str_joinpath base file).
Proof.
  intros Hf Hne. rewrite <- (fs_key_joinpath gitdir "locked" plain_locked).
  apply joinpath_key_ne; auto using plain_locked.
Qed.

Section AddWithLock.

(** The collaborators are arbitrary, as long as they leave [locked] files
    alone. *)
Variable col : collaborators.
Hypothesis col_respects_markers : respects_markers col.

(** Whatever becomes of the rest of git_worktree_add, the marker of the new
    administrative directory stays as the lock step left it. *)
Lemma add_populate_preserves_marker (found_uninit : Z)
    (repo : git_repository) (name worktree : string)
    (wtopts : git_worktree_add_options) (gitdir wddir : string) :
  preserves (git_str_joinpath gitdir "locked")
    (add_populate col found_uninit repo name worktree wtopts gitdir wddir).
Proof.
  destruct col_respects_markers as (Hb & Hh & Hc).
  assert (Hl : last_segment (git_str_joinpath gitdir "locked") = "locked")
    by apply (last_segment_joinpath gitdir "locked" plain_locked).
  unfold add_populate. apply preserves_bind.
  { unfold add_link_files. apply preserves_bind.
    - apply preserves_status. intros fs. apply write_wtfile_other.
      apply marker_key_ne; [split; reflexivity|discriminate].
    - intros _. apply preserves_bind; [apply preserves_query|].
      intros [buf|e]; [|apply preserves_fail].
      apply preserves_bind.
      + apply preserves_status. intros fs. apply write_wtfile_other.
        apply marker_key_ne; [split; reflexivity|discriminate].
      + intros _. apply preserves_bind; [|intros; apply preserves_ret].
        apply preserves_status. intros fs. apply write_wtfile_other.
        apply marker_key_ne; [split; reflexivity|discriminate]. }
  intros _. apply preserves_bind.
  { unfold add_reference. destruct (ref wtopts); [apply preserves_ret|].
    intros fs r fs' H. specialize (Hb repo name fs _ Hl). cbv beta in Hb.
    now rewrite H in Hb. }
  intros r. apply preserves_bind.
  { unfold add_checkout. apply preserves_bind.
    - apply preserves_status. intros fs. now apply Hh.
    - intros _. apply preserves_bind; [|intros; apply preserves_ret].
      apply preserves_status. intros fs. now apply Hc. }
  intros _. apply preserves_bind; [apply preserves_query|].
  intros res. destruct (res.1 <? 0); [apply preserves_fail|apply preserves_ret].
Qed.

Lemma add_populate_fresh_gitlink (found_uninit : Z)
    (repo : git_repository) (name worktree : string)
    (wtopts : git_worktree_add_options) (gitdir wddir : string)
    (fs fs' : filesystem) (out : option git_worktree) :
  add_populate col found_uninit repo name worktree wtopts gitdir wddir fs = (Ok out, fs') ->
  git_fs_path_exists fs (git_str_joinpath wddir ".git") = false.
Proof.
  unfold add_populate, add_link_files. intros H.
  bind_inv H u fs1 Hlinks. bind_inv Hlinks r fs2 Hgit.
  apply status_ok in Hgit as [Hgit Hr]. unfold write_wtfile in Hgit.
  apply writebuffer_excl_ok in Hgit as [Hgit _]; [|exact Hr].
  unfold git_fs_path_exists, fs_stat. now rewrite Hgit.
Qed.

Lemma lookup_result_locked (found_uninit : Z) (fs fs' : filesystem)
    (repo : git_repository) (worktree : string) (out : git_worktree) :
  (let! res := query (fun fs => git_worktree_lookup found_uninit fs repo worktree) in
   if res.1 <? 0 then mfail res.1 else mret res.2) fs = (Ok (Some out), fs') ->
  fs' = fs
  /\ locked out = git_fs_path_exists fs (git_str_joinpath (gitdir_path out) "locked").
Proof.
  intros H. apply mbind_ok in H as (res & fs1 & Hq & H).
  apply query_ok in Hq as [-> ->].
  destruct (git_worktree_lookup found_uninit fs repo worktree) as [e o] eqn:El.
  simpl in H. destruct (e <? 0); [discriminate|].
  injection H as -> <-. split; [reflexivity|]. now apply lookup_locked in El.
Qed.

Lemma marker_file_locked (fs : filesystem) (wt : git_worktree) (reason content : string) :
  fs_find (git_str_joinpath (gitdir_path wt) "locked") fs = Some (File content) ->
  git_worktree__is_locked fs (Some reason) wt = (1, Some content)
  /\ git_fs_path_exists fs (git_str_joinpath (gitdir_path wt) "locked") = true.
Proof.
  intros H.
  assert (Hs : fs_stat fs (git_str_joinpath (gitdir_path wt) "locked") = Some (File content)).
  { unfold fs_stat. now rewrite (fs_key_joinpath _ "locked" plain_locked). }
  split; [now apply is_locked_with_reason_file|].
  unfold git_fs_path_exists. now rewrite Hs.
Qed.


End AddWithLock.

Lemma writebuffer_other (fs : filesystem) (content p k : string) (excl : bool) :
  k <> fs_key p ->
  fs_find k (git_futils_writebuffer fs content p excl).2 = fs_find k fs.
Proof.
  intros Hk. unfold git_futils_writebuffer.
  destruct (fs_find (fs_key p) fs) as [[c|]|]; simpl; auto.
  - destruct excl; simpl; auto. now apply fs_find_insert_ne.
  - destruct (parent_is_dir fs _); simpl; auto. now apply fs_find_insert_ne.
Qed.

Lemma quiet_collaborators_respect_markers : respects_markers quiet_collaborators.
Proof.
  split; [|split].
  - intros repo name fs k _. reflexivity.
  - intros gitdir refname fs k Hk. simpl. apply writebuffer_other.
    intros ->. rewrite (fs_key_joinpath gitdir "HEAD") in Hk by (split; reflexivity).
    rewrite (last_segment_joinpath gitdir "HEAD") in Hk by (split; reflexivity).
    discriminate.
  - intros wddir coopts fs k _. reflexivity.
Qed.



(** ** Strings, continued *)

Lemma rstrip_all (P : ascii -> bool) (ws : string) :
  all_chars P ws = true -> rstrip P ws = "".
Proof.
  induction ws as [|c ws IH]; simpl; [reflexivity|].
  intros [Hc Hws]%andb_prop. rewrite (IH Hws), Hc. reflexivity.
Qed.

Lemma rstrip_append_all (P : ascii -> bool) (p ws : string) :
  all_chars P ws = true -> rstrip P (p +:+ ws) = rstrip P p.
Proof.
  intros Hws. induction p as [|c p IH].
  - rewrite append_nil. now apply rstrip_all.
  - rewrite append_cons. simpl. now rewrite IH.
Qed.

Lemma rstrip_fixed (P : ascii -> bool) (p : string) :
  last_char_is P p = false -> rstrip P p = p.
Proof.
  induction p as [|c p IH]; [reflexivity|].
  destruct p as [|c' p'].
  - simpl. intros ->. reflexivity.
  - intros H. change (last_char_is P (String c (String c' p')))
      with (last_char_is P (String c' p')) in H.
    change (rstrip P (String c (String c' p')))
      with (let t := rstrip P (String c' p') in
            if is_empty t && P c then EmptyString else String c t).
    rewrite (IH H). reflexivity.
Qed.

(** Trailing white space that a writer appends is what the trimming of a
    reader removes. *)
Lemma rtrim_appended (p ws : string) :
  last_char_is git__isspace p = false -> all_chars git__isspace ws = true ->
  git_str_rtrim (p +:+ ws) = p.
Proof.
  intros Hp Hws. unfold git_str_rtrim.
  rewrite rstrip_append_all by exact Hws. now apply rstrip_fixed.
Qed.

Lemma upto_last_slash_plain (f : string) :
  has_slash f = false -> upto_last_slash f = "".
Proof. destruct f as [|c f]; simpl; [reflexivity|]. now intros ->. Qed.

Lemma upto_last_slash_append (x f : string) :
  has_slash f = false -> (x = "" \/ ends_with_slash x = true) ->
  upto_last_slash (x +:+ f) = x.
Proof.
  intros Hf. induction x as [|c x IH]; intros Hx.
  - rewrite append_nil. now apply upto_last_slash_plain.
  - destruct Hx as [Hx|Hx]; [discriminate|].
    rewrite append_cons.
    change (upto_last_slash (String c (x +:+ f)))
      with (if has_slash (String c (x +:+ f))
            then String c (upto_last_slash (x +:+ f)) else EmptyString).
    assert (Hs : has_slash (String c (x +:+ f)) = true).
    { rewrite <- append_cons, has_slash_append.
      now rewrite (ends_with_slash_has_slash _ Hx). }
    rewrite Hs. f_equal. apply IH.
    destruct x as [|c' x']; [now left|right]. exact Hx.
Qed.

Lemma rstrip_join_prefix (a : string) :
  rstrip is_slash (join_prefix a) = rstrip is_slash a.
Proof.
  unfold join_prefix. destruct (is_empty a) eqn:E.
  - apply is_empty_true in E as ->. reflexivity.
  - destruct (ends_with_slash a); [now rewrite append_empty_r|].
    now apply rstrip_append_all.
Qed.

(** The directory part of a file joined to a directory is that directory. *)
Lemma dirname_joinpath (a f : string) :
  plain_name f -> is_empty a = false ->
  git_fs_path_dirname (git_str_joinpath a f) = fs_key a.
Proof.
  intros Hf Ha. rewrite (joinpath_shape a f Hf).
  destruct Hf as [Hs He].
  unfold git_fs_path_dirname.
  rewrite (is_empty_append _ _ He).
  rewrite rstrip_append by (auto using rstrip_plain).
  rewrite (is_empty_append _ _ He).
  rewrite upto_last_slash_append by (auto using join_prefix_shape).
  assert (Hj : is_empty (join_prefix a) = false).
  { unfold join_prefix. rewrite Ha. destruct a; [discriminate|reflexivity]. }
  rewrite Hj, rstrip_join_prefix. unfold fs_key. rewrite Ha. reflexivity.
Qed.

(** ** The file system, continued *)

Lemma fs_remove_insert_fresh (k : string) (n : node) (fs : filesystem) :
  fs_find k fs = None -> fs_remove k (fs_insert k n fs) = fs.
Proof.
  induction fs as [|[k' n'] fs IH]; simpl.
  - intros _. unfold fs_remove. simpl. now rewrite bool_decide_eq_true_2.
  - destruct (bool_decide (k' = k)) eqn:E; [discriminate|].
    intros H. unfold fs_remove in *. simpl. rewrite E. simpl. now rewrite IH.
Qed.

Lemma fs_find_remove_ne (k k' : string) (fs : filesystem) :
  k <> k' -> fs_find k (fs_remove k' fs) = fs_find k fs.
Proof.
  intros Hk. induction fs as [|[k0 n0] fs IH]; [reflexivity|].
  unfold fs_remove in *. simpl.
  destruct (bool_decide (k0 = k')) eqn:E; simpl.
  - apply bool_decide_eq_true_1 in E as ->.
    rewrite bool_decide_eq_false_2 by congruence. exact IH.
  - destruct (bool_decide (k0 = k)); [reflexivity|exact IH].
Qed.

Lemma writebuffer_content (fs fs' : filesystem) (content p : string) (excl : bool) (r : Z) :
  git_futils_writebuffer fs content p excl = (r, fs') -> (r <? 0) = false ->
  fs_find (fs_key p) fs' = Some (File content).
Proof.
  unfold git_futils_writebuffer. destruct (fs_find (fs_key p) fs) as [[c|]|].
  - destruct excl; intros [= <- <-]; [discriminate|]. intros _. apply fs_find_insert_eq.
  - intros [= <- <-]. discriminate.
  - destruct (parent_is_dir fs (fs_key p)); intros [= <- <-]; [|discriminate].
    intros _. apply fs_find_insert_eq.
Qed.

(** ** Link files, written and read back *)

(** Writing a link file and reading it back. *)
Lemma write_wtfile_read_back (fs fs' : filesystem) (base file p ws : string) (e : Z) :
  write_wtfile fs base file (p +:+ ws) = (e, fs') -> (e <? 0) = false ->
  last_char_is git__isspace p = false -> all_chars git__isspace ws = true ->
  git_worktree__read_link fs' base file
  = (if git_fs_path_is_relative p then git_fs_path_apply_relative base p else Some p)
  /\ git_fs_path_exists fs (git_str_joinpath base file) = false
  /\ forall k, k <> fs_key (git_str_joinpath base file) -> fs_find k fs' = fs_find k fs.
Proof.
  intros Hw He Hp Hws. unfold write_wtfile in Hw.
  pose proof (writebuffer_content _ _ _ _ _ _ Hw He) as Hc.
  destruct (writebuffer_excl_ok _ _ _ _ _ Hw He) as [Hnone Hframe].
  split; [|split].
  - unfold git_worktree__read_link, git_futils_readbuffer, fs_stat.
    rewrite Hc. cbv zeta. rewrite (rtrim_appended p ws Hp Hws).
    destruct (git_fs_path_is_relative p); cbv [negb]; [|reflexivity].
    now destruct (git_fs_path_apply_relative base p).
  - unfold git_fs_path_exists, fs_stat. now rewrite Hnone.
  - exact Hframe.
Qed.



(** ** Locks, continued *)

Lemma marker_parent (fs : filesystem) (g : string) :
  is_empty g = false -> fs_stat fs g = Some Dir ->
  parent_is_dir fs (fs_key (git_str_joinpath g "locked")) = true.
Proof.
  intros Hg Hd. unfold parent_is_dir.
  rewrite (fs_key_joinpath g "locked" plain_locked).
  rewrite (dirname_joinpath g "locked" plain_locked Hg).
  unfold fs_stat in Hd. now rewrite Hd.
Qed.

Lemma exists_find (fs : filesystem) (g f : string) :
  plain_name f ->
  git_fs_path_exists fs (git_str_joinpath g f)
  = match fs_find (git_str_joinpath g f) fs with Some _ => true | None => false end.
Proof.
  intros Hf. unfold git_fs_path_exists, fs_stat. now rewrite (fs_key_joinpath g f Hf).
Qed.

(** The closed form of a lock that meets no marker. *)
Lemma lock_unfold (fs : filesystem) (wt : git_worktree) (reason : option string) :
  let marker := git_str_joinpath (gitdir_path wt) "locked" in
  fs_find marker fs = None ->
  is_empty (gitdir_path wt) = false -> fs_stat fs (gitdir_path wt) = Some Dir ->
  git_worktree_lock fs wt reason
  = (0, set_locked wt true, fs_insert marker (File (default "" reason)) fs).
Proof.
  intros marker Hm Hg Hd.
  assert (Hkey : fs_key marker = marker) by apply (fs_key_joinpath _ "locked" plain_locked).
  assert (Hex : git_fs_path_exists fs marker = false).
  { unfold git_fs_path_exists, fs_stat. now rewrite Hkey, Hm. }
  pose proof (marker_parent fs _ Hg Hd) as Hp. fold marker in Hp. rewrite Hkey in Hp.
  unfold git_worktree_lock. rewrite is_locked_without_reason. fold marker.
  rewrite Hex. cbn [Z.b2z fst]. change (0 <? 0) with false. change (0 =? 0) with true.
  cbv [negb]. cbv iota.
  unfold git_futils_writebuffer. rewrite Hkey, Hm, Hp. reflexivity.
Qed.

(** X2.  Locking a worktree that carries no marker, in an administrative
    directory that exists, succeeds; it sets the flag of the handle and
    creates the marker with the reason as its content (empty for NULL).
    Afterwards the lock query answers 1 and hands back that reason, whatever
    the caller's buffer held, and a second lock fails with GIT_ELOCKED.
    Nothing but the marker changes. *)
Theorem lock_then_is_locked (fs : filesystem) (wt : git_worktree)
    (reason : option string) :
  let marker := git_str_joinpath (gitdir_path wt) "locked" in
  git_fs_path_exists fs marker = false ->
  gitdir_path wt <> "" -> fs_stat fs (gitdir_path wt) = Some Dir ->
  exists fs',
    git_worktree_lock fs wt reason = (0, set_locked wt true, fs')
    /\ git_futils_readbuffer fs' marker = Ok (default "" reason)
    /\ (forall b, git_worktree_is_locked fs' (Some b) (set_locked wt true)
                  = (1, Some (default "" reason)))
    /\ (forall reason', git_worktree_lock fs' (set_locked wt true) reason'
                        = (GIT_ELOCKED, set_locked wt true, fs'))
    /\ (forall k, k <> marker -> fs_find k fs' = fs_find k fs).
Proof.
  intros marker Hm Hg Hd.
  assert (Hg' : is_empty (gitdir_path wt) = false).
  { destruct (gitdir_path wt); [congruence|reflexivity]. }
  unfold marker in Hm. rewrite (exists_find _ _ _ plain_locked) in Hm. fold marker in Hm.
  assert (Hnone : fs_find marker fs = None) by (destruct (fs_find marker fs); congruence).
  exists (fs_insert marker (File (default "" reason)) fs).
  assert (Hs : fs_stat (fs_insert marker (File (default "" reason)) fs) marker
               = Some (File (default "" reason))).
  { unfold fs_stat, marker. rewrite (fs_key_joinpath _ "locked" plain_locked).
    apply fs_find_insert_eq. }
  split; [now apply lock_unfold|]. split; [|split; [|split]].
  - unfold git_futils_readbuffer. now rewrite Hs.
  - intros b. unfold git_worktree_is_locked. now apply is_locked_with_reason_file.
  - intros reason'. unfold git_worktree_lock. rewrite is_locked_without_reason.
    change (gitdir_path (set_locked wt true)) with (gitdir_path wt). fold marker.
    unfold git_fs_path_exists. rewrite Hs. reflexivity.
  - intros k Hk. now apply fs_find_insert_ne.
Qed.

Lemma lock_then_is_locked_witness :
  exists fs',
    git_worktree_lock fs_one wt_a (Some "busy") = (0, set_locked wt_a true, fs')
    /\ git_worktree_is_locked fs' (Some "stale") (set_locked wt_a true) = (1, Some "busy").
Proof.
  destruct (lock_then_is_locked fs_one wt_a (Some "busy") eq_refl
              ltac:(discriminate) eq_refl) as (fs' & H1 & _ & H2 & _).
  exists fs'. split; [exact H1|apply H2].
Defined.



(** X4.  Unlocking a worktree whose marker is a regular file removes the
    marker and nothing else, clears the flag of the handle and returns 0;
    afterwards the lock query answers 0 with an empty reason and a second
    unlock returns 1.  A marker that is a directory cannot be unlinked:
    unlock then returns -1 and changes nothing. *)
Theorem unlock_then_is_locked (fs : filesystem) (wt : git_worktree) :
  let marker := git_str_joinpath (gitdir_path wt) "locked" in
  (forall r, fs_stat fs marker = Some (File r) ->
     git_worktree_unlock fs wt = (0, set_locked wt false, fs_remove marker fs)
     /\ (forall b, git_worktree_is_locked (fs_remove marker fs) (Some b)
                     (set_locked wt false) = (0, Some ""))
     /\ git_worktree_unlock (fs_remove marker fs) (set_locked wt false)
        = (1, set_locked wt false, fs_remove marker fs)
     /\ (forall k, k <> marker -> fs_find k (fs_remove marker fs) = fs_find k fs))
  /\ (fs_stat fs marker = Some Dir -> git_worktree_unlock fs wt = (-1, wt, fs)).
Proof.
  intros marker.
  assert (Hkey : fs_key marker = marker) by apply (fs_key_joinpath _ "locked" plain_locked).
  split.
  - intros r Hr.
    assert (Hgone : fs_stat (fs_remove marker fs) marker = None).
    { unfold fs_stat. rewrite Hkey. apply fs_find_remove_eq. }
    split; [|split; [|split]].
    + unfold git_worktree_unlock. rewrite is_locked_without_reason. fold marker.
      unfold git_fs_path_exists. rewrite Hr. cbn [Z.b2z fst].
      change (1 <? 0) with false. change (1 =? 0) with false. cbv iota.
      unfold p_unlink. rewrite Hkey. unfold fs_stat in Hr. rewrite Hkey in Hr.
      rewrite Hr. reflexivity.
    + intros b. unfold git_worktree_is_locked. now apply is_locked_with_reason_absent.
    + unfold git_worktree_unlock. rewrite is_locked_without_reason.
      change (gitdir_path (set_locked wt false)) with (gitdir_path wt). fold marker.
      unfold git_fs_path_exists. rewrite Hgone. reflexivity.
    + intros k Hk. now apply fs_find_remove_ne.
  - intros Hd. unfold git_worktree_unlock. rewrite is_locked_without_reason. fold marker.
    unfold git_fs_path_exists. rewrite Hd. cbn [Z.b2z fst].
    change (1 <? 0) with false. change (1 =? 0) with false. cbv iota.
    unfold p_unlink. unfold fs_stat in Hd. rewrite Hd. reflexivity.
Qed.

Lemma unlock_then_is_locked_witness :
  git_worktree_unlock fs_locked wt_a
  = (0, set_locked wt_a false, fs_remove "/r/.git/worktrees/a/locked" fs_locked)
  /\ git_worktree_is_locked (fs_remove "/r/.git/worktrees/a/locked" fs_locked)
       (Some "stale") (set_locked wt_a false) = (0, Some "").
Proof.
  destruct (proj1 (unlock_then_is_locked fs_locked wt_a) "" eq_refl) as (H1 & H2 & _).
  split; [exact H1|apply H2].
Defined.

(** X5.  The lock query reports the marker and nothing else: a regular
    file [locked] gives 1 and its content as the reason (verbatim, not
    trimmed), no marker gives 0 and an empty reason, a marker that cannot be
    read as a file gives GIT_ENOTFOUND.  What the caller's buffer held
    before never shows in the answer, and without a buffer the query cannot
    fail. *)
Theorem is_locked_reports_marker (fs : filesystem) (wt : git_worktree) (b : string) :
  let marker := git_str_joinpath (gitdir_path wt) "locked" in
  git_worktree_is_locked fs (Some b) wt
  = match fs_stat fs marker with
    | Some (File r) => (1, Some r)
    | Some Dir => (GIT_ENOTFOUND, Some "")
    | None => (0, Some "")
    end
  /\ git_worktree_is_locked fs None wt
     = (match fs_stat fs marker with Some _ => 1 | None => 0 end, None).
Proof.
  intros marker. unfold git_worktree_is_locked. split.
  - destruct (fs_stat fs marker) as [[r|]|] eqn:E.
    + now apply is_locked_with_reason_file.
    + now apply is_locked_with_reason_dir.
    + now apply is_locked_with_reason_absent.
  - pose proof (is_locked_without_reason fs wt) as H.
    unfold git_worktree_is_locked in H. rewrite H. fold marker.
    unfold git_fs_path_exists. now destruct (fs_stat fs marker).
Qed.

(** ** Pruning, continued *)

Lemma prune_unfold_nonzero (fs : filesystem) (wt : git_worktree)
    (opts : option git_worktree_prune_options) :
  git_error__check_version (option_map prune_version opts)
    GIT_WORKTREE_PRUNE_OPTIONS_VERSION = 0 ->
  (git_worktree_is_prunable fs wt opts).1 <> 0 ->
  let o := default GIT_WORKTREE_PRUNE_OPTIONS_INIT opts in
  let admin := git_str_join3 (commondir_path wt) "worktrees" (name wt) in
  let wd := git_fs_path_dirname (gitlink_path wt) in
  let fs1 := fs_remove_tree (fs_key admin) fs in
  git_worktree_prune fs wt opts =
    if negb (git_fs_path_exists fs admin) then (-1, fs)
    else if negb (remove_working_tree o)
            || negb (git_fs_path_exists fs1 (gitlink_path wt)) then (0, fs1)
    else if negb (git_fs_path_exists fs1 wd) then (-1, fs1)
    else (0, fs_remove_tree (fs_key wd) fs1).
Proof.
  intros Hv Hp o admin wd fs1. unfold git_worktree_prune.
  rewrite Hv. change (0 <? 0) with false. cbv iota.
  rewrite (is_prunable_default fs wt opts Hv).
  apply Z.eqb_neq in Hp. rewrite Hp. cbv iota. fold o admin wd.
  unfold git_futils_rmdir_r. fold fs1. change (0 <? 0) with false. cbv iota.
  unfold remove_working_tree. now rewrite negb_involutive.
Qed.

Lemma prune_refused (fs : filesystem) (wt : git_worktree)
    (opts : option git_worktree_prune_options) :
  git_error__check_version (option_map prune_version opts)
    GIT_WORKTREE_PRUNE_OPTIONS_VERSION = 0 ->
  (git_worktree_is_prunable fs wt opts).1 = 0 ->
  git_worktree_prune fs wt opts = (-1, fs).
Proof.
  intros Hv Hp. unfold git_worktree_prune.
  rewrite Hv. change (0 <? 0) with false. cbv iota.
  rewrite (is_prunable_default fs wt opts Hv), Hp. reflexivity.
Qed.

(** What git_worktree_is_prunable answers once the options have passed the
    version check. *)
Lemma is_prunable_unfold (fs : filesystem) (wt : git_worktree)
    (opts : option git_worktree_prune_options) :
  git_error__check_version (option_map prune_version opts)
    GIT_WORKTREE_PRUNE_OPTIONS_VERSION = 0 ->
  let o := default GIT_WORKTREE_PRUNE_OPTIONS_INIT opts in
  git_worktree_is_prunable fs wt opts
  = match prunable_lock_guard fs wt o with
    | Some r => r
    | None =>
        if allow_valid o then (1, None)
        else if (git_worktree_validate fs wt).1 =? 0
             then (0, Some "not pruning valid working tree")
             else (1, (git_worktree_validate fs wt).2)
    end.
Proof.
  intros Hv o. unfold git_worktree_is_prunable. rewrite Hv.
  change (0 <? 0) with false. cbv iota. fold o.
  destruct (prunable_lock_guard fs wt o); [reflexivity|].
  unfold allow_valid. destruct (Z.land (prune_flags o) GIT_WORKTREE_PRUNE_VALID =? 0);
    [|reflexivity].
  cbv [negb]. now destruct (git_worktree_validate fs wt).
Qed.



(** X7.  git_worktree_prune tests the answer of the prune policy with
    [!], so an error counts as consent.  When the marker is a directory and
    the allow-locked flag is not set, git_worktree_is_prunable fails with
    GIT_ENOTFOUND, and prune goes on as for a prunable worktree: it removes
    the administrative directory if that exists. *)
Theorem prune_proceeds_on_policy_error (fs : filesystem) (wt : git_worktree)
    (opts : option git_worktree_prune_options) :
  git_error__check_version (option_map prune_version opts)
    GIT_WORKTREE_PRUNE_OPTIONS_VERSION = 0 ->
  let o := default GIT_WORKTREE_PRUNE_OPTIONS_INIT opts in
  let marker := git_str_joinpath (gitdir_path wt) "locked" in
  let admin := git_str_join3 (commondir_path wt) "worktrees" (name wt) in
  fs_stat fs marker = Some Dir -> allow_locked o = false ->
  git_worktree_is_prunable fs wt opts = (GIT_ENOTFOUND, None)
  /\ (git_fs_path_exists fs admin = true -> remove_working_tree o = false ->
      git_worktree_prune fs wt opts = (0, fs_remove_tree (fs_key admin) fs))
  /\ (git_fs_path_exists fs admin = true ->
      git_fs_path_exists (git_worktree_prune fs wt opts).2 admin = false).
Proof.
  intros Hv o marker admin Hd Hl.
  pose proof (is_prunable_unfold fs wt opts Hv) as Hu. cbv zeta in Hu. fold o in Hu.
  rewrite prunable_lock_guard_cases in Hu. fold marker in Hu.
  rewrite Hl, Hd in Hu.
  assert (Hne : (git_worktree_is_prunable fs wt opts).1 <> 0) by (rewrite Hu; discriminate).
  pose proof (prune_unfold_nonzero fs wt opts Hv Hne) as Hp. cbv zeta in Hp.
  fold o admin in Hp.
  assert (Hgone : forall fs0, git_fs_path_exists (fs_remove_tree (fs_key admin) fs0) admin
                              = false).
  { intros fs0. unfold git_fs_path_exists, fs_stat.
    now rewrite fs_find_remove_tree, in_tree_self. }
  split; [exact Hu|]. split.
  - intros He Hw. rewrite Hp, He, Hw. reflexivity.
  - intros He. rewrite Hp, He. change (negb true) with false. cbv iota.
    set (fs1 := fs_remove_tree (fs_key admin) fs).
    set (wd := git_fs_path_dirname (gitlink_path wt)).
    destruct (negb (remove_working_tree o) || negb (git_fs_path_exists fs1 (gitlink_path wt)));
      [apply Hgone|].
    destruct (negb (git_fs_path_exists fs1 wd)); cbn [snd]; [apply Hgone|].
    destruct (git_fs_path_exists (fs_remove_tree (fs_key wd) fs1) admin) eqn:E;
      [|reflexivity].
    apply exists_remove_tree in E. unfold fs1 in E. now rewrite Hgone in E.
Qed.

(** X8.  A prune cannot be repeated: for a worktree without its
    administrative directory [commondir_path/worktrees/name] prune returns
    -1 and changes nothing, whatever the options; and that is the state
    every prune that returned 0 leaves behind. *)
Theorem prune_not_repeatable (fs : filesystem) (wt : git_worktree)
    (opts opts' : option git_worktree_prune_options) :
  let admin := git_str_join3 (commondir_path wt) "worktrees" (name wt) in
  (git_fs_path_exists fs admin = false -> git_worktree_prune fs wt opts = (-1, fs))
  /\ ((git_worktree_prune fs wt opts).1 = 0 ->
      git_fs_path_exists (git_worktree_prune fs wt opts).2 admin = false
      /\ git_worktree_prune (git_worktree_prune fs wt opts).2 wt opts'
         = (-1, (git_worktree_prune fs wt opts).2)).
Proof.
  intros admin.
  assert (Hmiss : forall fs0 o0, git_fs_path_exists fs0 admin = false ->
                                 git_worktree_prune fs0 wt o0 = (-1, fs0)).
  { intros fs0 o0 He. unfold git_worktree_prune.
    destruct (_ <? 0); [reflexivity|]. destruct (_ =? 0); [reflexivity|].
    fold admin. now rewrite He. }
  split; [apply Hmiss|].
  intros H0.
  assert (Hgone : git_fs_path_exists (git_worktree_prune fs wt opts).2 admin = false);
    [|split; [exact Hgone|now apply Hmiss]].
  assert (Hrm : forall fs0, git_fs_path_exists (fs_remove_tree (fs_key admin) fs0) admin
                            = false).
  { intros fs0. unfold git_fs_path_exists, fs_stat.
    now rewrite fs_find_remove_tree, in_tree_self. }
  revert H0. unfold git_worktree_prune.
  destruct (_ <? 0); [discriminate|]. destruct (_ =? 0); [discriminate|].
  fold admin. destruct (negb (git_fs_path_exists fs admin)); [discriminate|].
  unfold git_futils_rmdir_r. change (0 <? 0) with false. cbv iota.
  destruct (_ || _); [intros _; apply Hrm|].
  destruct (negb _); [discriminate|]. intros _. cbn [snd].
  destruct (git_fs_path_exists (fs_remove_tree _ (fs_remove_tree (fs_key admin) fs)) admin)
    eqn:E; [|reflexivity].
  apply exists_remove_tree in E. now rewrite Hrm in E.
Qed.

Lemma prune_not_repeatable_witness :
  git_worktree_prune (git_worktree_prune fs_one wt_a (Some options_allow_valid)).2
    wt_a None
  = (-1, (git_worktree_prune fs_one wt_a (Some options_allow_valid)).2).
Proof.
  exact (proj2 (proj2 (prune_not_repeatable fs_one wt_a (Some options_allow_valid) None)
                  eq_refl)).
Defined.

(** ** Listing, continued *)

Lemma list_foreach_error (fs : filesystem) (dir : string) :
  forall fuel v i wd e v',
    list_foreach fuel fs dir wd v i 0 = Ok (e, v') -> e = 0.
Proof.
  induction fuel as [|fuel IH]; intros v i wd e v'; simpl.
  - now intros [= <- _].
  - destruct (v !! i) as [w|]; [|now intros [= <- _]].
    destruct (is_worktree_private_directory fs (dir +:+ w)); simpl; [|apply IH].
    destruct (get_worktree_gitdir_from_private_directory fs wd (dir +:+ w)) as [e1 wd1].
    destruct (e1 <? 0); [discriminate|].
    unfold git_vector_set. change (0 <? 0) with false. cbv iota. apply IH.
Qed.

Lemma list_kept_sublist (fs : filesystem) (dir : string) :
  forall n ws, (length ws <= n)%nat -> list_kept fs dir ws `sublist_of` ws.
Proof.
  induction n as [|n IH]; intros ws Hn.
  - destruct ws; [constructor|simpl in Hn; lia].
  - destruct ws as [|w rest]; [constructor|]. simpl in *.
    destruct (is_worktree_private_directory fs (dir +:+ w)).
    + apply sublist_skip, IH. lia.
    + destruct rest as [|w' rest'].
      * apply sublist_nil_l.
      * apply sublist_cons, sublist_skip, IH. simpl in Hn. lia.
Qed.

Lemma list_kept_complete (fs : filesystem) (dir : string) :
  forall n ws w, (length ws <= n)%nat ->
    w ∈ ws -> is_worktree_private_directory fs (dir +:+ w) = true ->
    w ∈ list_kept fs dir ws.
Proof.
  induction n as [|n IH]; intros ws w Hn Hin Hw.
  - destruct ws; [now apply elem_of_nil in Hin|simpl in Hn; lia].
  - destruct ws as [|w0 rest]; [now apply elem_of_nil in Hin|]. simpl in *.
    destruct (is_worktree_private_directory fs (dir +:+ w0)) eqn:E0.
    + apply elem_of_cons in Hin as [->|Hin]; [apply list_elem_of_here|].
      apply list_elem_of_further, IH; [lia|exact Hin|exact Hw].
    + apply elem_of_cons in Hin as [->|Hin]; [congruence|].
      destruct rest as [|w' rest']; [now apply elem_of_nil in Hin|].
      apply elem_of_cons in Hin as [->|Hin]; [apply list_elem_of_here|].
      apply list_elem_of_further, IH; [simpl in Hn; lia|exact Hin|exact Hw].
Qed.

Lemma list_kept_all (fs : filesystem) (dir : string) (ws : list string) :
  (forall w, w ∈ ws -> is_worktree_private_directory fs (dir +:+ w) = true) ->
  list_kept fs dir ws = ws.
Proof.
  induction ws as [|w rest IH]; intros H; [reflexivity|]. simpl.
  rewrite (H w (list_elem_of_here _ _)). f_equal. apply IH.
  intros w0 Hin. apply H. now apply list_elem_of_further.
Qed.



(** ** Lookup, continued *)

Lemma ends_with_slash_last_char (s : string) :
  ends_with_slash s = last_char_is is_slash s.
Proof.
  induction s as [|c s IH]; [reflexivity|]. destruct s; [reflexivity|exact IH].
Qed.

Lemma ends_with_slash_plain (x f : string) :
  plain_name f -> ends_with_slash (x +:+ f) = false.
Proof.
  intros [Hs He]. induction x as [|c x IH].
  - rewrite append_nil. destruct (ends_with_slash f) eqn:E; [|reflexivity].
    apply ends_with_slash_has_slash in E. congruence.
  - rewrite append_cons. destruct (x +:+ f) as [|c' r] eqn:E; [|exact IH].
    destruct x; [|discriminate]. rewrite append_nil in E. now subst f.
Qed.

Lemma fs_key_plain_end (x f : string) : plain_name f -> fs_key (x +:+ f) = x +:+ f.
Proof.
  intros Hf. pose proof Hf as [Hs He]. unfold fs_key.
  rewrite rstrip_append by (auto using rstrip_plain).
  now rewrite (is_empty_append _ _ He).
Qed.

(** A directory path with a slash appended joins like the path itself. *)
Lemma joinpath_slash (d b : string) :
  ends_with_slash d = false -> is_empty d = false ->
  git_str_joinpath (d +:+ "/") b = git_str_joinpath d b.
Proof.
  intros He Hd. unfold git_str_joinpath.
  rewrite (is_empty_append d "/" eq_refl), ends_with_slash_append, Hd, He.
  now rewrite !append_assoc.
Qed.

Lemma read_link_slash (fs : filesystem) (d file : string) :
  ends_with_slash d = false -> is_empty d = false ->
  git_worktree__read_link fs (d +:+ "/") file = git_worktree__read_link fs d file.
Proof.
  intros He Hd. unfold git_worktree__read_link, git_fs_path_apply_relative.
  rewrite (joinpath_slash d file He Hd).
  destruct (git_futils_readbuffer fs (git_str_joinpath d file)); [|reflexivity].
  cbv zeta. now rewrite (joinpath_slash d _ He Hd).
Qed.

Lemma private_directory_slash (fs : filesystem) (d : string) :
  ends_with_slash d = false -> is_empty d = false ->
  is_worktree_private_directory fs (d +:+ "/") = is_worktree_private_directory fs d.
Proof.
  intros He Hd. unfold is_worktree_private_directory, git_fs_path_contains_file.
  now rewrite !(joinpath_slash d _ He Hd).
Qed.

Lemma fs_children_plain (fs : filesystem) (d w : string) :
  w ∈ fs_children fs d -> plain_name w.
Proof.
  unfold fs_children. intros (e & _ & H)%list_elem_of_omap.
  unfold child_name in H. destruct (strip_prefix (dir_prefix d) e.1) as [n|]; [|discriminate].
  destruct (is_empty n || has_slash n) eqn:E; [discriminate|].
  injection H as <-. apply orb_false_elim in E as [E1 E2]. now split.
Qed.

(** What a handle that open_worktree_dir has built holds. *)
Lemma open_worktree_dir_fields (fs : filesystem) (parent : option string)
    (dir nm : string) (e : Z) (wt : git_worktree) :
  open_worktree_dir fs parent dir nm = (e, Some wt) ->
  e = 0
  /\ is_worktree_private_directory fs dir = true
  /\ name wt = nm /\ parent_path wt = parent
  /\ gitdir_path wt = dir_prefix (fs_key dir)
  /\ git_worktree__read_link fs dir "gitdir" = Some (gitlink_path wt)
  /\ git_worktree__read_link fs dir "commondir" = Some (commondir_path wt)
  /\ worktree_path wt = git_fs_path_dirname (gitlink_path wt).
Proof.
  unfold open_worktree_dir.
  destruct (is_worktree_private_directory fs dir); [|discriminate].
  change (git_path_validate_length dir <? 0) with false. cbv [negb].
  destruct (git_worktree__read_link fs dir "commondir") as [c|]; [|discriminate].
  destruct (git_worktree__read_link fs dir "gitdir") as [g|]; [|discriminate].
  unfold git_fs_path_prettify_dir. destruct (fs_stat fs dir); [|discriminate].
  cbv zeta. rewrite is_locked_without_reason. cbn [fst].
  destruct (git_fs_path_exists fs _); cbn [Z.b2z];
    intros [= <- <-]; repeat split; reflexivity.
Qed.

(** The entry that the first-match scan settles on. *)
Lemma scan_first_match_entry (fs : filesystem) (repo : git_repository)
    (nm dir : string) :
  forall ws e wt,
    scan_first_match fs repo nm dir ws = (e, Some wt) ->
    e = 0
    /\ exists pre w post,
         ws = pre ++ w :: post
         /\ (forall w', w' ∈ pre -> entry_verdict_of fs nm (dir +:+ w') = Skipped)
         /\ entry_verdict_of fs nm (dir +:+ w) = Matched
         /\ open_worktree_dir fs (git_repository_workdir repo) (dir +:+ w) nm
            = (0, Some wt).
Proof.
  induction ws as [|w rest IH]; intros e wt; simpl; [discriminate|].
  destruct (entry_verdict_of fs nm (dir +:+ w)) eqn:Ev.
  - intros H. destruct (IH _ _ H) as (-> & pre & w1 & post & -> & Hpre & Hm & Ho).
    split; [reflexivity|]. exists (w :: pre), w1, post.
    split; [reflexivity|]. split; [|split; assumption].
    intros w' [->|Hin]%elem_of_cons; [exact Ev|now apply Hpre].
  - discriminate.
  - destruct (open_worktree_dir fs (git_repository_workdir repo) (dir +:+ w) nm)
      as [e2 out] eqn:Eo.
    destruct (e2 <? 0) eqn:He2; [discriminate|].
    intros [= <- ->]. split; [reflexivity|].
    exists [], w, rest. split; [reflexivity|].
    split; [intros w' Hin; now apply elem_of_nil in Hin|]. split; [exact Ev|].
    destruct (open_worktree_dir_fields _ _ _ _ _ _ Eo) as [-> _]. exact Eo.
Qed.

(** What a successful lookup hands out, entry and fields. *)
Lemma lookup_some (found_uninit : Z) (fs : filesystem)
    (repo : git_repository) (nm : string) (e : Z) (wt : git_worktree) :
  git_worktree_lookup found_uninit fs repo nm = (e, Some wt) ->
  let path := git_str_joinpath (commondir repo) "worktrees/" in
  e = 0
  /\ git_worktree_name (Some wt) = Some nm
  /\ parent_path wt = git_repository_workdir repo
  /\ locked wt = git_fs_path_exists fs (git_str_joinpath (gitdir_path wt) "locked")
  /\ exists pre w post,
       fs_children fs (fs_key path) = pre ++ w :: post
       /\ (forall w', w' ∈ pre -> entry_verdict_of fs nm (path +:+ w') = Skipped)
       /\ entry_verdict_of fs nm (path +:+ w) = Matched
       /\ gitdir_path wt = path +:+ w +:+ "/"
       /\ is_worktree_private_directory fs (gitdir_path wt) = true
       /\ git_worktree__read_link fs (gitdir_path wt) "gitdir" = Some (gitlink_path wt)
       /\ git_worktree__read_link fs (gitdir_path wt) "commondir"
          = Some (commondir_path wt)
       /\ git_worktree_path (Some wt)
          = Some (git_fs_path_dirname (gitlink_path wt)).
Proof.
  intros H path. pose proof (lookup_locked _ _ _ _ _ _ H) as Hlocked.
  rewrite lookup_characterised in H. fold path in H.
  destruct (negb (git_fs_path_exists fs path) || git_fs_path_is_empty_dir fs path).
  { destruct (found_uninit =? 0); discriminate. }
  unfold git_fs_path_dirload in H.
  destruct (fs_stat fs path) as [[c|]|]; [discriminate| |discriminate].
  apply scan_first_match_entry in H as (-> & pre & w & post & Hws & Hpre & Hm & Ho).
  apply open_worktree_dir_fields in Ho as (_ & Hpriv & Hn & Hp & Hg & Hl & Hc & Hw).
  assert (Hplain : plain_name w).
  { apply (fs_children_plain fs (fs_key path)). rewrite Hws.
    apply elem_of_app. right. apply list_elem_of_here. }
  pose proof (ends_with_slash_plain path w Hplain) as Hend.
  assert (Hne : is_empty (path +:+ w) = false) by (apply is_empty_append, Hplain).
  assert (Hdir : gitdir_path wt = (path +:+ w) +:+ "/").
  { rewrite Hg, (fs_key_plain_end path w Hplain). unfold dir_prefix. now rewrite Hend. }
  split; [reflexivity|]. split; [now rewrite <- Hn|]. split; [exact Hp|].
  split; [exact Hlocked|].
  exists pre, w, post. split; [exact Hws|]. split; [exact Hpre|]. split; [exact Hm|].
  split; [now rewrite Hdir, append_assoc|].
  rewrite Hdir.
  split; [now rewrite private_directory_slash|].
  split; [now rewrite read_link_slash|].
  split; [now rewrite read_link_slash|].
  simpl. now rewrite Hw.
Qed.

(** X10.  The worktree that a successful lookup hands out.  It belongs to
    the first entry of the registry, in enumeration order, that is an
    administrative directory whose working directory has the final path
    segment of the requested name; its administrative directory is that
    entry (with a slash at the end) and is valid; its link paths are what
    the two link files of the entry resolve to, and its path is the
    directory of the [.git] link.  The name it reports is the argument of
    lookup as given, not the name of the entry; its parent is the working
    directory of the repository; its flag mirrors the marker. *)
Theorem lookup_result_fields (found_uninit : Z) (fs : filesystem)
    (repo : git_repository) (nm : string) (e : Z) (wt : git_worktree) :
  git_worktree_lookup found_uninit fs repo nm = (e, Some wt) ->
  let path := git_str_joinpath (commondir repo) "worktrees/" in
  e = 0
  /\ git_worktree_name (Some wt) = Some nm
  /\ parent_path wt = git_repository_workdir repo
  /\ locked wt = git_fs_path_exists fs (git_str_joinpath (gitdir_path wt) "locked")
  /\ exists pre w post,
       fs_children fs (fs_key path) = pre ++ w :: post
       /\ (forall w', w' ∈ pre -> entry_verdict_of fs nm (path +:+ w') = Skipped)
       /\ entry_verdict_of fs nm (path +:+ w) = Matched
       /\ gitdir_path wt = path +:+ w +:+ "/"
       /\ is_worktree_private_directory fs (gitdir_path wt) = true
       /\ git_worktree__read_link fs (gitdir_path wt) "gitdir" = Some (gitlink_path wt)
       /\ git_worktree__read_link fs (gitdir_path wt) "commondir"
          = Some (commondir_path wt)
       /\ git_worktree_path (Some wt)
          = Some (git_fs_path_dirname (gitlink_path wt)).
Proof. apply lookup_some. Qed.

Lemma lookup_result_fields_witness :
  exists wt, git_worktree_lookup 0 fs_one repo_r "/elsewhere/a" = (0, Some wt)
    /\ git_worktree_name (Some wt) = Some "/elsewhere/a"
    /\ gitdir_path wt = "/r/.git/worktrees/a/".
Proof.
  destruct (git_worktree_lookup 0 fs_one repo_r "/elsewhere/a") as [e [wt|]] eqn:E;
    [|vm_compute in E; discriminate].
  destruct (lookup_result_fields 0 fs_one repo_r "/elsewhere/a" e wt E)
    as (-> & Hn & _).
  exists wt. split; [reflexivity|]. split; [exact Hn|].
  vm_compute in E. now injection E as <-.
Defined.

(** ** Adding a worktree, continued *)

(** X11.  git_worktree_add looks at the reference of the options before
    it touches anything: a reference that is not a branch, or a branch that
    is checked out already, makes it return -1 with no worktree and with
    the file system as it was. *)
Theorem add_rejects_unusable_reference (col : collaborators) (fuel : nat)
    (found_uninit : Z) (fs : filesystem) (repo : git_repository)
    (nm worktree : string) (opts : git_worktree_add_options) (r : git_reference) :
  git_error__check_version (Some (add_version opts)) GIT_WORKTREE_ADD_OPTIONS_VERSION = 0 ->
  ref opts = Some r ->
  git_reference_is_branch r = false \/ git_branch_is_checked_out r = true ->
  git_worktree_add col fuel found_uninit fs repo nm worktree (Some opts)
  = (Returned (-1) None, fs).
Proof.
  intros Hv Hr Hbad. unfold git_worktree_add.
  change (option_map add_version (Some opts)) with (Some (add_version opts)).
  change (default GIT_WORKTREE_ADD_OPTIONS_INIT (Some opts)) with opts.
  rewrite Hv. change (0 <? 0) with false. cbv iota.
  unfold mbind, add_check_ref. rewrite Hr.
  destruct Hbad as [H|H].
  - rewrite H. reflexivity.
  - rewrite H. destruct (git_reference_is_branch r); reflexivity.
Qed.

Lemma add_rejects_unusable_reference_witness :
  git_worktree_add quiet_collaborators 128 0 fs_one repo_r "feature" "/w/b"
    (Some {| add_version := 1; lock := false;
             ref := Some {| ref_name := "refs/heads/main"; ref_is_branch := true;
                            ref_checked_out := true |};
             checkout_options := GIT_CHECKOUT_OPTIONS_INIT |})
  = (Returned (-1) None, fs_one).
Proof.
  apply (add_rejects_unusable_reference _ _ _ _ _ _ _ _
           {| ref_name := "refs/heads/main"; ref_is_branch := true;
              ref_checked_out := true |}); [reflexivity|reflexivity|now right].
Defined.

Lemma final_lookup (found_uninit : Z) (fs fs' : filesystem)
    (repo : git_repository) (worktree : string) (out : option git_worktree) :
  (let! res := query (fun fs => git_worktree_lookup found_uninit fs repo worktree) in
   if res.1 <? 0 then mfail res.1 else mret res.2) fs = (Ok out, fs') ->
  fs' = fs
  /\ exists e, git_worktree_lookup found_uninit fs repo worktree = (e, out)
               /\ (e <? 0) = false.
Proof.
  intros H. apply mbind_ok in H as (res & fs1 & Hq & H).
  apply query_ok in Hq as [-> ->].
  destruct (git_worktree_lookup found_uninit fs repo worktree) as [e o] eqn:El.
  simpl in H. destruct (e <? 0) eqn:He; [discriminate|].
  injection H as -> <-. split; [reflexivity|]. now exists e.
Qed.

(** X12.  The worktree that a successful git_worktree_add returns is the
    answer of git_worktree_lookup for the path of the new working directory
    on the file system that add leaves behind.  So it is found by the final
    segment of that path, the name it reports is the path, its parent is
    the working directory of the repository, and its administrative
    directory is a valid one. *)
Theorem add_returns_lookup (col : collaborators) (fuel : nat) (found_uninit : Z)
    (fs : filesystem) (repo : git_repository) (nm worktree : string)
    (opts : option git_worktree_add_options) (out : git_worktree) (fs' : filesystem) :
  git_worktree_add col fuel found_uninit fs repo nm worktree opts
  = (Returned 0 (Some out), fs') ->
  git_worktree_lookup found_uninit fs' repo worktree = (0, Some out)
  /\ git_worktree_name (Some out) = Some worktree
  /\ parent_path out = git_repository_workdir repo
  /\ is_worktree_private_directory fs' (gitdir_path out) = true
  /\ locked out = git_fs_path_exists fs' (git_str_joinpath (gitdir_path out) "locked").
Proof.
  intros Hadd. unfold git_worktree_add in Hadd.
  destruct (git_error__check_version _ _ <? 0); [discriminate|].
  set (wtopts := default GIT_WORKTREE_ADD_OPTIONS_INIT opts) in *.
  destruct ((let! _ := add_check_ref wtopts in add_worktrees_dir repo) fs)
    as [[gitdir0|e] fs1]; [|discriminate].
  destruct (private_subdir_loop fuel fs1 gitdir0 (git_fs_path_basename worktree) 1)
    as [[nm0 tmp|]|]; [|discriminate|discriminate].
  destruct (add_after_search col found_uninit repo nm worktree wtopts tmp fs1)
    as [r fs4] eqn:Ea.
  assert (r = Ok (Some out) /\ fs4 = fs') as [-> ->].
  { destruct r as [o|c]; simpl in Hadd; split; congruence. }
  clear Hadd. unfold add_after_search in Ea.
  apply mbind_ok in Ea as ([gitdir wddir] & fs2 & _ & Ea).
  apply mbind_ok in Ea as ([] & fs3 & _ & Hpop).
  unfold add_populate in Hpop.
  bind_inv Hpop u fs6 Hlinks. bind_inv Hpop r fs7 Href. bind_inv Hpop u fs8 Hco.
  apply final_lookup in Hpop as (-> & e & Hl & He).
  destruct (lookup_some _ _ _ _ _ _ Hl)
    as (-> & Hn & Hp & Hlk & pre & w & post & _ & _ & _ & _ & Hpriv & _).
  repeat split; assumption.
Qed.

Lemma add_returns_lookup_witness :
  exists out,
    git_worktree_lookup 0 added_b.2 repo_r "/w/b" = (0, Some out)
    /\ git_worktree_name (Some out) = Some "/w/b".
Proof.
  destruct added_b as [[e [out|]| |] fs'] eqn:E; try (vm_compute in E; discriminate).
  assert (e = 0) as -> by (vm_compute in E; congruence).
  exists out.
  destruct (add_returns_lookup quiet_collaborators 128 0 fs_plain repo_r "feature"
              "/w/b" (Some lock_options) out fs' E) as (H1 & H2 & _).
  split; assumption.
Defined.

Lemma has_slash_last_segment (s : string) : has_slash (last_segment s) = false.
Proof.
  induction s as [|c s IH]; [reflexivity|].
  change (last_segment (String c s))
    with (if has_slash (String c s) then last_segment s else String c s).
  destruct (has_slash (String c s)) eqn:E; [exact IH|exact E].
Qed.

Lemma last_segment_nonempty (s : string) :
  ends_with_slash s = false -> is_empty s = false -> is_empty (last_segment s) = false.
Proof.
  induction s as [|c s IH]; [discriminate|]. intros He _.
  change (last_segment (String c s))
    with (if has_slash (String c s) then last_segment s else String c s).
  destruct (has_slash (String c s)) eqn:E; [|reflexivity].
  destruct s as [|c' s'].
  - simpl in E, He. rewrite orb_false_r in E. congruence.
  - apply IH; [exact He|reflexivity].
Qed.

(** The final segment of a path that has one is a plain name. *)
Lemma basename_plain (p : string) :
  is_empty (rstrip is_slash p) = false -> plain_name (git_fs_path_basename p).
Proof.
  intros Ht. unfold git_fs_path_basename.
  assert (Hp : is_empty p = false) by (destruct p; [discriminate|reflexivity]).
  rewrite Hp, Ht. split; [apply has_slash_last_segment|].
  apply last_segment_nonempty; [|exact Ht].
  rewrite ends_with_slash_last_char.
  destruct (rstrip_spec is_slash p) as (ws & _ & _ & H). exact H.
Qed.

Lemma sprintf_plain_all :
  forallb (fun k => negb (has_slash (sprintf_d (Z.of_nat k)))) (seq 1 127) = true.
Proof. vm_compute. reflexivity. Qed.

Lemma sprintf_plain (k : nat) :
  (1 <= k <= 127)%nat -> has_slash (sprintf_d (Z.of_nat k)) = false.
Proof.
  intros Hk. pose proof sprintf_plain_all as H.
  rewrite forallb_forall in H. specialize (H k).
  apply negb_true_iff, H, in_seq. lia.
Qed.

Lemma is_empty_append_l (s t : string) : is_empty s = false -> is_empty (s +:+ t) = false.
Proof. destruct s; [discriminate|]. now rewrite append_cons. Qed.

Lemma candidate_plain (base : string) (k : nat) :
  plain_name base -> (k <= 127)%nat -> plain_name (candidate base k).
Proof.
  intros Hb. induction k as [|k IH]; intros Hk; [exact Hb|].
  destruct IH as [Hs He]; [lia|]. simpl. split.
  - rewrite has_slash_append, Hs. apply sprintf_plain. lia.
  - now apply is_empty_append_l.
Qed.

Lemma joinpath_nonempty (a f : string) :
  plain_name f -> is_empty (git_str_joinpath a f) = false.
Proof. intros Hf. rewrite (joinpath_shape a f Hf). apply is_empty_append, Hf. Qed.

Lemma fs_find_app (k : string) (fs l : filesystem) :
  fs_find k (fs ++ l)
  = match fs_find k fs with Some n => Some n | None => fs_find k l end.
Proof.
  induction fs as [|[k' n'] fs IH]; [reflexivity|]. simpl.
  destruct (bool_decide (k' = k)); [reflexivity|exact IH].
Qed.

Lemma plain_worktrees : plain_name "worktrees".
Proof. split; reflexivity. Qed.

(** X13.  git_worktree_add does not undo what it has done.  In a
    repository whose registry [commondir/worktrees] exists, with valid
    options and a usable reference, adding a worktree at a path that exists
    already fails with GIT_EEXISTS at the creation of the working
    directory, and by then the administrative directory for it has been
    created under the first free candidate name: it is the one change that
    the failed call leaves in the file system.  (With all 128 candidate
    names taken the call ends in the overrun of the suffix buffer
    instead.) *)
Theorem add_existing_workdir_leaves_admin_dir (col : collaborators) (fuel : nat)
    (found_uninit : Z) (fs : filesystem) (repo : git_repository)
    (nm worktree : string) (opts : option git_worktree_add_options) :
  let wtopts := default GIT_WORKTREE_ADD_OPTIONS_INIT opts in
  let registry := git_str_joinpath (commondir repo) "worktrees" in
  let base := git_fs_path_basename worktree in
  let admin k := git_str_joinpath registry (candidate base k) in
  (128 <= fuel)%nat ->
  git_error__check_version (option_map add_version opts)
    GIT_WORKTREE_ADD_OPTIONS_VERSION = 0 ->
  (forall r, ref wtopts = Some r ->
     git_reference_is_branch r = true /\ git_branch_is_checked_out r = false) ->
  fs_stat fs registry = Some Dir ->
  is_empty (rstrip is_slash worktree) = false ->
  git_fs_path_exists fs worktree = true ->
  (exists k, (k < 128)%nat
     /\ git_fs_path_exists fs (admin k) = false
     /\ (forall j, (j < k)%nat -> git_fs_path_exists fs (admin j) = true)
     /\ git_worktree_add col fuel found_uninit fs repo nm worktree opts
        = (Returned GIT_EEXISTS None, fs ++ [(admin k, Dir)]))
  \/ ((forall j, (j < 128)%nat -> git_fs_path_exists fs (admin j) = true)
      /\ git_worktree_add col fuel found_uninit fs repo nm worktree opts
         = (Undefined, fs)).
Proof.
  intros wtopts registry base admin Hfuel Hv Href Hreg Hname Hex.
  assert (Hpre : (let! _ := add_check_ref wtopts in add_worktrees_dir repo) fs
                 = (Ok registry, fs)).
  { unfold mbind, add_check_ref.
    assert (Hc : (match ref wtopts with
                  | Some r => if negb (git_reference_is_branch r) then mfail (-1)
                              else if git_branch_is_checked_out r then mfail (-1)
                              else mret tt
                  | None => mret tt
                  end) fs = (Ok tt, fs)).
    { destruct (ref wtopts) as [r|]; [|reflexivity].
      destruct (Href r eq_refl) as [-> ->]. reflexivity. }
    rewrite Hc. unfold add_worktrees_dir, mbind, query. fold registry.
    unfold git_fs_path_exists. rewrite Hreg. reflexivity. }
  pose proof (private_subdir_loop_total fs registry base fuel Hfuel) as Hs.
  unfold git_worktree_add. rewrite Hv. change (0 <? 0) with false. cbv iota.
  fold wtopts. rewrite Hpre. fold base.
  destruct (private_subdir_loop fuel fs registry base 1) as [[nm0 tmp|]|];
    cbn [search_outcome] in Hs; [|right; auto|contradiction].
  left. destruct Hs as (k & Hk & -> & -> & Hfree & Htaken).
  exists k. fold (admin k) in Hfree |- *.
  split; [exact Hk|]. split; [exact Hfree|]. split; [exact Htaken|].
  assert (Hplain : plain_name (candidate base k)).
  { apply candidate_plain; [now apply basename_plain|lia]. }
  assert (Hkey : fs_key (admin k) = admin k) by apply (fs_key_joinpath _ _ Hplain).
  assert (Hnone : fs_find (admin k) fs = None).
  { unfold git_fs_path_exists, fs_stat in Hfree. rewrite Hkey in Hfree.
    destruct (fs_find (admin k) fs); [discriminate|reflexivity]. }
  assert (Hparent : parent_is_dir fs (admin k) = true).
  { unfold parent_is_dir, admin.
    rewrite (dirname_joinpath registry _ Hplain (joinpath_nonempty _ _ plain_worktrees)).
    unfold fs_stat in Hreg. now rewrite Hreg. }
  assert (Hmk : git_futils_mkdir fs (admin k) true false = (0, fs ++ [(admin k, Dir)])).
  { unfold git_futils_mkdir. now rewrite Hkey, Hnone, Hparent. }
  assert (Hstat : fs_stat (fs ++ [(admin k, Dir)]) (admin k) = Some Dir).
  { unfold fs_stat. rewrite Hkey, fs_find_app, Hnone. simpl.
    now rewrite bool_decide_eq_true_2. }
  assert (Hwd : git_futils_mkdir (fs ++ [(admin k, Dir)]) worktree true true
                = (GIT_EEXISTS, fs ++ [(admin k, Dir)])).
  { unfold git_futils_mkdir. rewrite fs_find_app.
    unfold git_fs_path_exists, fs_stat in Hex.
    destruct (fs_find (fs_key worktree) fs) as [[c|]|];
      [reflexivity|reflexivity|discriminate]. }
  unfold add_after_search, add_create_dirs, mbind, status, attempt.
  rewrite Hmk. change (0 <? 0) with false. cbv iota.
  unfold git_fs_path_prettify_dir. rewrite Hstat, Hwd. reflexivity.
Qed.

Lemma add_existing_workdir_leaves_admin_dir_witness :
  git_worktree_add quiet_collaborators 128 0 fs_one repo_r "feature" "/w/a" None
  = (Returned GIT_EEXISTS None, fs_one ++ [("/r/.git/worktrees/a1", Dir)]).
Proof.
  destruct (add_existing_workdir_leaves_admin_dir quiet_collaborators 128 0 fs_one
              repo_r "feature" "/w/a" None (le_n _) eq_refl
              ltac:(intros r; discriminate) eq_refl eq_refl eq_refl)
    as [(k & Hk & Hfree & Htaken & H)|[Hall _]].
  - destruct k as [|[|k]].
    + vm_compute in Hfree. discriminate Hfree.
    + exact H.
    + specialize (Htaken 1%nat ltac:(lia)). vm_compute in Htaken. discriminate Htaken.
  - specialize (Hall 1%nat ltac:(lia)). vm_compute in Hall. discriminate Hall.
Defined.

(** ** What git_worktree_add leaves in place *)

Lemma exists_insert (k : string) (n : node) (fs : filesystem) (p : string) :
  git_fs_path_exists fs p = true -> git_fs_path_exists (fs_insert k n fs) p = true.
Proof.
  unfold git_fs_path_exists, fs_stat. intros H.
  destruct (decide (fs_key p = k)) as [->|Hne].
  - now rewrite fs_find_insert_eq.
  - now rewrite fs_find_insert_ne.
Qed.

Lemma exists_app (fs l : filesystem) (p : string) :
  git_fs_path_exists fs p = true -> git_fs_path_exists (fs ++ l) p = true.
Proof.
  unfold git_fs_path_exists, fs_stat. rewrite fs_find_app.
  now destruct (fs_find (fs_key p) fs).
Qed.

Lemma mkdir_each_keeps (ks : list string) :
  forall fs p, git_fs_path_exists fs p = true ->
               git_fs_path_exists (mkdir_each fs ks).2 p = true.
Proof.
  induction ks as [|k ks IH]; intros fs p H; [exact H|]. simpl.
  destruct (fs_find k fs) as [[c|]|]; [exact H|now apply IH|].
  apply IH. now apply exists_app.
Qed.

Lemma mkdir_keeps (p0 : string) (excl recursive : bool) :
  keeps_paths (fun fs => (git_futils_mkdir fs p0 excl recursive).2).
Proof.
  intros fs p H. unfold git_futils_mkdir.
  destruct (fs_find (fs_key p0) fs) as [[c|]|].
  - now destruct excl.
  - now destruct excl.
  - destruct recursive; [now apply mkdir_each_keeps|].
    destruct (parent_is_dir fs (fs_key p0)); [now apply exists_app|exact H].
Qed.

Lemma writebuffer_keeps (content p0 : string) (excl : bool) :
  keeps_paths (fun fs => (git_futils_writebuffer fs content p0 excl).2).
Proof.
  intros fs p H. unfold git_futils_writebuffer.
  destruct (fs_find (fs_key p0) fs) as [[c|]|]; [|exact H|].
  - destruct excl; [exact H|now apply exists_insert].
  - destruct (parent_is_dir fs (fs_key p0)); [now apply exists_insert|exact H].
Qed.

Lemma p_creat_keeps (p0 : string) : keeps_paths (fun fs => (p_creat fs p0).2).
Proof.
  intros fs p H. unfold p_creat.
  destruct (fs_find (fs_key p0) fs) as [[c|]|]; [now apply exists_insert|exact H|].
  destruct (parent_is_dir fs (fs_key p0)); [now apply exists_insert|exact H].
Qed.

Lemma grows_bind {A B : Type} (m : M A) (f : A -> M B) :
  grows m -> (forall a, grows (f a)) -> grows (mbind m f).
Proof.
  intros Hm Hf fs p H. unfold mbind. specialize (Hm fs p H). cbv beta in Hm.
  destruct (m fs) as [[a|e] fs1]; [|exact Hm]. now apply (Hf a).
Qed.

Lemma grows_ret {A : Type} (a : A) : grows (mret a).
Proof. intros fs p H. exact H. Qed.

Lemma grows_fail {A : Type} (e : Z) : grows (@mfail A e).
Proof. intros fs p H. exact H. Qed.

Lemma grows_query {A : Type} (f : filesystem -> A) : grows (query f).
Proof. intros fs p H. exact H. Qed.

Lemma grows_attempt {A : Type} (f : filesystem -> result A) : grows (attempt f).
Proof. intros fs p H. exact H. Qed.

Lemma grows_status (f : filesystem -> Z * filesystem) :
  keeps_paths (fun fs => (f fs).2) -> grows (status f).
Proof.
  intros Hf fs p H. unfold status. specialize (Hf fs p H). cbv beta in Hf.
  destruct (f fs) as [r fs1]. now destruct (r <? 0).
Qed.

Lemma add_after_search_grows (col : collaborators) (found_uninit : Z)
    (repo : git_repository) (nm worktree : string)
    (wtopts : git_worktree_add_options) (tmp : string) :
  never_remove col ->
  grows (add_after_search col found_uninit repo nm worktree wtopts tmp).
Proof.
  intros (Hb & Hh & Hc). unfold add_after_search. apply grows_bind.
  { unfold add_create_dirs.
    apply grows_bind; [apply grows_status, mkdir_keeps|intros _].
    apply grows_bind; [apply grows_attempt|intros g].
    apply grows_bind; [apply grows_status, mkdir_keeps|intros _].
    apply grows_bind; [apply grows_attempt|intros w]. apply grows_ret. }
  intros [gitdir wddir]. apply grows_bind.
  { unfold add_lock. destruct (lock wtopts); [|apply grows_ret].
    apply grows_bind; [apply grows_status, p_creat_keeps|intros _; apply grows_ret]. }
  intros _. unfold add_populate. apply grows_bind.
  { unfold add_link_files, write_wtfile.
    apply grows_bind; [apply grows_status, writebuffer_keeps|intros _].
    apply grows_bind; [apply grows_query|intros [buf|e]; [|apply grows_fail]].
    apply grows_bind; [apply grows_status, writebuffer_keeps|intros _].
    apply grows_bind; [apply grows_status, writebuffer_keeps|intros _; apply grows_ret]. }
  intros _. apply grows_bind.
  { unfold add_reference. destruct (ref wtopts); [apply grows_ret|apply Hb]. }
  intros r. apply grows_bind.
  { unfold add_checkout.
    apply grows_bind; [apply grows_status, Hh|intros _].
    apply grows_bind; [apply grows_status, Hc|intros _; apply grows_ret]. }
  intros _. apply grows_bind; [apply grows_query|].
  intros res. destruct (res.1 <? 0); [apply grows_fail|apply grows_ret].
Qed.

(** X14.  git_worktree_add removes nothing.  As long as the reference,
    HEAD and checkout subsystems it calls remove no path, every path that
    exists before the call exists after it, however the call ends: with a
    worktree, with an error half way through, or in the overrun of the
    suffix buffer. *)
Theorem add_never_removes (col : collaborators) (fuel : nat) (found_uninit : Z)
    (fs : filesystem) (repo : git_repository) (nm worktree : string)
    (opts : option git_worktree_add_options) (p : string) :
  never_remove col ->
  git_fs_path_exists fs p = true ->
  git_fs_path_exists
    (git_worktree_add col fuel found_uninit fs repo nm worktree opts).2 p = true.
Proof.
  intros Hcol H. unfold git_worktree_add.
  destruct (git_error__check_version _ _ <? 0); [exact H|].
  set (wtopts := default GIT_WORKTREE_ADD_OPTIONS_INIT opts).
  assert (Hpre : grows (let! _ := add_check_ref wtopts in add_worktrees_dir repo)).
  { apply grows_bind.
    - unfold add_check_ref. destruct (ref wtopts) as [r|]; [|apply grows_ret].
      destruct (negb _); [apply grows_fail|].
      destruct (git_branch_is_checked_out r); [apply grows_fail|apply grows_ret].
    - intros _. unfold add_worktrees_dir.
      apply grows_bind; [apply grows_query|intros b].
      destruct (negb b); [|apply grows_ret].
      apply grows_bind; [apply grows_status, mkdir_keeps|intros _; apply grows_ret]. }
  specialize (Hpre fs p H). cbv beta in Hpre.
  destruct ((let! _ := add_check_ref wtopts in add_worktrees_dir repo) fs)
    as [[gitdir|e] fs1]; [|exact Hpre]. cbn [snd] in Hpre.
  destruct (private_subdir_loop fuel fs1 gitdir (git_fs_path_basename worktree) 1)
    as [[nm0 tmp|]|]; [|exact Hpre|exact Hpre].
  pose proof (add_after_search_grows col found_uninit repo nm worktree wtopts tmp
                Hcol fs1 p Hpre) as Ha. cbv beta in Ha.
  now destruct (add_after_search col found_uninit repo nm worktree wtopts tmp fs1).
Qed.

Lemma quiet_collaborators_never_remove : never_remove quiet_collaborators.
Proof.
  split; [|split].
  - intros repo name fs p H. exact H.
  - intros gitdir refname. apply writebuffer_keeps.
  - intros wddir coopts fs p H. exact H.
Qed.

Lemma add_never_removes_witness :
  git_fs_path_exists
    (git_worktree_add quiet_collaborators 128 0 fs_one repo_r "feature" "/w/a" None).2
    "/w/a/.git" = true.
Proof.
  apply add_never_removes; [exact quiet_collaborators_never_remove|reflexivity].
Defined.

(** ** The link files that git_worktree_add writes *)

Lemma slash_not_space (s : string) :
  ends_with_slash s = true -> last_char_is git__isspace s = false.
Proof.
  induction s as [|c s IH]; [discriminate|]. destruct s as [|c' s'].
  - simpl. unfold is_slash. intros ->%bool_decide_eq_true_1. reflexivity.
  - exact IH.
Qed.

Lemma last_char_is_append (P : ascii -> bool) (x f : string) :
  is_empty f = false -> last_char_is P (x +:+ f) = last_char_is P f.
Proof.
  intros Hf. induction x as [|c x IH]; [now rewrite append_nil|].
  rewrite append_cons. destruct (x +:+ f) as [|c' r] eqn:E; [|exact IH].
  destruct x; [|discriminate]. rewrite append_nil in E. now subst f.
Qed.

Lemma dir_prefix_ends (d : string) : ends_with_slash (dir_prefix d) = true.
Proof.
  unfold dir_prefix. destruct (ends_with_slash d) eqn:E; [exact E|].
  apply ends_with_slash_append.
Qed.

Lemma rstrip_first (P : ascii -> bool) (c : ascii) (s : string) :
  rstrip P (String c s) = "" \/ exists t, rstrip P (String c s) = String c t.
Proof. simpl. destruct (is_empty (rstrip P s) && P c); eauto. Qed.

(** The real path of an absolute path is absolute. *)
Lemma dir_prefix_key_absolute (p : string) :
  git_fs_path_is_relative p = false ->
  git_fs_path_is_relative (dir_prefix (fs_key p)) = false.
Proof.
  destruct p as [|c p]; [discriminate|]. intros Hc.
  assert (Hk : exists t, fs_key (String c p) = String c t).
  { unfold fs_key. destruct (rstrip_first is_slash c p) as [->|[t ->]].
    - simpl in Hc. apply negb_false_iff in Hc. unfold is_slash in Hc.
      apply bool_decide_eq_true_1 in Hc as ->. now exists "".
    - now exists t. }
  destruct Hk as [t ->]. unfold dir_prefix.
  destruct (ends_with_slash (String c t)); [exact Hc|]. now rewrite append_cons.
Qed.

Lemma read_link_depends (fs1 fs2 : filesystem) (base file : string) :
  fs_find (fs_key (git_str_joinpath base file)) fs1
  = fs_find (fs_key (git_str_joinpath base file)) fs2 ->
  git_worktree__read_link fs1 base file = git_worktree__read_link fs2 base file.
Proof.
  intros H. unfold git_worktree__read_link, git_futils_readbuffer, fs_stat.
  now rewrite H.
Qed.

Lemma plain_gitdir : plain_name "gitdir".
Proof. split; reflexivity. Qed.

Lemma plain_commondir : plain_name "commondir".
Proof. split; reflexivity. Qed.

Lemma plain_dotgit : plain_name ".git".
Proof. split; reflexivity. Qed.

(** X15.  The link files that git_worktree_add writes read back as the
    paths they stand for.  After the three writes have succeeded, for
    absolute paths, git_worktree__read_link resolves the [gitdir] file of
    the administrative directory to the [.git] file of the working
    directory and its [commondir] file to the real path of the common
    directory, and the [.git] file of the working directory holds
    "gitdir: " followed by the administrative directory.  All three files
    are new, and no other path has changed. *)
Theorem add_link_files_read_back (repo : git_repository) (gitdir wddir : string)
    (fs fs' : filesystem) :
  add_link_files repo gitdir wddir fs = (Ok tt, fs') ->
  git_fs_path_is_relative (commondir repo) = false ->
  git_fs_path_is_relative wddir = false ->
  git_worktree__read_link fs' gitdir "gitdir" = Some (git_str_joinpath wddir ".git")
  /\ git_worktree__read_link fs' gitdir "commondir"
     = Some (dir_prefix (fs_key (commondir repo)))
  /\ git_futils_readbuffer fs' (git_str_joinpath wddir ".git")
     = Ok ("gitdir: " +:+ gitdir +:+ "
")
  /\ git_fs_path_exists fs (git_str_joinpath wddir ".git") = false
  /\ git_fs_path_exists fs (git_str_joinpath gitdir "gitdir") = false
  /\ git_fs_path_exists fs (git_str_joinpath gitdir "commondir") = false
  /\ forall k, k <> git_str_joinpath wddir ".git" ->
               k <> git_str_joinpath gitdir "gitdir" ->
               k <> git_str_joinpath gitdir "commondir" ->
               fs_find k fs' = fs_find k fs.
Proof.
  intros H Hc Hw. unfold add_link_files in H.
  bind_inv H r fs1 H1. apply status_ok in H1 as [H1 Hr1].
  bind_inv H pretty fs2 Hq. apply query_ok in Hq as [-> ->].
  unfold git_fs_path_prettify_dir in H.
  destruct (fs_stat fs1 (commondir repo)) as [n|] eqn:Hs; [|discriminate].
  bind_inv H r fs3 H2. apply status_ok in H2 as [H2 Hr2].
  bind_inv H r fs4 H3. apply status_ok in H3 as [H3 Hr3].
  injection H as ->.
  pose proof (fs_key_joinpath wddir ".git" plain_dotgit) as K1.
  pose proof (fs_key_joinpath gitdir "commondir" plain_commondir) as K2.
  pose proof (fs_key_joinpath gitdir "gitdir" plain_gitdir) as K3.
  assert (N12 : git_str_joinpath wddir ".git" <> git_str_joinpath gitdir "commondir").
  { rewrite <- K1, <- K2. apply joinpath_key_ne;
      [apply plain_dotgit|apply plain_commondir|discriminate]. }
  assert (N13 : git_str_joinpath wddir ".git" <> git_str_joinpath gitdir "gitdir").
  { rewrite <- K1, <- K3. apply joinpath_key_ne;
      [apply plain_dotgit|apply plain_gitdir|discriminate]. }
  assert (N23 : git_str_joinpath gitdir "commondir" <> git_str_joinpath gitdir "gitdir").
  { rewrite <- K2, <- K3. apply joinpath_key_ne;
      [apply plain_commondir|apply plain_gitdir|discriminate]. }
  (* the [.git] file of the working directory *)
  unfold write_wtfile in H1.
  pose proof (writebuffer_content _ _ _ _ _ _ H1 Hr1) as C1.
  destruct (writebuffer_excl_ok _ _ _ _ _ H1 Hr1) as [E1 F1].
  rewrite K1 in C1, E1, F1.
  (* the [commondir] file *)
  destruct (write_wtfile_read_back fs1 fs3 gitdir "commondir"
              (dir_prefix (fs_key (commondir repo))) "
" r0 H2 Hr2) as (R2 & E2 & F2).
  { apply slash_not_space, dir_prefix_ends. }
  { reflexivity. }
  rewrite (dir_prefix_key_absolute _ Hc) in R2. rewrite K2 in F2.
  (* the [gitdir] file *)
  destruct (write_wtfile_read_back fs3 fs' gitdir "gitdir"
              (git_str_joinpath wddir ".git") "
" r1 H3 Hr3) as (R3 & E3 & F3).
  { rewrite (joinpath_shape wddir ".git" plain_dotgit).
    now rewrite last_char_is_append. }
  { reflexivity. }
  rewrite (joinpath_absolute wddir ".git" Hw) in R3. rewrite K3 in F3.
  rewrite (exists_find _ _ _ plain_commondir) in E2.
  rewrite (exists_find _ _ _ plain_gitdir) in E3.
  split; [exact R3|]. split.
  { rewrite <- R2. apply read_link_depends. rewrite K2. now apply F3. }
  split.
  { unfold git_futils_readbuffer, fs_stat. rewrite K1.
    rewrite F3 by exact N13. rewrite F2 by exact N12. now rewrite C1. }
  split.
  { rewrite (exists_find _ _ _ plain_dotgit). now rewrite E1. }
  split.
  { rewrite (exists_find _ _ _ plain_gitdir).
    rewrite F2 in E3 by congruence. rewrite F1 in E3 by congruence. exact E3. }
  split.
  { rewrite (exists_find _ _ _ plain_commondir).
    rewrite F1 in E2 by congruence. exact E2. }
  intros k N1 N3 N2. rewrite F3 by exact N3. rewrite F2 by exact N2. now apply F1.
Qed.

(** ** Option structures *)



(** X17.  Options that an initialiser has filled in stand for the
    defaults.  Initialising with version 1 succeeds, under the current and
    under the deprecated name alike, and overwrites whatever the structure
    held; git_worktree_add, git_worktree_is_prunable and git_worktree_prune
    treat the result exactly as they treat a NULL options pointer. *)
Theorem initialised_options_are_defaults :
  (forall o, git_worktree_add_options_init o 1 = (0, GIT_WORKTREE_ADD_OPTIONS_INIT)
             /\ git_worktree_add_init_options o 1 = git_worktree_add_options_init o 1)
  /\ (forall o, git_worktree_prune_options_init o 1 = (0, GIT_WORKTREE_PRUNE_OPTIONS_INIT)
                /\ git_worktree_prune_init_options o 1
                   = git_worktree_prune_options_init o 1)
  /\ (forall o col fuel found_uninit fs repo nm worktree,
        git_worktree_add col fuel found_uninit fs repo nm worktree
          (Some (git_worktree_add_options_init o 1).2)
        = git_worktree_add col fuel found_uninit fs repo nm worktree None)
  /\ (forall o fs wt,
        git_worktree_is_prunable fs wt (Some (git_worktree_prune_options_init o 1).2)
        = git_worktree_is_prunable fs wt None
        /\ git_worktree_prune fs wt (Some (git_worktree_prune_options_init o 1).2)
           = git_worktree_prune fs wt None).
Proof.
  split; [|split; [|split]].
  - intros o. split; reflexivity.
  - intros o. split; reflexivity.
  - intros. reflexivity.
  - intros. split; reflexivity.
Qed.

(** ** Opening the worktree of a repository *)

(** X18.  git_worktree_open_from_repository turns down a repository that
    is not a worktree with -1 and fails with the error of the path layer
    when the parent of the common directory cannot be resolved.  When it
    succeeds, the handle is the one of the repository's own gitdir, which
    is then a valid administrative directory; its name is the last
    component of that gitdir and its parent the resolved parent of the
    common directory. *)
Theorem open_from_repository_result
    (is_worktree : git_repository -> bool) (path_of : git_repository -> string)
    (prettify_parent : filesystem -> string -> result string)
    (fs : filesystem) (repo : git_repository) :
  let open := git_worktree_open_from_repository is_worktree path_of prettify_parent in
  (is_worktree repo = false -> open fs repo = (-1, None))
  /\ (forall code, is_worktree repo = true ->
        prettify_parent fs (commondir repo) = Err code -> open fs repo = (code, None))
  /\ (forall e wt, open fs repo = (e, Some wt) ->
        e = 0 /\ is_worktree repo = true
        /\ prettify_parent fs (commondir repo) = Ok (default "" (parent_path wt))
        /\ parent_path wt <> None
        /\ git_worktree_name (Some wt) = Some (git_fs_path_basename (path_of repo))
        /\ is_worktree_private_directory fs (path_of repo) = true
        /\ gitdir_path wt = dir_prefix (fs_key (path_of repo))
        /\ git_worktree__read_link fs (path_of repo) "gitdir" = Some (gitlink_path wt)
        /\ git_worktree__read_link fs (path_of repo) "commondir"
           = Some (commondir_path wt)
        /\ git_worktree_path (Some wt) = Some (git_fs_path_dirname (gitlink_path wt))
        /\ locked wt = git_fs_path_exists fs (git_str_joinpath (gitdir_path wt) "locked")).
Proof.
  intros open. unfold open, git_worktree_open_from_repository.
  split; [|split].
  - intros ->. reflexivity.
  - intros code -> ->. reflexivity.
  - intros e wt. destruct (is_worktree repo); [|discriminate]. cbv [negb].
    destruct (prettify_parent fs (commondir repo)) as [parent|code]; [|discriminate].
    cbv zeta.
    destruct (open_worktree_dir fs (Some parent) (path_of repo)
                (git_fs_path_basename (path_of repo))) as [e0 out] eqn:Eo.
    intros [= -> ->].
    pose proof (open_worktree_dir_locked _ _ _ _ _ _ Eo) as Hl.
    apply open_worktree_dir_fields in Eo as (-> & Hp & Hn & Hpar & Hg & Hgl & Hc & Hw).
    rewrite Hpar. simpl. rewrite Hn, Hw. repeat split; auto; discriminate.
Qed.

Lemma open_from_repository_result_witness :
  exists wt,
    git_worktree_open_from_repository (fun _ => true) (fun _ => "/r/.git/worktrees/a")
      (fun fs c => git_fs_path_prettify_dir fs (git_fs_path_dirname c)) fs_one repo_r
    = (0, Some wt)
    /\ git_worktree_name (Some wt) = Some "a"
    /\ parent_path wt = Some "/r/".
Proof.
  destruct (git_worktree_open_from_repository (fun _ => true)
              (fun _ => "/r/.git/worktrees/a")
              (fun fs c => git_fs_path_prettify_dir fs (git_fs_path_dirname c))
              fs_one repo_r) as [e [wt|]] eqn:E; [|vm_compute in E; discriminate].
  destruct (proj2 (proj2 (open_from_repository_result (fun _ => true)
                            (fun _ => "/r/.git/worktrees/a")
                            (fun fs c => git_fs_path_prettify_dir fs (git_fs_path_dirname c))
                            fs_one repo_r)) e wt E)
    as (-> & _ & _ & _ & Hn & _).
  exists wt. split; [reflexivity|]. split; [exact Hn|].
  vm_compute in E. now injection E as <-.
Defined.

(** ** The fixture of the tests *)

(** X19.  cleanup_fixture_worktree releases each repository handle of the
    fixture once: the handles that are set are handed to
    git_repository_free, the repository before the worktree, and both are
    NULL afterwards, so that a second cleanup releases nothing and changes
    nothing.  A NULL fixture is left alone. *)
Theorem cleanup_fixture_releases_once (f : worktree_fixture) (m : memory) :
  let f' := {| fixture_repo := 0; fixture_worktree := 0;
               reponame := reponame f; worktreename := worktreename f |} in
  let m' := (cleanup_fixture_worktree (Some f) m).2 in
  (cleanup_fixture_worktree (Some f) m).1 = Some f'
  /\ freed m' = freed m ++ non_null [fixture_repo f; fixture_worktree f]
  /\ cleanup_fixture_worktree (Some f') m' = (Some f', m')
  /\ cleanup_fixture_worktree None m = (None, m).
Proof.
  intros f' m'. unfold m', f'. destruct f as [r w rn wn]. unfold cleanup_fixture_worktree.
  cbn [fixture_repo fixture_worktree reponame worktreename].
  unfold git_repository_free, git__free, non_null.
  destruct (r =? 0) eqn:Er; destruct (w =? 0) eqn:Ew; cbn [negb];
    try (apply Z.eqb_eq in Er as ->); try (apply Z.eqb_eq in Ew as ->);
    cbn [fst snd fixture_repo fixture_worktree reponame worktreename freed
         List.filter negb Z.eqb];
    rewrite ?Er, ?Ew; cbn [negb freed]; rewrite ?app_nil_r, <- ?app_assoc;
    repeat split; reflexivity.
Qed.

(** ** Locks and pruning together *)

(** What a lock that returned 0 has done. *)
Lemma lock_ok (fs fs' : filesystem) (wt wt' : git_worktree) (reason : option string) :
  let marker := git_str_joinpath (gitdir_path wt) "locked" in
  git_worktree_lock fs wt reason = (0, wt', fs') ->
  wt' = set_locked wt true
  /\ fs_find marker fs = None
  /\ fs' = fs_insert marker (File (default "" reason)) fs.
Proof.
  intros marker.
  assert (Hkey : fs_key marker = marker) by apply (fs_key_joinpath _ "locked" plain_locked).
  unfold git_worktree_lock. rewrite is_locked_without_reason. fold marker.
  destruct (git_fs_path_exists fs marker) eqn:Hm; cbn [Z.b2z fst].
  { change (1 <? 0) with false. change (1 =? 0) with false. cbv [negb].
    cbv iota. discriminate. }
  change (0 <? 0) with false. change (0 =? 0) with true. cbv [negb]. cbv iota.
  destruct (git_futils_writebuffer fs (default "" reason) marker true) as [e fs1] eqn:Hw.
  destruct (e <? 0) eqn:He.
  { intros [= -> _ _]. discriminate. }
  intros H. assert (e = 0 /\ wt' = set_locked wt true /\ fs' = fs1) as (-> & -> & ->).
  { repeat split; congruence. }
  clear H. destruct (writebuffer_excl_ok _ _ _ _ _ Hw He) as [Hnone _].
  rewrite Hkey in Hnone. split; [reflexivity|]. split; [exact Hnone|].
  unfold git_futils_writebuffer in Hw. rewrite Hkey, Hnone in Hw.
  destruct (parent_is_dir fs marker);
    [now injection Hw as <-|unfold GIT_ERROR in Hw; discriminate Hw].
Qed.

(** X20.  A lock protects a worktree from pruning.  After git_worktree_lock
    has returned 0, git_worktree_is_prunable with valid options that do not
    carry the allow-locked flag answers 0 and names the reason of the lock
    in its message ("no reason given" for an empty or NULL reason), and
    git_worktree_prune returns -1 without touching the file system. *)
Theorem lock_protects_from_prune (fs fs' : filesystem) (wt wt' : git_worktree)
    (reason : option string) (opts : option git_worktree_prune_options) :
  git_worktree_lock fs wt reason = (0, wt', fs') ->
  git_error__check_version (option_map prune_version opts)
    GIT_WORKTREE_PRUNE_OPTIONS_VERSION = 0 ->
  allow_locked (default GIT_WORKTREE_PRUNE_OPTIONS_INIT opts) = false ->
  git_worktree_is_prunable fs' wt' opts
  = (0, Some ("not pruning locked working tree: '"
              +:+ (if is_empty (default "" reason) then "no reason given"
                   else default "" reason) +:+ "'"))
  /\ git_worktree_prune fs' wt' opts = (-1, fs').
Proof.
  intros Hlock Hv Ha.
  apply lock_ok in Hlock as (-> & Hnone & ->).
  set (marker := git_str_joinpath (gitdir_path wt) "locked") in *.
  set (fs' := fs_insert marker (File (default "" reason)) fs).
  assert (Hs : fs_stat fs' (git_str_joinpath (gitdir_path (set_locked wt true)) "locked")
               = Some (File (default "" reason))).
  { change (gitdir_path (set_locked wt true)) with (gitdir_path wt). fold marker.
    unfold fs_stat, marker. rewrite (fs_key_joinpath _ "locked" plain_locked).
    apply fs_find_insert_eq. }
  assert (Hp : git_worktree_is_prunable fs' (set_locked wt true) opts
               = (0, Some ("not pruning locked working tree: '"
                           +:+ (if is_empty (default "" reason) then "no reason given"
                                else default "" reason) +:+ "'"))).
  { rewrite (is_prunable_unfold _ _ _ Hv). cbv zeta.
    now rewrite prunable_lock_guard_cases, Ha, Hs. }
  split; [exact Hp|]. apply prune_refused; [exact Hv|]. now rewrite Hp.
Qed.

Lemma lock_protects_from_prune_witness :
  git_worktree_prune (git_worktree_lock fs_one wt_a None).2
    (git_worktree_lock fs_one wt_a None).1.2 (Some options_allow_valid)
  = (-1, (git_worktree_lock fs_one wt_a None).2).
Proof.
  exact (proj2 (lock_protects_from_prune fs_one _ wt_a _ None (Some options_allow_valid)
                  eq_refl eq_refl eq_refl)).
Defined.

(** ** The working directory of an administrative directory *)

Lemma read_link_absolute (fs : filesystem) (base file r : string) :
  git_fs_path_is_relative base = false ->
  git_worktree__read_link fs base file = Some r ->
  git_fs_path_is_relative r = false.
Proof.
  intros Hb. unfold git_worktree__read_link.
  destruct (git_futils_readbuffer fs (git_str_joinpath base file)) as [content|];
    [|discriminate].
  cbv zeta. destruct (git_fs_path_is_relative (git_str_rtrim content)) eqn:E; cbv [negb].
  - unfold git_fs_path_apply_relative.
    destruct (git_fs_path_resolve_relative _) as [p|] eqn:Er; [|discriminate].
    intros [= <-]. apply (resolve_relative_absolute _ _ (joinpath_absolute _ _ Hb) Er).
  - now intros [= <-].
Qed.



(** ** Validation of handles *)

(** X22.  A worktree that lookup has handed out never fails validation
    for its administrative directory: on the file system it was looked up
    in, git_worktree_validate accepts it exactly when the working directory
    of the repository (if it has one), the common directory of the handle
    and the working directory of the handle exist. *)
Theorem lookup_result_validates (found_uninit : Z) (fs : filesystem)
    (repo : git_repository) (nm : string) (e : Z) (wt : git_worktree) :
  git_worktree_lookup found_uninit fs repo nm = (e, Some wt) ->
  (git_worktree_validate fs wt).1 = 0 <->
  (forall p, git_repository_workdir repo = Some p -> git_fs_path_exists fs p = true)
  /\ git_fs_path_exists fs (commondir_path wt) = true
  /\ git_fs_path_exists fs (worktree_path wt) = true.
Proof.
  intros H. destruct (lookup_some _ _ _ _ _ _ H)
    as (_ & _ & Hp & _ & pre & w & post & _ & _ & _ & _ & Hpriv & _).
  unfold git_worktree_validate. rewrite Hpriv, Hp. cbv [negb]. cbv iota.
  destruct (git_repository_workdir repo) as [p|].
  - destruct (git_fs_path_exists fs p) eqn:E1; cbv iota.
    + destruct (git_fs_path_exists fs (commondir_path wt)); cbv iota.
      * destruct (git_fs_path_exists fs (worktree_path wt)); cbv iota; simpl.
        -- split; [intros _; repeat split; auto; now intros ? [= <-]|reflexivity].
        -- split; [discriminate|now intros (_ & _ & ?)].
      * simpl. split; [discriminate|now intros (_ & ? & _)].
    + simpl. split; [discriminate|]. intros (Hq & _). specialize (Hq p eq_refl). congruence.
  - destruct (git_fs_path_exists fs (commondir_path wt)); cbv iota.
    + destruct (git_fs_path_exists fs (worktree_path wt)); cbv iota; simpl.
      * split; [intros _; repeat split; auto; discriminate|reflexivity].
      * split; [discriminate|now intros (_ & _ & ?)].
    + simpl. split; [discriminate|now intros (_ & ? & _)].
Qed.

Lemma lookup_result_validates_witness :
  (git_worktree_validate fs_one wt_a).1 = 0.
Proof.
  apply (lookup_result_validates 0 fs_one repo_r "a" 0 wt_a eq_refl).
  split; [|split; reflexivity]. now intros p [= <-].
Defined.

Lemma strip_prefix_append (a b : string) : strip_prefix a (a +:+ b) = Some b.
Proof.
  induction a as [|c a IH]; [now destruct b|].
  rewrite append_cons. simpl. now rewrite bool_decide_eq_true_2.
Qed.

Lemma all_slashes_end (ws : string) :
  all_chars is_slash ws = true -> is_empty ws = false -> ends_with_slash ws = true.
Proof.
  induction ws as [|c ws IH]; [discriminate|]. simpl.
  intros [Hc Hws]%andb_prop _. destruct ws as [|c' ws']; [exact Hc|].
  now apply IH.
Qed.

(** A file joined to a directory lies below the key of the directory. *)
Lemma joinpath_under (g f : string) :
  plain_name f -> is_empty g = false ->
  under (fs_key g) (git_str_joinpath g f) = true.
Proof.
  intros Hf Hg. pose proof Hf as [_ Hfe].
  assert (Hpre : exists r, join_prefix g = dir_prefix (fs_key g) +:+ r).
  { destruct (rstrip_spec is_slash g) as (ws & Hsplit & Hws & Hlast).
    unfold fs_key, join_prefix. rewrite Hg.
    destruct (is_empty (rstrip is_slash g)) eqn:Et.
    - apply is_empty_true in Et. rewrite Et, append_nil in Hsplit. subst ws.
      rewrite (all_slashes_end g Hws Hg).
      destruct g as [|c g']; [discriminate|]. simpl in Hws.
      apply andb_prop in Hws as [Hc _]. unfold is_slash in Hc.
      apply bool_decide_eq_true_1 in Hc as ->. exists (g' +:+ ""). reflexivity.
    - set (t := rstrip is_slash g) in *.
      assert (Hte : ends_with_slash t = false) by now rewrite ends_with_slash_last_char.
      unfold dir_prefix. rewrite Hte.
      destruct ws as [|c ws'].
      + rewrite append_empty_r in Hsplit. rewrite Hsplit, Hte. exists "".
        now rewrite append_empty_r.
      + assert (Hge : ends_with_slash g = true).
        { rewrite Hsplit, ends_with_slash_last_char, last_char_is_append by reflexivity.
          rewrite <- ends_with_slash_last_char. now apply all_slashes_end. }
        rewrite Hge. simpl in Hws. apply andb_prop in Hws as [Hc _].
        unfold is_slash in Hc. apply bool_decide_eq_true_1 in Hc as ->.
        exists (ws' +:+ ""). rewrite Hsplit at 1. now rewrite !append_assoc. }
  destruct Hpre as [r Hr]. unfold under.
  rewrite (joinpath_shape g f Hf), Hr, append_assoc, strip_prefix_append.
  now rewrite (is_empty_append r f Hfe).
Qed.

(** ** What a prune leaves of the handle *)

(** X23.  After a prune that returned 0 the handle is stale.  For a
    handle whose administrative directory [gitdir_path] is the directory
    [commondir_path/worktrees/name] that prune removes: validation fails
    with the message about the gitdir, the lock query answers 0 whatever
    the lock state was before, the handle counts as prunable under the
    default options, and it cannot be locked any more. *)
Theorem pruned_handle_is_stale (fs : filesystem) (wt : git_worktree)
    (opts : option git_worktree_prune_options) :
  let admin := git_str_join3 (commondir_path wt) "worktrees" (name wt) in
  let fs' := (git_worktree_prune fs wt opts).2 in
  (git_worktree_prune fs wt opts).1 = 0 ->
  gitdir_path wt <> "" -> fs_key (gitdir_path wt) = fs_key admin ->
  git_worktree_validate fs' wt
  = (GIT_ERROR, Some ("worktree gitdir ('" +:+ gitlink_path wt +:+ "') is not valid"))
  /\ (forall b, git_worktree_is_locked fs' (Some b) wt = (0, Some ""))
  /\ git_worktree_is_prunable fs' wt None
     = (1, Some ("worktree gitdir ('" +:+ gitlink_path wt +:+ "') is not valid"))
  /\ (forall reason, git_worktree_lock fs' wt reason = (GIT_ERROR, wt, fs')).
Proof.
  intros admin fs' H0 Hg Hk.
  assert (Hge : is_empty (gitdir_path wt) = false).
  { destruct (gitdir_path wt); [congruence|reflexivity]. }
  assert (Hgone : forall q, in_tree (fs_key admin) q = true -> fs_find q fs' = None).
  { intros q Hq. unfold fs'. revert H0. unfold git_worktree_prune.
    destruct (_ <? 0); [discriminate|]. destruct (_ =? 0); [discriminate|].
    fold admin. destruct (negb (git_fs_path_exists fs admin)); [discriminate|].
    unfold git_futils_rmdir_r. change (0 <? 0) with false. cbv iota.
    destruct (_ || _); [intros _; now apply remove_tree_gone|].
    destruct (negb _); [discriminate|]. intros _. cbn [snd].
    rewrite fs_find_remove_tree, (remove_tree_gone (fs_key admin) fs q Hq).
    destruct (in_tree (fs_key (git_fs_path_dirname (gitlink_path wt))) q); reflexivity. }
  assert (Hfile : forall f, plain_name f ->
            fs_find (git_str_joinpath (gitdir_path wt) f) fs' = None).
  { intros f Hf. apply Hgone. unfold in_tree. rewrite <- Hk.
    rewrite (joinpath_under _ _ Hf Hge). apply orb_true_r. }
  assert (Hpriv : is_worktree_private_directory fs' (gitdir_path wt) = false).
  { unfold is_worktree_private_directory, git_fs_path_contains_file, git_fs_path_isfile,
      fs_stat.
    now rewrite (fs_key_joinpath _ _ plain_commondir), (Hfile _ plain_commondir). }
  assert (Hmark : fs_stat fs' (git_str_joinpath (gitdir_path wt) "locked") = None).
  { unfold fs_stat. rewrite (fs_key_joinpath _ _ plain_locked). apply Hfile, plain_locked. }
  assert (Hval : git_worktree_validate fs' wt
                 = (GIT_ERROR,
                    Some ("worktree gitdir ('" +:+ gitlink_path wt +:+ "') is not valid"))).
  { unfold git_worktree_validate. now rewrite Hpriv. }
  split; [exact Hval|]. split; [|split].
  - intros b. unfold git_worktree_is_locked. now apply is_locked_with_reason_absent.
  - rewrite (is_prunable_unfold fs' wt None eq_refl). cbv zeta.
    rewrite prunable_lock_guard_cases, Hmark, Hval. reflexivity.
  - intros reason. unfold git_worktree_lock. rewrite is_locked_without_reason.
    unfold git_fs_path_exists. rewrite Hmark. cbn [Z.b2z fst].
    change (0 <? 0) with false. change (0 =? 0) with true. cbv [negb]. cbv iota.
    unfold git_futils_writebuffer, parent_is_dir.
    rewrite (fs_key_joinpath _ _ plain_locked), (Hfile _ plain_locked).
    rewrite (dirname_joinpath _ _ plain_locked Hge), Hk.
    rewrite (Hgone _ (in_tree_self _)). reflexivity.
Qed.

Lemma pruned_handle_is_stale_witness :
  git_worktree_validate (git_worktree_prune fs_one wt_a (Some options_allow_valid)).2 wt_a
  = (GIT_ERROR, Some "worktree gitdir ('/w/a/.git') is not valid").
Proof.
  exact (proj1 (pruned_handle_is_stale fs_one wt_a (Some options_allow_valid) eq_refl
                  ltac:(discriminate) eq_refl)).
Defined.

Lemma prune_proceeds_on_policy_error_witness :
  git_worktree_is_prunable fs_marker_dir wt_a None = (GIT_ENOTFOUND, None)
  /\ git_worktree_prune fs_marker_dir wt_a None
     = (0, fs_remove_tree "/r/.git/worktrees/a" fs_marker_dir).
Proof.
  destruct (prune_proceeds_on_policy_error fs_marker_dir wt_a None eq_refl
              eq_refl eq_refl) as (H1 & H2 & _).
  split; [exact H1|]. exact (H2 eq_refl eq_refl).
Defined.

Lemma add_link_files_read_back_witness :
  exists fs',
    add_link_files repo_r "/r/.git/worktrees/b/" "/w/b/" fs_dirs_b = (Ok tt, fs')
    /\ git_worktree__read_link fs' "/r/.git/worktrees/b/" "gitdir" = Some "/w/b/.git"
    /\ git_worktree__read_link fs' "/r/.git/worktrees/b/" "commondir" = Some "/r/.git/".
Proof.
  destruct (add_link_files repo_r "/r/.git/worktrees/b/" "/w/b/" fs_dirs_b)
    as [[[]|e] fs'] eqn:E; [|vm_compute in E; discriminate].
  exists fs'. split; [reflexivity|].
  destruct (add_link_files_read_back repo_r "/r/.git/worktrees/b/" "/w/b/"
              fs_dirs_b fs' E eq_refl eq_refl) as (H1 & H2 & _).
  split; [exact H1|exact H2].
Defined.

(** ** Lookup without a match *)



(** ** Pruning the working directory *)

(** X25.  The working directory goes only on request, and only while its
    [.git] link is there.  For valid options and a worktree that the prune
    policy lets pass, with its administrative directory in place: if the
    remove-working-tree flag is set and the [.git] link and its directory
    are still there once the administrative directory is gone, prune
    returns 0 and nothing is left at or below that directory; if the link
    is missing, the working directory stays although the flag is set; if
    the link is there but its directory is not, prune returns -1 after
    having removed the administrative directory. *)
Theorem prune_working_tree (fs : filesystem) (wt : git_worktree)
    (opts : option git_worktree_prune_options) :
  git_error__check_version (option_map prune_version opts)
    GIT_WORKTREE_PRUNE_OPTIONS_VERSION = 0 ->
  (git_worktree_is_prunable fs wt opts).1 <> 0 ->
  let o := default GIT_WORKTREE_PRUNE_OPTIONS_INIT opts in
  let admin := git_str_join3 (commondir_path wt) "worktrees" (name wt) in
  let wd := git_fs_path_dirname (gitlink_path wt) in
  let fs1 := fs_remove_tree (fs_key admin) fs in
  git_fs_path_exists fs admin = true -> remove_working_tree o = true ->
  (git_fs_path_exists fs1 (gitlink_path wt) = true -> git_fs_path_exists fs1 wd = true ->
   git_worktree_prune fs wt opts = (0, fs_remove_tree (fs_key wd) fs1)
   /\ (forall q, in_tree (fs_key wd) q = true ->
         fs_find q (git_worktree_prune fs wt opts).2 = None)
   /\ git_fs_path_exists (git_worktree_prune fs wt opts).2 wd = false)
  /\ (git_fs_path_exists fs1 (gitlink_path wt) = false ->
      git_worktree_prune fs wt opts = (0, fs1))
  /\ (git_fs_path_exists fs1 (gitlink_path wt) = true ->
      git_fs_path_exists fs1 wd = false ->
      git_worktree_prune fs wt opts = (-1, fs1)).
Proof.
  intros Hv Hp o admin wd fs1 He Hw.
  pose proof (prune_unfold_nonzero fs wt opts Hv Hp) as Hu. cbv zeta in Hu.
  fold o admin wd fs1 in Hu. rewrite He, Hw in Hu.
  change (negb true) with false in Hu. cbv iota in Hu. rewrite orb_false_l in Hu.
  split; [|split].
  - intros Hl Hd. rewrite Hl, Hd in Hu. change (negb true) with false in Hu.
    cbv iota in Hu. rewrite Hu. cbn [snd]. split; [reflexivity|]. split.
    + intros q Hq. now apply remove_tree_gone.
    + unfold git_fs_path_exists, fs_stat.
      now rewrite (remove_tree_gone _ _ _ (in_tree_self _)).
  - intros Hl. now rewrite Hl in Hu.
  - intros Hl Hd. now rewrite Hl, Hd in Hu.
Qed.

Lemma prune_working_tree_witness :
  git_worktree_prune fs_one wt_a (Some options_allow_all)
  = (0, fs_remove_tree "/w/a" (fs_remove_tree "/r/.git/worktrees/a" fs_one))
  /\ git_fs_path_exists (git_worktree_prune fs_one wt_a (Some options_allow_all)).2 "/w/a"
     = false.
Proof.
  destruct (proj1 (prune_working_tree fs_one wt_a (Some options_allow_all) eq_refl
                     ltac:(discriminate) eq_refl eq_refl) eq_refl eq_refl)
    as (H1 & _ & H2).
  split; [exact H1|exact H2].
Defined.

(** ** The registry that git_worktree_add creates *)

(** X26.  git_worktree_add makes the registry when it is missing.  With
    valid options and a usable reference, in a repository whose common
    directory exists as a directory but has no [worktrees] entry, the
    registry [commondir/worktrees] exists once add returns, however the
    rest of the call goes (the subsystems that add calls are assumed to
    remove nothing).  When the common directory is not there either, add
    fails with GIT_ERROR and leaves the file system as it was. *)
Theorem add_creates_registry (col : collaborators) (fuel : nat) (found_uninit : Z)
    (fs : filesystem) (repo : git_repository) (nm worktree : string)
    (opts : option git_worktree_add_options) :
  let wtopts := default GIT_WORKTREE_ADD_OPTIONS_INIT opts in
  let registry := git_str_joinpath (commondir repo) "worktrees" in
  never_remove col ->
  git_error__check_version (option_map add_version opts)
    GIT_WORKTREE_ADD_OPTIONS_VERSION = 0 ->
  (forall r, ref wtopts = Some r ->
     git_reference_is_branch r = true /\ git_branch_is_checked_out r = false) ->
  git_fs_path_exists fs registry = false -> commondir repo <> "" ->
  (fs_stat fs (commondir repo) = Some Dir ->
   git_fs_path_exists
     (git_worktree_add col fuel found_uninit fs repo nm worktree opts).2 registry = true)
  /\ (fs_stat fs (commondir repo) = None ->
      git_worktree_add col fuel found_uninit fs repo nm worktree opts
      = (Returned GIT_ERROR None, fs)).
Proof.
  intros wtopts registry Hcol Hv Href Hreg Hc.
  assert (Hce : is_empty (commondir repo) = false).
  { destruct (commondir repo); [congruence|reflexivity]. }
  assert (Hkey : fs_key registry = registry)
    by apply (fs_key_joinpath _ _ plain_worktrees).
  assert (Hnone : fs_find registry fs = None).
  { unfold git_fs_path_exists, fs_stat in Hreg. rewrite Hkey in Hreg.
    destruct (fs_find registry fs); [discriminate|reflexivity]. }
  assert (Hcheck : add_check_ref wtopts fs = (Ok tt, fs)).
  { unfold add_check_ref. destruct (ref wtopts) as [r|]; [|reflexivity].
    destruct (Href r eq_refl) as [-> ->]. reflexivity. }
  assert (Hdir : git_fs_path_dirname registry = fs_key (commondir repo))
    by apply (dirname_joinpath _ _ plain_worktrees Hce).
  assert (Hpre : (let! _ := add_check_ref wtopts in add_worktrees_dir repo) fs
                 = match fs_find (fs_key (commondir repo)) fs with
                   | Some Dir => (Ok registry, fs ++ [(registry, Dir)])
                   | _ => (Err GIT_ERROR, fs)
                   end).
  { unfold mbind at 1. rewrite Hcheck.
    unfold add_worktrees_dir, mbind, query, status. fold registry. rewrite Hreg.
    cbv [negb]. cbv iota. unfold git_futils_mkdir, parent_is_dir.
    rewrite Hkey, Hnone, Hdir.
    now destruct (fs_find (fs_key (commondir repo)) fs) as [[c|]|]. }
  unfold git_worktree_add. rewrite Hv. change (0 <? 0) with false. cbv iota.
  fold wtopts. rewrite Hpre. split.
  - intros Hd. unfold fs_stat in Hd. rewrite Hd.
    assert (Hnow : git_fs_path_exists (fs ++ [(registry, Dir)]) registry = true).
    { unfold git_fs_path_exists, fs_stat. rewrite Hkey, fs_find_app, Hnone. simpl.
      now rewrite bool_decide_eq_true_2. }
    destruct (private_subdir_loop fuel _ registry (git_fs_path_basename worktree) 1)
      as [[nm0 tmp|]|]; [|exact Hnow|exact Hnow].
    pose proof (add_after_search_grows col found_uninit repo nm worktree wtopts tmp
                  Hcol _ registry Hnow) as Ha. cbv beta in Ha.
    now destruct (add_after_search col found_uninit repo nm worktree wtopts tmp _).
  - intros Hd. unfold fs_stat in Hd. rewrite Hd. reflexivity.
Qed.

Lemma add_creates_registry_witness :
  git_fs_path_exists
    (git_worktree_add quiet_collaborators 128 0 fs_plain repo_r "feature" "/w/b" None).2
    "/r/.git/worktrees" = true.
Proof.
  apply (proj1 (add_creates_registry quiet_collaborators 128 0 fs_plain repo_r
                  "feature" "/w/b" None quiet_collaborators_never_remove eq_refl
                  ltac:(intros r; discriminate) eq_refl ltac:(discriminate))).
  reflexivity.
Defined.

(** ** Lookup and the final path segment *)

Lemma open_worktree_dir_rename (fs : filesystem) (parent : option string)
    (dir n1 n2 : string) :
  open_worktree_dir fs parent dir n2
  = ((open_worktree_dir fs parent dir n1).1,
     option_map (set_name n2) (open_worktree_dir fs parent dir n1).2).
Proof.
  unfold open_worktree_dir.
  destruct (is_worktree_private_directory fs dir); [|reflexivity].
  change (git_path_validate_length dir <? 0) with false. cbv [negb].
  destruct (git_worktree__read_link fs dir "commondir"); [|reflexivity].
  destruct (git_worktree__read_link fs dir "gitdir"); [|reflexivity].
  destruct (git_fs_path_prettify_dir fs dir) as [g|]; [|reflexivity].
  cbv zeta. rewrite !is_locked_without_reason. cbn [fst gitdir_path].
  now destruct (Z.b2z (git_fs_path_exists fs (git_str_joinpath g "locked")) <? 0).
Qed.

Lemma scan_first_match_rename (fs : filesystem) (repo : git_repository)
    (n1 n2 dir : string) (ws : list string) :
  git_fs_path_basename n1 = git_fs_path_basename n2 ->
  scan_first_match fs repo n2 dir ws
  = ((scan_first_match fs repo n1 dir ws).1,
     option_map (set_name n2) (scan_first_match fs repo n1 dir ws).2).
Proof.
  intros Hb. induction ws as [|w rest IH]; [reflexivity|]. simpl.
  assert (Hv : entry_verdict_of fs n2 (dir +:+ w) = entry_verdict_of fs n1 (dir +:+ w)).
  { unfold entry_verdict_of. now rewrite Hb. }
  rewrite Hv. destruct (entry_verdict_of fs n1 (dir +:+ w)); [exact IH|reflexivity|].
  rewrite (open_worktree_dir_rename fs _ (dir +:+ w) n1 n2).
  destruct (open_worktree_dir fs (git_repository_workdir repo) (dir +:+ w) n1) as [e out].
  cbn [fst snd]. now destruct (e <? 0).
Qed.

(** X27.  Lookup goes by the final path segment of its argument and by
    nothing else: two names with the same final segment get the same
    answer, the same error or the same worktree, apart from the name that
    the handle reports, which is the argument as given. *)
Theorem lookup_by_final_segment (found_uninit : Z) (fs : filesystem)
    (repo : git_repository) (n1 n2 : string) :
  git_fs_path_basename n1 = git_fs_path_basename n2 ->
  git_worktree_lookup found_uninit fs repo n2
  = ((git_worktree_lookup found_uninit fs repo n1).1,
     option_map (set_name n2) (git_worktree_lookup found_uninit fs repo n1).2).
Proof.
  intros Hb. rewrite !lookup_characterised.
  destruct (negb _ || _); [reflexivity|].
  destruct (git_fs_path_dirload fs _) as [ws|e]; [|reflexivity].
  now apply scan_first_match_rename.
Qed.

Lemma lookup_by_final_segment_witness :
  git_worktree_lookup 0 fs_one repo_r "/elsewhere/a/"
  = (0, Some (set_name "/elsewhere/a/" wt_a)).
Proof.
  exact (lookup_by_final_segment 0 fs_one repo_r "a" "/elsewhere/a/" eq_refl).
Defined.

(** ** Lookup and list agree *)

Lemma verdict_matched_private (fs : filesystem) (nm path : string) :
  entry_verdict_of fs nm path = Matched -> is_worktree_private_directory fs path = true.
Proof.
  unfold entry_verdict_of.
  destruct (is_worktree_private_directory fs path); [auto|discriminate].
Qed.

(** X28.  What lookup finds, list shows.  When the listing of the
    registry goes through (the link of every administrative directory in it
    resolves), the entry behind a worktree that git_worktree_lookup returns
    is among the names that git_worktree_list returns for the same
    repository. *)
Theorem lookup_result_is_listed (found_uninit : Z) (fs : filesystem)
    (repo : git_repository) (nm : string) (e : Z) (wt : git_worktree) :
  let path := git_str_joinpath (commondir repo) "worktrees/" in
  git_worktree_lookup found_uninit fs repo nm = (e, Some wt) ->
  (forall w wd, w ∈ fs_children fs (fs_key path) ->
     is_worktree_private_directory fs (path +:+ w) = true ->
     ((get_worktree_gitdir_from_private_directory fs wd (path +:+ w)).1 <? 0) = false) ->
  exists w, gitdir_path wt = path +:+ w +:+ "/"
            /\ w ∈ (git_worktree_list fs repo).2
            /\ (git_worktree_list fs repo).1 = 0.
Proof.
  intros path Hl Hok.
  destruct (lookup_some _ _ _ _ _ _ Hl)
    as (_ & _ & _ & _ & pre & w & post & Hws & _ & Hm & Hg & _).
  fold path in Hws, Hm, Hg.
  rewrite lookup_characterised in Hl. fold path in Hl.
  destruct (git_fs_path_exists fs path) eqn:He;
    [|destruct (found_uninit =? 0); discriminate Hl].
  destruct (git_fs_path_is_empty_dir fs path) eqn:Hd;
    [destruct (found_uninit =? 0); discriminate Hl|].
  cbv [negb orb] in Hl.
  destruct (git_fs_path_dirload fs path) as [ws|e0] eqn:Hload; [|discriminate Hl].
  assert (ws = fs_children fs (fs_key path)) as ->.
  { unfold git_fs_path_dirload in Hload.
    destruct (fs_stat fs path) as [[c|]|]; congruence. }
  exists w. split; [exact Hg|].
  assert (Hin : w ∈ fs_children fs (fs_key path)).
  { rewrite Hws. apply elem_of_app. right. apply list_elem_of_here. }
  split.
  - rewrite (git_worktree_list_kept fs repo _ He Hd Hload Hok).
    apply (list_kept_complete fs path (length (fs_children fs (fs_key path))));
      [reflexivity|exact Hin|now apply (verdict_matched_private fs nm)].
  - unfold git_worktree_list. fold path. rewrite He, Hd, Hload. cbv [negb orb].
    destruct (list_foreach_kept fs path (length (fs_children fs (fs_key path))) []
                (fs_children fs (fs_key path)) "" 0 (le_n _) Hok) as [err' H].
    simpl in H. rewrite H. cbn [fst]. exact (list_foreach_error _ _ _ _ _ _ _ _ H).
Qed.

Lemma lookup_result_is_listed_witness :
  exists w, gitdir_path wt_a = "/r/.git/worktrees/" +:+ w +:+ "/"
            /\ w ∈ (git_worktree_list fs_one repo_r).2.
Proof.
  destruct (lookup_result_is_listed 0 fs_one repo_r "a" 0 wt_a eq_refl)
    as (w & H1 & H2 & _).
  - intros w wd Hin _. vm_compute in Hin. apply list_elem_of_singleton in Hin as ->.
    reflexivity.
  - exists w. split; [exact H1|exact H2].
Defined.

(** ** Releasing a worktree twice *)

Lemma free_all_snoc (l : list Z) (p : Z) (m : memory) :
  free_all (l ++ [p]) m = git__free p (free_all l m).
Proof. unfold free_all. now rewrite fold_left_app. Qed.

Lemma free_all_live (l : list Z) (p : Z) :
  forall m, p ∉ live m -> p ∉ live (free_all l m).
Proof.
  induction l as [|q l IH]; intros m H; [exact H|].
  unfold free_all in *. simpl. apply IH. unfold git__free.
  destruct (q =? 0); [exact H|]. simpl. set_solver.
Qed.

(** X29.  git_worktree_free cannot be called twice on the same worktree:
    the structure itself is released by the first call, so the second call
    hands a block that is no longer allocated to git__free. *)
Theorem free_twice_faults (b : git_worktree_block) (m : memory) :
  self b <> 0 ->
  fault (git_worktree_free (Some b) (git_worktree_free (Some b) m)) = true
  /\ self b ∉ live (git_worktree_free (Some b) m).
Proof.
  intros Hs.
  set (l := [commondir_path_ptr b; worktree_path_ptr b; gitlink_path_ptr b;
             gitdir_path_ptr b; parent_path_ptr b; name_ptr b]).
  assert (Hfold : forall m0, git_worktree_free (Some b) m0
                             = git__free (self b) (free_all l m0)).
  { intros m0. rewrite git_worktree_free_fold.
    change (owned_pointers b) with (l ++ [self b]). apply free_all_snoc. }
  assert (Hgone : self b ∉ live (git_worktree_free (Some b) m)).
  { rewrite Hfold. unfold git__free. apply Z.eqb_neq in Hs. rewrite Hs. simpl. set_solver. }
  split; [|exact Hgone].
  rewrite (Hfold (git_worktree_free (Some b) m)).
  pose proof (free_all_live l (self b) _ Hgone) as Hstill.
  unfold git__free at 1. apply Z.eqb_neq in Hs. rewrite Hs. simpl.
  rewrite bool_decide_eq_false_2 by exact Hstill. apply orb_true_r.
Qed.

Lemma free_twice_faults_witness :
  fault (git_worktree_free (Some block_1_7)
           (git_worktree_free (Some block_1_7) memory_1_7)) = true.
Proof. exact (proj1 (free_twice_faults block_1_7 memory_1_7 ltac:(discriminate))). Defined.
